(** * AnyVideo Downloader: validator, job registry, task callbacks, sweeper

    A shallow embedding of the orchestration layer of the downloader
    ([src/app.py], [src/security.py]) and the properties its specification
    states about it.

    Conventions of the embedding.
    - Python text is a [string] of code points below 256.  On that range
      [str.lower], [str.strip] and the regular-expression class [\d] are
      given exactly by the tables in [PyStr].
    - Python numbers (byte counts, percentages, clock readings in seconds)
      are exact rationals [Q]; binary64 rounding is not modelled.  The
      concrete evaluations below use values on which the binary64 result is
      exact.
    - The module-level dict [download_progress] is a [gmap string Job]
      threaded through every function that reads or writes it.
    - Calls into third-party code ([re.search], [urllib.parse.urlparse],
      [bleach.clean]) are the fields of the class [Library].  The general
      theorems hold for every implementation of it; evaluations on concrete
      requests use [reference_library].
    - The handlers are the bodies of the Flask view functions; the
      decorators around them (rate limit, request size, required JSON
      fields, response headers) run outside the model. *)

From Stdlib Require Import String Ascii List ZArith QArith Lia Bool.
From Stdlib Require Import DecimalString DecimalPos DecimalFacts.
From stdpp Require Import base option gmap strings.

Open Scope string_scope.

(** ** Python text primitives *)

Module PyStr.

(** [ord(c)] *)
Definition ord (c : ascii) : nat := nat_of_ascii c.

Definition in_range (lo hi : nat) (c : ascii) : bool :=
  Nat.leb lo (ord c) && Nat.leb (ord c) hi.

(** [c.lower()] for one code point below 256: the ASCII capitals and the
    Latin-1 capitals U+00C0..U+00DE (U+00D7, the multiplication sign, has
    no case) move up by 32. *)
Definition lower_char (c : ascii) : ascii :=
  if in_range 65 90 c then ascii_of_nat (ord c + 32)
  else if in_range 192 222 c && negb (Nat.eqb (ord c) 215)
       then ascii_of_nat (ord c + 32)
  else c.

(** [s.lower()] *)
Fixpoint lower (s : string) : string :=
  match s with
  | EmptyString => EmptyString
  | String c t => String (lower_char c) (lower t)
  end.

(** [c.isspace()] below 256: TAB..CR, FS..US, space, NEL, NBSP. *)
Definition isspace (c : ascii) : bool :=
  in_range 9 13 c || in_range 28 32 c
  || Nat.eqb (ord c) 133 || Nat.eqb (ord c) 160.

(** [c] is matched by [\d] (Unicode class Nd below 256). *)
Definition isdigit (c : ascii) : bool := in_range 48 57 c.

(** [s.lstrip()] *)
Fixpoint lstrip (s : string) : string :=
  match s with
  | EmptyString => EmptyString
  | String c t => if isspace c then lstrip t else s
  end.

(** [s.rstrip()] *)
Fixpoint rstrip (s : string) : string :=
  match s with
  | EmptyString => EmptyString
  | String c t =>
      match rstrip t with
      | EmptyString => if isspace c then EmptyString else String c EmptyString
      | t' => String c t'
      end
  end.

(** [s.strip()] *)
Definition strip (s : string) : string := rstrip (lstrip s).

(** [s.startswith(p)] *)
Definition startswith (s p : string) : bool := String.prefix p s.

(** [needle in hay] *)
Fixpoint contains (needle hay : string) : bool :=
  String.prefix needle hay
  || match hay with
     | EmptyString => false
     | String _ t => contains needle t
     end.

(** [s[:n]] *)
Fixpoint take (n : nat) (s : string) : string :=
  match n, s with
  | O, _ => EmptyString
  | _, EmptyString => EmptyString
  | S n', String c t => String c (take n' t)
  end.

(** [s.replace(chr(k), '')] for a single code point. *)
Fixpoint remove_char (k : ascii) (s : string) : string :=
  match s with
  | EmptyString => EmptyString
  | String c t =>
      if Ascii.eqb c k then remove_char k t else String c (remove_char k t)
  end.

(** [sep.join(l)] *)
Fixpoint join (sep : string) (l : list string) : string :=
  match l with
  | [] => EmptyString
  | [x] => x
  | x :: rest => x ++ sep ++ join sep rest
  end.

(** [s.split(sep)] for a one-character separator. *)
Fixpoint split (sep : ascii) (s : string) : list string :=
  match s with
  | EmptyString => [EmptyString]
  | String c t =>
      if Ascii.eqb c sep then EmptyString :: split sep t
      else match split sep t with
           | [] => [String c EmptyString]
           | w :: ws => String c w :: ws
           end
  end.

(** [os.path.basename(p)] on POSIX: what follows the last slash. *)
Definition basename (p : string) : string :=
  List.last (split "/"%char p) EmptyString.

(** [str(n)] for an [int]. *)
Definition str_of_int (n : Z) : string := NilZero.string_of_int (Z.to_int n).

(** [x in l] for a list of strings. *)
Definition mem (x : string) (l : list string) : bool :=
  existsb (String.eqb x) l.

(** Truthiness of a string: non-empty. *)
Definition truthy (s : string) : bool :=
  match s with EmptyString => false | _ => true end.

Definition all_chars (p : ascii -> bool) (s : string) : bool :=
  forallb p (list_ascii_of_string s).

End PyStr.

Import PyStr.

(** ** Third-party calls

    The result of [urlparse(url)] as far as the code reads it. *)

Record ParseResult := {
  scheme : string;
  hostname : option string  (* [None] is Python's [None] *)
}.

Class Library := {
  (** [re.search(pattern, text, re.IGNORECASE)] found a match *)
  re_search : string -> string -> bool;
  (** [urlparse(url)]; [None] when it raises *)
  urlparse : string -> option ParseResult;
  (** [bleach.clean(text, tags=[], strip=True)] *)
  bleach_clean : string -> string
}.

(** ** security.py: [SecurityValidator] *)

Definition ALLOWED_SCHEMES : list string := ["http"; "https"].

Definition MAX_URL_LENGTH : nat := 2048.

Definition BLOCKED_PATTERNS : list string :=
  [ "<script[^>]*>.*?</script>";
    "javascript:";
    "on\w+\s*=";
    "eval\s*\(";
    "expression\s*\(";
    "import\s+";
    "exec\s*\(";
    "<iframe";
    "<embed";
    "<object";
    "\.\./\.\.";
    "\.\.\\\.\.";
    "union\s+select";
    "drop\s+table";
    "insert\s+into";
    "delete\s+from";
    "update\s+.*set";
    "--\s*$";
    "/\*.*\*/" ].

(** The three hostname tests of [validate_url], on the lower-cased name. *)

Definition is_local_host (hostname_lower : string) : bool :=
  mem hostname_lower ["localhost"; "127.0.0.1"; "0.0.0.0"; "::1"].

Definition is_private_host (hostname_lower : string) : bool :=
  startswith hostname_lower "192.168."
  || startswith hostname_lower "10."
  || startswith hostname_lower "172.".

Definition is_metadata_host (hostname_lower : string) : bool :=
  contains "169.254.169.254" hostname_lower.

Section Validator.

Context `{L : Library}.

(** [SecurityValidator.validate_url]: the pair [(is_valid, error_message)]. *)
Definition validate_url (url : string) : bool * option string :=
  if negb (truthy url) then (false, Some "URL is required")
  else if Nat.ltb MAX_URL_LENGTH (String.length url) then
    (false, Some "URL too long")
  else
    let url_lower := lower url in
    if existsb (fun pattern => re_search pattern url_lower) BLOCKED_PATTERNS
    then (false, Some "URL contains suspicious content")
    else
      match urlparse url with
      | None => (false, Some "Invalid URL format")
      | Some parsed =>
          if negb (mem (scheme parsed) ALLOWED_SCHEMES) then
            (false,
             Some ("Only " ++ join ", " ALLOWED_SCHEMES ++ " URLs are allowed"))
          else
            match hostname parsed with
            | Some hostname =>
                if truthy hostname then
                  let hostname_lower := lower hostname in
                  if is_local_host hostname_lower then
                    (false, Some "Local URLs are not allowed")
                  else if is_private_host hostname_lower then
                    (false, Some "Private IP addresses are not allowed")
                  else if is_metadata_host hostname_lower then
                    (false, Some "Metadata endpoints are not allowed")
                  else (true, None)
                else (true, None)
            | None => (true, None)
            end
      end.

(** [SecurityValidator.sanitize_string] *)
Definition sanitize_string (text : string) (max_length : nat) : string :=
  if negb (truthy text) then ""
  else
    let text := take max_length text in
    let text := bleach_clean text in
    let text := remove_char zero text in
    strip text.

End Validator.

(** [SecurityValidator.validate_quality]: [(is_valid, sanitized_quality)]. *)
Definition validate_quality (quality : string) : bool * string :=
  let allowed_qualities := ["best"; "4k"; "1080p"; "720p"; "480p"] in
  if negb (truthy quality) then (true, "best")
  else
    let quality := strip (lower quality) in
    if mem quality allowed_qualities then (true, quality)
    else (false, "best").

(** [SecurityValidator.validate_format]: [(is_valid, sanitized_format)]. *)
Definition validate_format (format_type : string) : bool * string :=
  let allowed_formats := ["video"; "audio"] in
  if negb (truthy format_type) then (true, "video")
  else
    let format_type := strip (lower format_type) in
    if mem format_type allowed_formats then (true, format_type)
    else (false, "video").

(** ** app.py: the job registry

    A Python number or [None]. *)
Definition PyNum : Type := option Q.

(** One value of [download_progress]: the dict of a job.  The first seven
    keys are written at creation; a key that may be absent is an [option]. *)
Record Job := {
  job_id : string;
  url : string;
  status : string;
  progress : Q;
  quality : string;
  format : string;
  started_at : string;
  filename : option string;
  downloaded : option Q;
  total : option Q;
  speed : option PyNum;
  eta : option PyNum;
  error : option string
}.

Definition set_status (v : string) (j : Job) : Job :=
  {| job_id := job_id j; url := url j; status := v; progress := progress j;
     quality := quality j; format := format j; started_at := started_at j;
     filename := filename j; downloaded := downloaded j; total := total j;
     speed := speed j; eta := eta j; error := error j |}.

Definition set_progress (v : Q) (j : Job) : Job :=
  {| job_id := job_id j; url := url j; status := status j; progress := v;
     quality := quality j; format := format j; started_at := started_at j;
     filename := filename j; downloaded := downloaded j; total := total j;
     speed := speed j; eta := eta j; error := error j |}.

Definition set_filename (v : string) (j : Job) : Job :=
  {| job_id := job_id j; url := url j; status := status j;
     progress := progress j; quality := quality j; format := format j;
     started_at := started_at j; filename := Some v;
     downloaded := downloaded j; total := total j; speed := speed j;
     eta := eta j; error := error j |}.

Definition set_downloaded (v : Q) (j : Job) : Job :=
  {| job_id := job_id j; url := url j; status := status j;
     progress := progress j; quality := quality j; format := format j;
     started_at := started_at j; filename := filename j;
     downloaded := Some v; total := total j; speed := speed j;
     eta := eta j; error := error j |}.

Definition set_total (v : Q) (j : Job) : Job :=
  {| job_id := job_id j; url := url j; status := status j;
     progress := progress j; quality := quality j; format := format j;
     started_at := started_at j; filename := filename j;
     downloaded := downloaded j; total := Some v; speed := speed j;
     eta := eta j; error := error j |}.

Definition set_speed (v : PyNum) (j : Job) : Job :=
  {| job_id := job_id j; url := url j; status := status j;
     progress := progress j; quality := quality j; format := format j;
     started_at := started_at j; filename := filename j;
     downloaded := downloaded j; total := total j; speed := Some v;
     eta := eta j; error := error j |}.

Definition set_eta (v : PyNum) (j : Job) : Job :=
  {| job_id := job_id j; url := url j; status := status j;
     progress := progress j; quality := quality j; format := format j;
     started_at := started_at j; filename := filename j;
     downloaded := downloaded j; total := total j; speed := speed j;
     eta := Some v; error := error j |}.

Definition set_error (v : string) (j : Job) : Job :=
  {| job_id := job_id j; url := url j; status := status j;
     progress := progress j; quality := quality j; format := format j;
     started_at := started_at j; filename := filename j;
     downloaded := downloaded j; total := total j; speed := speed j;
     eta := eta j; error := Some v |}.

(** Exceptions the callbacks can raise. *)
Inductive Exn :=
| KeyError (key : string)
| TypeError
| ZeroDivisionError.

(** Statements over the registry: the registry as the statement leaves it,
    and either the exception that ended it or its value.  What was written
    before an exception stays written. *)
Definition Stmt (A : Type) : Type :=
  gmap string Job -> gmap string Job * (Exn + A).

Definition ret {A} (a : A) : Stmt A := fun reg => (reg, inr a).

Definition raise {A} (e : Exn) : Stmt A := fun reg => (reg, inl e).

Definition bind {A B} (c : Stmt A) (k : A -> Stmt B) : Stmt B :=
  fun reg =>
    match c reg with
    | (reg', inl e) => (reg', inl e)
    | (reg', inr a) => k a reg'
    end.

Notation "x <- c ;;; k" := (bind c (fun x => k))
  (at level 100, c at next level, right associativity).
Notation "c ;;; k" := (bind c (fun _ => k))
  (at level 100, right associativity).

(** [download_progress[download_id][key] = value], with the key and value
    given as a setter. *)
Definition assign (download_id : string) (setter : Job -> Job) : Stmt unit :=
  fun reg =>
    match reg !! download_id with
    | Some j => (<[download_id := setter j]> reg, inr tt)
    | None => (reg, inl (KeyError download_id))
    end.

(** The registry a statement leaves, and whether it raised. *)
Definition run {A} (c : Stmt A) (reg : gmap string Job) : gmap string Job :=
  fst (c reg).

Definition raised {A} (c : Stmt A) (reg : gmap string Job) : option Exn :=
  match snd (c reg) with inl e => Some e | inr _ => None end.

(** [DownloadLogger(download_id).error(msg)] *)
Definition DownloadLogger_error (download_id msg : string) : Stmt unit :=
  assign download_id (set_status "error") ;;;
  assign download_id (set_error msg).

(** The dict [d] a progress hook receives, as far as the hook reads it.  An
    absent key is the outer [None]. *)
Record HookEvent := {
  d_status : string;
  d_filename : option string;
  d_total_bytes : option PyNum;
  d_total_bytes_estimate : option PyNum;
  d_downloaded_bytes : option PyNum;
  d_speed : option PyNum;
  d_eta : option PyNum;
  d_error : option string
}.

(** The body shared by the two branches of the progress calculation
    (lines 89-96 and 98-105 differ only in the key [total] is read from).
    The division raises on [None] and on a zero [total]. *)
Definition record_progress (d : HookEvent) (download_id : string)
    (total : PyNum) : Stmt unit :=
  let downloaded := default (Some 0%Q) (d_downloaded_bytes d) in
  match downloaded, total with
  | Some downloaded, Some total =>
      if Qeq_bool total 0 then raise ZeroDivisionError
      else
        let percent := ((downloaded / total) * 100)%Q in
        assign download_id (set_progress percent) ;;;
        assign download_id (set_downloaded downloaded) ;;;
        assign download_id (set_total total) ;;;
        assign download_id (set_speed (default (Some 0%Q) (d_speed d))) ;;;
        assign download_id (set_eta (default (Some 0%Q) (d_eta d)))
  | _, _ => raise TypeError
  end.

(** [progress_hook(d, download_id)] *)
Definition progress_hook (d : HookEvent) (download_id : string) : Stmt unit :=
  if d_status d =? "downloading" then
    assign download_id (set_status "downloading") ;;;
    let full_path := default "Unknown" (d_filename d) in
    assign download_id (set_filename (basename full_path)) ;;;
    match d_total_bytes d with
    | Some total => record_progress d download_id total
    | None =>
        match d_total_bytes_estimate d with
        | Some total => record_progress d download_id total
        | None => ret tt
        end
    end
  else if d_status d =? "finished" then
    assign download_id (set_status "processing") ;;;
    assign download_id (set_progress 100) ;;;
    let full_path := default "Unknown" (d_filename d) in
    assign download_id (set_filename (basename full_path))
  else if d_status d =? "error" then
    assign download_id (set_status "error") ;;;
    assign download_id (set_error (default "Unknown error" (d_error d)))
  else ret tt.

(** ** app.py: [download_video]

    The keys of [ydl_opts] that the quality and format block (lines 185-228)
    may write; [None] is a key left unset. *)
Record FormatOpts := {
  opt_format : option string;
  opt_merge_output_format : option string;
  opt_postprocessors : option (list (list (string * string)));
  opt_keepvideo : option bool
}.

Definition no_format_opts : FormatOpts :=
  {| opt_format := None; opt_merge_output_format := None;
     opt_postprocessors := None; opt_keepvideo := None |}.

Definition video_opts (selector : string) : FormatOpts :=
  {| opt_format := Some selector; opt_merge_output_format := Some "mp4";
     opt_postprocessors := None; opt_keepvideo := None |}.

(** [download_video], lines 185-228: quality and format settings. *)
Definition download_video_format_opts (quality format_type : string)
    : FormatOpts :=
  if format_type =? "video" then
    if quality =? "best" then
      video_opts ("bestvideo[ext=mp4]+bestaudio[ext=m4a]/"
                  ++ "bestvideo+bestaudio/"
                  ++ "best[ext=mp4]/"
                  ++ "best")
    else if quality =? "4k" then
      video_opts ("bestvideo[height>=2160][ext=mp4]+bestaudio[ext=m4a]/"
                  ++ "bestvideo[height>=2160]+bestaudio/"
                  ++ "best[height>=2160]/"
                  ++ "bestvideo+bestaudio/"
                  ++ "best")
    else if quality =? "1080p" then
      video_opts ("bestvideo[height<=1080][ext=mp4]+bestaudio[ext=m4a]/"
                  ++ "bestvideo[height<=1080]+bestaudio/"
                  ++ "best[height<=1080]/"
                  ++ "best")
    else if quality =? "720p" then
      video_opts ("bestvideo[height<=720][ext=mp4]+bestaudio[ext=m4a]/"
                  ++ "bestvideo[height<=720]+bestaudio/"
                  ++ "best[height<=720]/"
                  ++ "best")
    else no_format_opts
  else if format_type =? "audio" then
    {| opt_format := Some "bestaudio/best";
       opt_merge_output_format := None;
       opt_postprocessors :=
         Some [[("key", "FFmpegExtractAudio");
                ("preferredcodec", "mp3");
                ("preferredquality", "320")]];
       opt_keepvideo := Some false |}
  else no_format_opts.

(** config.py: [Config.QUALITY_FORMATS], each quality with its [format] and
    [merge_output_format]. *)
Definition QUALITY_FORMATS : list (string * (string * string)) :=
  [ ("best",
     ("bestvideo[ext=mp4]+bestaudio[ext=m4a]/bestvideo+bestaudio/best", "mp4"));
    ("4k",
     ("bestvideo[height>=2160]+bestaudio/best[height>=2160]/best", "mp4"));
    ("1080p",
     ("bestvideo[height<=1080]+bestaudio/best[height<=1080]/best", "mp4"));
    ("720p",
     ("bestvideo[height<=720]+bestaudio/best[height<=720]/best", "mp4"));
    ("480p",
     ("bestvideo[height<=480]+bestaudio/best[height<=480]/best", "mp4")) ].

(** [download_video], lines 263-277: the text stored under [error] for the
    message of a caught exception. *)
Definition helpful_error_message (error_msg : string) : string :=
  if contains "DRM" error_msg || contains "drm protection" (lower error_msg)
  then "DRM-protected content cannot be downloaded. Use official app (Netflix, Disney+, etc.)"
  else if contains "need to log in" (lower error_msg)
          || contains "login required" (lower error_msg)
          || contains "cookies" (lower error_msg)
          || contains "nsfw" (lower error_msg)
  then "Login required. Export cookies from browser. See COOKIE_GUIDE.md"
  else if contains "Unsupported URL" error_msg
          || contains "No video formats found" error_msg
  then "Site not supported or outdated. Update yt-dlp: pip install --upgrade yt-dlp"
  else if contains "HTTP Error 404" error_msg
  then "Video not found (404). Video may be deleted or URL incorrect."
  else if contains "Unable to extract" error_msg
          || contains "Failed to parse" error_msg
  then "Extraction failed. Update yt-dlp: pip install --upgrade yt-dlp"
  else if contains "Cloudflare" error_msg
          || contains "HTTP Error 403" error_msg
          || contains "impersonate" error_msg
  then "Cloudflare protected. Install: pip install curl-cffi, then restart"
  else error_msg.

(** [download_video], lines 258-277: the handler of a caught exception
    whose message is [error_msg]. *)
Definition download_video_except (error_msg download_id : string)
    : Stmt unit :=
  assign download_id (set_status "error") ;;;
  assign download_id (set_error (helpful_error_message error_msg)).

(** The classification written the way the specification words it: an
    ordered list of independent predicate-to-label rules, first match wins,
    with [Unknown] when none matches. *)
Inductive ErrorKind :=
| DRM
| AuthRequired
| Unsupported
| NotFound404
| ExtractionFailed
| BotProtection
| Unknown.

Definition classification_rules : list ((string -> bool) * ErrorKind) :=
  [ (fun m => contains "DRM" m || contains "drm protection" (lower m), DRM);
    (fun m => contains "need to log in" (lower m)
              || contains "login required" (lower m)
              || contains "cookies" (lower m)
              || contains "nsfw" (lower m), AuthRequired);
    (fun m => contains "Unsupported URL" m
              || contains "No video formats found" m, Unsupported);
    (fun m => contains "HTTP Error 404" m, NotFound404);
    (fun m => contains "Unable to extract" m
              || contains "Failed to parse" m, ExtractionFailed);
    (fun m => contains "Cloudflare" m
              || contains "HTTP Error 403" m
              || contains "impersonate" m, BotProtection) ].

Fixpoint first_match (rules : list ((string -> bool) * ErrorKind))
    (message : string) : ErrorKind :=
  match rules with
  | [] => Unknown
  | (applies, kind) :: rest =>
      if applies message then kind else first_match rest message
  end.

Definition classify_error (message : string) : ErrorKind :=
  first_match classification_rules message.

(** The text reported for a kind; the raw message for [Unknown]. *)
Definition kind_text (kind : ErrorKind) (message : string) : string :=
  match kind with
  | DRM => "DRM-protected content cannot be downloaded. Use official app (Netflix, Disney+, etc.)"
  | AuthRequired => "Login required. Export cookies from browser. See COOKIE_GUIDE.md"
  | Unsupported => "Site not supported or outdated. Update yt-dlp: pip install --upgrade yt-dlp"
  | NotFound404 => "Video not found (404). Video may be deleted or URL incorrect."
  | ExtractionFailed => "Extraction failed. Update yt-dlp: pip install --upgrade yt-dlp"
  | BotProtection => "Cloudflare protected. Install: pip install curl-cffi, then restart"
  | Unknown => message
  end.

(** ** app.py: the HTTP handlers *)

(** The JSON bodies the two handlers produce. *)
Inductive Body :=
| ErrorBody (error : string) (suggestion : option string)
| StartedBody (download_id : string) (message : string)
| JobBody (job : Job).

Record Response := { status_code : nat; body : Body }.

(** The JSON object posted to [/api/download], with string values; an
    absent key is [None].  (A JSON [null] is treated by the handler as an
    absent key is: both end as the default value.) *)
Record DownloadRequest := {
  req_url : string;
  req_quality : option string;
  req_format : option string
}.

(** The arguments of the background thread [start_download] launches. *)
Record Task := {
  task_url : string;
  task_download_id : string;
  task_quality : string;
  task_format : string
}.

(** [f"download_{int(time.time() * 1000)}"], from the integer [now_ms] the
    clock reading is truncated to. *)
Definition make_download_id (now_ms : Z) : string :=
  "download_" ++ str_of_int now_ms.

(** What follows a literal prefix, if the text starts with it. *)
Fixpoint after_prefix (p s : string) : option string :=
  match p, s with
  | EmptyString, _ => Some s
  | String a p', String c s' =>
      if Ascii.eqb a c then after_prefix p' s' else None
  | String _ _, EmptyString => None
  end.

(** [\d*$]: digits up to the end of the text, or up to a single newline
    that ends it. *)
Fixpoint digits_to_end (s : string) : bool :=
  match s with
  | EmptyString => true
  | String c t =>
      if isdigit c then digits_to_end t
      else Ascii.eqb c "010"%char && negb (truthy t)
  end.

(** [re.match(r'^download_\d+$', s)] found a match. *)
Definition match_download_id (s : string) : bool :=
  match after_prefix "download_" s with
  | Some (String c t) => isdigit c && digits_to_end t
  | _ => false
  end.

Section Handlers.

Context `{L : Library}.

(** [start_download], given the request body, the integer [now_ms] that
    [int(time.time() * 1000)] evaluates to and the timestamp [now_iso] that
    [datetime.now().isoformat()] evaluates to: the response, the registry
    afterwards, and the thread started if any.  This is the handler on a
    body that is an object with string values, when the thread starts;
    [start_download_handler] further down is the handler on any body, with
    its [except] branch, and agrees with it there. *)
Definition start_download (data : DownloadRequest) (now_ms : Z)
    (now_iso : string) (download_progress : gmap string Job)
    : Response * gmap string Job * option Task :=
  let url := strip (req_url data) in
  let quality := default "best" (req_quality data) in
  let format_type := default "video" (req_format data) in
  let '(is_valid, error_msg) := validate_url url in
  if negb is_valid then
    ({| status_code := 400; body := ErrorBody "Invalid URL" error_msg |},
     download_progress, None)
  else
    let '(is_valid, quality) := validate_quality quality in
    if negb is_valid then
      ({| status_code := 400; body := ErrorBody "Invalid quality parameter" None |},
       download_progress, None)
    else
      let '(is_valid, format_type) := validate_format format_type in
      if negb is_valid then
        ({| status_code := 400; body := ErrorBody "Invalid format parameter" None |},
         download_progress, None)
      else
        let download_id := make_download_id now_ms in
        let job :=
          {| job_id := download_id; url := url; status := "queued";
             progress := 0; quality := quality; format := format_type;
             started_at := now_iso; filename := None; downloaded := None;
             total := None; speed := None; eta := None; error := None |} in
        ({| status_code := 200; body := StartedBody download_id "Download started" |},
         <[download_id := job]> download_progress,
         Some {| task_url := url; task_download_id := download_id;
                 task_quality := quality; task_format := format_type |}).

(** [get_progress] *)
Definition get_progress (download_id : string)
    (download_progress : gmap string Job) : Response :=
  let download_id := sanitize_string download_id 50 in
  if negb (match_download_id download_id) then
    {| status_code := 400; body := ErrorBody "Invalid download ID" None |}
  else
    match download_progress !! download_id with
    | Some job => {| status_code := 200; body := JobBody job |}
    | None => {| status_code := 404; body := ErrorBody "Download not found" None |}
    end.

End Handlers.

(** ** app.py: the retention sweeper

    An entry of the download folder: whether [os.path.isfile] holds of it,
    its modification time, and whether [os.remove] succeeds on it. *)
Record FileEntry := {
  is_file : bool;
  mtime : Q;
  removable : bool
}.

(** The lines [cleanup_old_downloads] prints. *)
Inductive LogLine :=
| CleanedUp (filename : string)
| FailedToDelete (filename : string)
| CleanupComplete (cleanup_count : nat).

Record Sweep := {
  folder : gmap string FileEntry;
  cleanup_count : nat;
  printed : list LogLine
}.

(** [os.listdir(DOWNLOAD_FOLDER)] *)
Definition listdir (fs : gmap string FileEntry) : list string :=
  (map_to_list fs).*1.

(** One iteration of the loop of [cleanup_old_downloads] (lines 638-649). *)
Definition cleanup_file (current_time : Q) (st : Sweep) (filename : string)
    : Sweep :=
  match folder st !! filename with
  | Some entry =>
      if is_file entry then
        let file_age := (current_time - mtime entry)%Q in
        if negb (Qle_bool file_age 30) then
          if removable entry then
            {| folder := delete filename (folder st);
               cleanup_count := S (cleanup_count st);
               printed := (printed st ++ [CleanedUp filename])%list |}
          else
            {| folder := folder st;
               cleanup_count := cleanup_count st;
               printed := (printed st ++ [FailedToDelete filename])%list |}
        else st
      else st
  | None => st
  end.

(** [cleanup_old_downloads], at clock reading [current_time]: the folder
    afterwards and the lines printed. *)
Definition cleanup_old_downloads (current_time : Q)
    (fs : gmap string FileEntry) : gmap string FileEntry * list LogLine :=
  let st :=
    foldl (cleanup_file current_time)
          {| folder := fs; cleanup_count := 0; printed := [] |}
          (listdir fs) in
  (folder st,
   if Nat.ltb 0 (cleanup_count st)
   then (printed st ++ [CleanupComplete (cleanup_count st)])%list
   else printed st).

(** ** A reference implementation of the third-party calls

    Used to evaluate the handlers on concrete requests.  The theorems
    quantify over every [Library]. *)

Module Regex.

(** Regular expressions over code points, with character classes as
    predicates. *)
Inductive Re :=
| Void
| Eps
| Chr (p : ascii -> bool)
| Cat (a b : Re)
| Alt (a b : Re)
| Star (a : Re).

Fixpoint nullable (r : Re) : bool :=
  match r with
  | Void => false
  | Eps => true
  | Chr _ => false
  | Cat a b => nullable a && nullable b
  | Alt a b => nullable a || nullable b
  | Star _ => true
  end.

Definition cat (a b : Re) : Re :=
  match a, b with
  | Void, _ => Void
  | _, Void => Void
  | Eps, _ => b
  | _, _ => Cat a b
  end.

Definition alt (a b : Re) : Re :=
  match a, b with
  | Void, _ => b
  | _, Void => a
  | _, _ => Alt a b
  end.

(** The expression matching what may follow [c]. *)
Fixpoint deriv (c : ascii) (r : Re) : Re :=
  match r with
  | Void => Void
  | Eps => Void
  | Chr p => if p c then Eps else Void
  | Cat a b => alt (cat (deriv c a) b) (if nullable a then deriv c b else Void)
  | Alt a b => alt (deriv c a) (deriv c b)
  | Star a => cat (deriv c a) (Star a)
  end.

(** Some prefix of [s] is matched by [r]. *)
Fixpoint match_prefix (r : Re) (s : string) : bool :=
  nullable r
  || match s with
     | EmptyString => false
     | String c t => match_prefix (deriv c r) t
     end.

(** [s] is matched by [r] followed by [$]: up to the end of [s], or up to a
    single newline that ends it. *)
Fixpoint match_to_end (r : Re) (s : string) : bool :=
  match s with
  | EmptyString => nullable r
  | String c t =>
      (nullable r && Ascii.eqb c "010"%char && negb (truthy t))
      || match_to_end (deriv c r) t
  end.

(** A compiled pattern: its body and whether it ends in [$]. *)
Record Pattern := { pat_body : Re; pat_to_end : bool }.

(** [re.search]: a match starting at some position of [s]. *)
Fixpoint search (p : Pattern) (s : string) : bool :=
  (if pat_to_end p then match_to_end (pat_body p) s
   else match_prefix (pat_body p) s)
  || match s with
     | EmptyString => false
     | String _ t => search p t
     end.

(** A literal under [re.IGNORECASE]. *)
Definition chr_i (c : ascii) : Re :=
  Chr (fun x => Ascii.eqb (lower_char x) (lower_char c)).

Fixpoint lit (s : string) : Re :=
  match s with
  | EmptyString => Eps
  | String c t => cat (chr_i c) (lit t)
  end.

(** [.] *)
Definition dot : Re := Chr (fun x => negb (Ascii.eqb x "010"%char)).

(** [\s] *)
Definition space : Re := Chr isspace.

(** [\w] below 256: what [str.isalnum] accepts, and the underscore. *)
Definition word : Re :=
  Chr (fun x =>
         in_range 48 57 x || in_range 65 90 x || in_range 97 122 x
         || Nat.eqb (ord x) 95
         || Nat.eqb (ord x) 170 || in_range 178 179 x
         || Nat.eqb (ord x) 181 || in_range 185 186 x
         || in_range 188 190 x || in_range 192 214 x
         || in_range 216 246 x || in_range 248 255 x).

Definition plus (r : Re) : Re := Cat r (Star r).

Definition seq (l : list Re) : Re := fold_right Cat Eps l.

Definition unanchored (r : Re) : Pattern :=
  {| pat_body := r; pat_to_end := false |}.

(** The patterns of [BLOCKED_PATTERNS], compiled by hand. *)
Definition compiled : list (string * Pattern) :=
  [ ("<script[^>]*>.*?</script>",
     unanchored (seq [lit "<script";
                      Star (Chr (fun x => negb (Ascii.eqb x ">"%char)));
                      lit ">"; Star dot; lit "</script>"]));
    ("javascript:", unanchored (lit "javascript:"));
    ("on\w+\s*=", unanchored (seq [lit "on"; plus word; Star space; lit "="]));
    ("eval\s*\(", unanchored (seq [lit "eval"; Star space; lit "("]));
    ("expression\s*\(",
     unanchored (seq [lit "expression"; Star space; lit "("]));
    ("import\s+", unanchored (seq [lit "import"; plus space]));
    ("exec\s*\(", unanchored (seq [lit "exec"; Star space; lit "("]));
    ("<iframe", unanchored (lit "<iframe"));
    ("<embed", unanchored (lit "<embed"));
    ("<object", unanchored (lit "<object"));
    ("\.\./\.\.", unanchored (lit "../.."));
    ("\.\.\\\.\.", unanchored (lit "..\.."));
    ("union\s+select", unanchored (seq [lit "union"; plus space; lit "select"]));
    ("drop\s+table", unanchored (seq [lit "drop"; plus space; lit "table"]));
    ("insert\s+into", unanchored (seq [lit "insert"; plus space; lit "into"]));
    ("delete\s+from", unanchored (seq [lit "delete"; plus space; lit "from"]));
    ("update\s+.*set",
     unanchored (seq [lit "update"; plus space; Star dot; lit "set"]));
    ("--\s*$", {| pat_body := seq [lit "--"; Star space]; pat_to_end := true |});
    ("/\*.*\*/", unanchored (seq [lit "/*"; Star dot; lit "*/"])) ].

Fixpoint lookup_pattern (pattern : string) (l : list (string * Pattern))
    : option Pattern :=
  match l with
  | [] => None
  | (k, p) :: rest => if k =? pattern then Some p else lookup_pattern pattern rest
  end.

(** [re.search(pattern, text, re.IGNORECASE)] for the patterns above. *)
Definition re_search (pattern text : string) : bool :=
  match lookup_pattern pattern compiled with
  | Some p => search p text
  | None => false
  end.

End Regex.

Module Url.

(** [s.partition(sep)] for a one-character separator: what precedes the
    first [sep], and what follows it when there is one. *)
Fixpoint partition (sep : ascii) (s : string) : string * option string :=
  match s with
  | EmptyString => (EmptyString, None)
  | String c t =>
      if Ascii.eqb c sep then (EmptyString, Some t)
      else let '(before, after) := partition sep t in (String c before, after)
  end.

(** [s.rpartition(sep)[2]]: what follows the last [sep], or all of [s]. *)
Fixpoint after_last (sep : ascii) (s : string) : string :=
  match s with
  | EmptyString => EmptyString
  | String c t =>
      if Ascii.eqb c sep && negb (existsb (Ascii.eqb sep) (list_ascii_of_string t))
      then t
      else if existsb (Ascii.eqb sep) (list_ascii_of_string s)
           then after_last sep t
           else s
  end.

Definition has (c : ascii) (s : string) : bool :=
  existsb (Ascii.eqb c) (list_ascii_of_string s).

(** [url.lstrip(_WHATWG_C0_CONTROL_OR_SPACE)] *)
Fixpoint lstrip_c0 (s : string) : string :=
  match s with
  | EmptyString => EmptyString
  | String c t => if Nat.leb (ord c) 32 then lstrip_c0 t else s
  end.

Definition remove_unsafe (s : string) : string :=
  remove_char "013"%char (remove_char "010"%char (remove_char "009"%char s)).

Definition ascii_alpha (c : ascii) : bool :=
  in_range 65 90 c || in_range 97 122 c.

(** [c in scheme_chars] *)
Definition scheme_char (c : ascii) : bool :=
  ascii_alpha c || in_range 48 57 c
  || Ascii.eqb c "+" || Ascii.eqb c "-" || Ascii.eqb c ".".

(** The scheme split of [urlsplit]: the scheme and the rest of the URL. *)
Definition split_scheme (url : string) : string * string :=
  match partition ":" url with
  | (String c0 before, Some rest) =>
      if ascii_alpha c0 && all_chars scheme_char before
      then (lower (String c0 before), rest)
      else (EmptyString, url)
  | _ => (EmptyString, url)
  end.

(** [_splitnetloc(url, 0)[0]]: up to the first of [/], [?], [#]. *)
Fixpoint netloc_of (s : string) : string :=
  match s with
  | EmptyString => EmptyString
  | String c t =>
      if Ascii.eqb c "/" || Ascii.eqb c "?" || Ascii.eqb c "#"
      then EmptyString
      else String c (netloc_of t)
  end.

(** The structural part of [_check_bracketed_netloc]; the address between
    the brackets is not validated. *)
Definition brackets_well_placed (netloc : string) : bool :=
  match partition "[" (after_last "@" netloc) with
  | (before_bracket, Some bracketed) =>
      negb (truthy before_bracket)
      && match partition "]" bracketed with
         | (_, Some port) => negb (truthy port) || startswith port ":"
         | (_, None) => true
         end
  | (_, None) => true
  end.

(** The [hostname] property of the parse result. *)
Definition hostname_of (netloc : string) : option string :=
  let hostinfo := after_last "@" netloc in
  let host :=
    match partition "[" hostinfo with
    | (_, Some bracketed) => fst (partition "]" bracketed)
    | (_, None) => fst (partition ":" hostinfo)
    end in
  if truthy host then
    match partition "%" host with
    | (name, Some zone) => Some (lower name ++ "%" ++ zone)
    | (name, None) => Some (lower name)
    end
  else None.

(** [urlparse(url)] as CPython 3.11 computes the scheme and the hostname,
    except that the address inside a bracketed host is accepted without
    validation. *)
Definition urlparse (url : string) : option ParseResult :=
  let url := remove_unsafe (lstrip_c0 url) in
  let '(scheme, rest) := split_scheme url in
  match after_prefix "//" rest with
  | Some rest' =>
      let netloc := netloc_of rest' in
      if xorb (has "[" netloc) (has "]" netloc) then None
      else if has "[" netloc && negb (brackets_well_placed netloc) then None
      else Some {| scheme := scheme; hostname := hostname_of netloc |}
  | None => Some {| scheme := scheme; hostname := None |}
  end.

End Url.

Module Markup.

(** A tag stripper standing for [bleach.clean(text, tags=[], strip=True)]:
    it drops every [<...>] span and escapes what remains of the markup
    characters.  On text with none of [<], [>], [&] it is the identity, as
    the library is; the examples use it on such text only. *)
Fixpoint clean_from (in_tag : bool) (s : string) : string :=
  match s with
  | EmptyString => EmptyString
  | String c t =>
      if in_tag then clean_from (negb (Ascii.eqb c ">")) t
      else if Ascii.eqb c "<" then
        if Url.has ">" t then clean_from true t
        else "&lt;" ++ clean_from false t
      else if Ascii.eqb c ">" then "&gt;" ++ clean_from false t
      else if Ascii.eqb c "&" then "&amp;" ++ clean_from false t
      else String c (clean_from false t)
  end.

Definition clean (text : string) : string := clean_from false text.

End Markup.

Definition reference_library : Library :=
  {| re_search := Regex.re_search;
     urlparse := Url.urlparse;
     bleach_clean := Markup.clean |}.

(** ** Vocabulary of the statements *)

(** The internal hostnames: the four local names, the three private
    prefixes, and any name containing the metadata address. *)
Definition internal_hostname (h : string) : Prop :=
  In h ["localhost"; "127.0.0.1"; "0.0.0.0"; "::1"]
  \/ startswith h "10." = true
  \/ startswith h "172." = true
  \/ startswith h "192.168." = true
  \/ contains "169.254.169.254" h = true.

(** A request for [u] with the default quality and format. *)
Definition request_for (u : string) : DownloadRequest :=
  {| req_url := u; req_quality := None; req_format := None |}.

(** The alternatives of the format selector that was configured, most
    preferred first; [None] when the selector is left unset. *)
Definition selector_chain (opts : FormatOpts) : option (list string) :=
  split "/" <$> opt_format opts.

(** A selector that asks for a video stream combined with an audio
    stream. *)
Definition combined_selector (s : string) : bool :=
  startswith s "bestvideo" && contains "+bestaudio" s.

(** A fallback chain: a combined video and audio selector first, the plain
    selector [best] last. *)
Definition fallback_chain (chain : list string) : Prop :=
  exists first middle,
    chain = (first :: middle ++ ["best"])%list
    /\ combined_selector first = true.

(** No rule of the classification applies to a message. *)
Definition no_rule_applies (message : string) : bool :=
  forallb (fun rule => negb (rule.1 message)) classification_rules.

(** A call the collaborator makes into the task while it runs: an error
    reported to the logger, or an event passed to the progress hook. *)
Inductive Callback :=
| LoggerError (msg : string)
| Hook (d : HookEvent).

Definition apply_callback (download_id : string) (cb : Callback)
    : Stmt unit :=
  match cb with
  | LoggerError msg => DownloadLogger_error download_id msg
  | Hook d => progress_hook d download_id
  end.

(** The registry after a sequence of callbacks, each applied to what the
    previous one left. *)
Definition run_callbacks (download_id : string) (cbs : list Callback)
    (reg : gmap string Job) : gmap string Job :=
  foldl (fun r cb => run (apply_callback download_id cb) r) reg cbs.

(** The state of a job, when it is registered. *)
Definition status_of (download_id : string) (reg : gmap string Job)
    : option string :=
  status <$> reg !! download_id.

Definition terminal (s : string) : Prop := s = "completed" \/ s = "error".

(** The hook events the collaborator sends. *)
Definition known_event (cb : Callback) : Prop :=
  match cb with
  | LoggerError _ => True
  | Hook d => In (d_status d) ["downloading"; "finished"; "error"]
  end.

(** The events that report an error. *)
Definition error_event (cb : Callback) : Prop :=
  match cb with
  | LoggerError _ => True
  | Hook d => d_status d = "error"
  end.

(** The state stays what it is once it is terminal, whatever follows. *)
Definition terminal_states_are_final : Prop :=
  forall download_id reg cbs s,
    status_of download_id reg = Some s ->
    terminal s ->
    Forall known_event cbs ->
    status_of download_id (run_callbacks download_id cbs reg) = Some s.

(** The total a downloading event is read with: [total_bytes] when the key
    is there, [total_bytes_estimate] otherwise. *)
Definition event_total (d : HookEvent) : option PyNum :=
  match d_total_bytes d with
  | Some total => Some total
  | None => d_total_bytes_estimate d
  end.

(** [d.get('downloaded_bytes', 0)] *)
Definition event_downloaded (d : HookEvent) : PyNum :=
  default (Some 0%Q) (d_downloaded_bytes d).

(** A downloading event with the given byte counts, the total under the
    key [total_bytes] or under [total_bytes_estimate]. *)
Definition downloading_event (downloaded : Q) (exact : bool) (total : Q)
    : HookEvent :=
  {| d_status := "downloading";
     d_filename := Some "/srv/downloads/video.mp4";
     d_total_bytes := if exact then Some (Some total) else None;
     d_total_bytes_estimate := if exact then None else Some (Some total);
     d_downloaded_bytes := Some (Some downloaded);
     d_speed := Some (Some 1000%Q);
     d_eta := Some (Some 1%Q);
     d_error := None |}.

(** A job as [start_download] registers it. *)
Definition queued_job (download_id : string) : Job :=
  {| job_id := download_id; url := "https://example.com/v";
     status := "queued"; progress := 0; quality := "best";
     format := "video"; started_at := "2023-11-14T22:13:20";
     filename := None; downloaded := None; total := None;
     speed := None; eta := None; error := None |}.

(** What a downloading event with numeric byte counts and a non-zero total
    writes. *)
Definition downloading_update (d : HookEvent) (x T : Q) (j : Job) : Job :=
  set_eta (default (Some 0%Q) (d_eta d))
    (set_speed (default (Some 0%Q) (d_speed d))
       (set_total T
          (set_downloaded x
             (set_progress ((x / T) * 100)%Q
                (set_filename (basename (default "Unknown" (d_filename d)))
                   (set_status "downloading" j)))))).

(** An error event of the progress hook. *)
Definition error_hook_event (message : string) : HookEvent :=
  {| d_status := "error"; d_filename := None; d_total_bytes := None;
     d_total_bytes_estimate := None; d_downloaded_bytes := None;
     d_speed := None; d_eta := None; d_error := Some message |}.

(** A registry holding one job, as the submission handler leaves it. *)
Definition one_job_registry (download_id : string) : gmap string Job :=
  {[ download_id := queued_job download_id ]}.

(** The progress values a sequence of hook events leaves in the record of
    a job, one after each event. *)
Fixpoint progress_trace (download_id : string) (ds : list HookEvent)
    (reg : gmap string Job) : list Q :=
  match ds with
  | [] => []
  | d :: rest =>
      let reg' := run (progress_hook d download_id) reg in
      match reg' !! download_id with
      | Some j => progress j :: progress_trace download_id rest reg'
      | None => progress_trace download_id rest reg'
      end
  end.

(** No value of the list is smaller than the one before it. *)
Definition non_decreasing (l : list Q) : Prop :=
  forall i a b, l !! i = Some a -> l !! S i = Some b -> (a <= b)%Q.

(** [d] is a downloading event whose [downloaded_bytes] is [x]. *)
Definition downloading_with (d : HookEvent) (x : Q) : Prop :=
  d_status d = "downloading" /\ event_downloaded d = Some x.

(** [d] carries a total equal to [T], under either key. *)
Definition carries_total (T : Q) (d : HookEvent) : Prop :=
  exists T', event_total d = Some (Some T') /\ (T' == T)%Q.

(** Progress never decreases along downloading events whose downloaded
    byte counts do not decrease, whatever totals they carry. *)
Definition progress_is_monotonic : Prop :=
  forall download_id reg j ds xs,
    reg !! download_id = Some j ->
    Forall2 downloading_with ds xs ->
    non_decreasing xs ->
    non_decreasing (progress_trace download_id ds reg).

(** After a downloading event, byte counters that are both set are in
    order, and the progress is at most 100. *)
Definition byte_counters_are_bounded : Prop :=
  forall download_id reg j d j' x t,
    reg !! download_id = Some j ->
    d_status d = "downloading" ->
    run (progress_hook d download_id) reg !! download_id = Some j' ->
    downloaded j' = Some x ->
    total j' = Some t ->
    (x <= t)%Q /\ (progress j' <= 100)%Q.

(** The characters of an identifier: ASCII letters, digits, underscore. *)
Definition id_char (c : ascii) : bool :=
  in_range 48 57 c || in_range 65 90 c || in_range 97 122 c
  || Nat.eqb (ord c) 95.

(** The cleaner leaves text made of identifier characters as it is, as
    [bleach.clean] does. *)
Definition cleaner_keeps_identifiers (L : Library) : Prop :=
  forall s, all_chars id_char s = true -> bleach_clean s = s.

(** The answer of [get_progress] to an id of the wrong shape. *)
Definition invalid_id_response : Response :=
  {| status_code := 400; body := ErrorBody "Invalid download ID" None |}.

(** The answer of [get_progress] once the id it looks up is [key]. *)
Definition lookup_response (key : string) (reg : gmap string Job)
    : Response :=
  match reg !! key with
  | Some job => {| status_code := 200; body := JobBody job |}
  | None =>
      {| status_code := 404; body := ErrorBody "Download not found" None |}
  end.

(** An id that does not match the pattern is answered with 400, whatever
    the registry holds. *)
Definition unmatched_ids_are_rejected : Prop :=
  forall L : Library,
    cleaner_keeps_identifiers L ->
    forall download_id reg,
      match_download_id download_id = false ->
      status_code (get_progress download_id reg) = 400%nat.

(** Fifty-one characters: the prefix, forty-one digits, and a letter. *)
Definition overlong_id : string :=
  "download_00000000000000000000000000001700000000000x".

(** The sweeper removes an entry: a regular file, older than thirty
    seconds, whose removal succeeds. *)
Definition swept (current_time : Q) (entry : FileEntry) : bool :=
  is_file entry
  && negb (Qle_bool (current_time - mtime entry) 30)
  && removable entry.

(** A download folder with a file past the threshold, a file past the
    threshold that cannot be removed, a fresh file and a directory. *)
Definition example_folder : gmap string FileEntry :=
  {[ "old.mp4" := {| is_file := true; mtime := 100; removable := true |};
     "locked.mp4" := {| is_file := true; mtime := 100; removable := false |};
     "new.mp4" := {| is_file := true; mtime := 190; removable := true |};
     "partial" := {| is_file := false; mtime := 100; removable := true |} ]}.

(** ** Further vocabulary: the validator *)

(** The closed lists of [validate_quality] and [validate_format]. *)
Definition allowed_qualities : list string :=
  ["best"; "4k"; "1080p"; "720p"; "480p"].

Definition allowed_formats : list string := ["video"; "audio"].

(** No character of the text is NUL. *)
Definition nul_free (s : string) : bool :=
  all_chars (fun c => negb (Ascii.eqb c zero)) s.

(** ** security.py: [AntiAbuse]

    [current_time - timestamp < window] *)
Definition in_window (window current_time timestamp : Q) : bool :=
  negb (Qle_bool window (current_time - timestamp)).

(** [AntiAbuse.check_rate_limit(ip, max_requests, window)] at the clock
    reading [current_time], on the class attribute [_request_log]: the
    answer and the log afterwards. *)
Definition check_rate_limit (ip : string) (max_requests : Z) (window : Q)
    (current_time : Q) (request_log : gmap string (list Q))
    : bool * gmap string (list Q) :=
  let request_log :=
    match request_log !! ip with
    | Some _ => request_log
    | None => <[ip := []]> request_log
    end in
  let recent :=
    List.filter (in_window window current_time)
                (default [] (request_log !! ip)) in
  let request_log := <[ip := recent]> request_log in
  if (max_requests <=? Z.of_nat (length recent))%Z then (false, request_log)
  else (true, <[ip := (recent ++ [current_time])%list]> request_log).

(** A sequence of calls from one address, at the clock readings [times]:
    the readings at which the answer was [True], and the log afterwards. *)
Definition rate_limit_step (ip : string) (max_requests : Z) (window : Q)
    (st : list Q * gmap string (list Q)) (current_time : Q)
    : list Q * gmap string (list Q) :=
  let '(allowed, request_log') :=
    check_rate_limit ip max_requests window current_time st.2 in
  (if allowed then (st.1 ++ [current_time])%list else st.1, request_log').

Definition replay_rate_limit (ip : string) (max_requests : Z) (window : Q)
    (times : list Q) (request_log : gmap string (list Q))
    : list Q * gmap string (list Q) :=
  foldl (rate_limit_step ip max_requests window) ([], request_log) times.

(** ** Further vocabulary: callbacks *)

(** The keys of a job that are written at creation only. *)
Definition same_identity (j j' : Job) : Prop :=
  job_id j' = job_id j /\ url j' = url j /\ quality j' = quality j
  /\ format j' = format j /\ started_at j' = started_at j.

(** The keys of a job that only the progress calculation writes. *)
Definition same_counters (j j' : Job) : Prop :=
  progress j' = progress j /\ downloaded j' = downloaded j
  /\ total j' = total j /\ speed j' = speed j /\ eta j' = eta j.

(** A statement writes to the record of one job only, which must be
    registered, and leaves its identity and, when [keep] says so, more of
    it as they are. *)
Definition writes_only {A} (download_id : string) (keep : Job -> Job -> Prop)
    (c : Stmt A) : Prop :=
  forall reg,
    match reg !! download_id with
    | None => run c reg = reg
    | Some j =>
        exists j', run c reg = <[download_id := j']> reg /\ keep j j'
    end.

(** No slash in the text. *)
Definition slash_free (s : string) : bool :=
  all_chars (fun c => negb (Ascii.eqb c "/")) s.

(** ** Further vocabulary: submission *)

(** The options an audio download is configured with. *)
Definition audio_opts : FormatOpts :=
  {| opt_format := Some "bestaudio/best";
     opt_merge_output_format := None;
     opt_postprocessors :=
       Some [[("key", "FFmpegExtractAudio");
              ("preferredcodec", "mp3");
              ("preferredquality", "320")]];
     opt_keepvideo := Some false |}.

(** ** Further vocabulary: the sweeper *)

Definition is_cleaned_line (line : LogLine) : bool :=
  match line with CleanedUp _ => true | _ => false end.

Definition is_summary_line (line : LogLine) : bool :=
  match line with CleanupComplete _ => true | _ => false end.

(** ** app.py: the download task and the history

    One format of the list [info['formats']]: its [height], [None] when
    the key is absent or holds [None], and its [ext]. *)
Record MediaFormat := {
  f_height : option Z;
  f_ext : option string
}.

(** The metadata dict that [extract_info] returns, as far as the code
    reads it; an absent key is [None]. *)
Record Info := {
  info_title : option string;
  info_thumbnail : option string;
  info_duration : option Q;
  info_uploader : option string;
  info_description : option string;
  info_view_count : option Q;
  info_formats : option (list MediaFormat)
}.

(** The keys of a job's dict that only the main path of [download_video]
    writes.  They are kept apart from [Job], under the same id; they can
    be written only while the job is registered. *)
Record JobMeta := {
  title : option string;
  thumbnail : option string;
  duration : option Q;
  uploader : option string;
  completed_at : option string
}.

Definition no_meta : JobMeta :=
  {| title := None; thumbnail := None; duration := None; uploader := None;
     completed_at := None |}.

Definition set_title (v : string) (m : JobMeta) : JobMeta :=
  {| title := Some v; thumbnail := thumbnail m; duration := duration m;
     uploader := uploader m; completed_at := completed_at m |}.

Definition set_thumbnail (v : string) (m : JobMeta) : JobMeta :=
  {| title := title m; thumbnail := Some v; duration := duration m;
     uploader := uploader m; completed_at := completed_at m |}.

Definition set_duration (v : Q) (m : JobMeta) : JobMeta :=
  {| title := title m; thumbnail := thumbnail m; duration := Some v;
     uploader := uploader m; completed_at := completed_at m |}.

Definition set_uploader (v : string) (m : JobMeta) : JobMeta :=
  {| title := title m; thumbnail := thumbnail m; duration := duration m;
     uploader := Some v; completed_at := completed_at m |}.

Definition set_completed_at (v : string) (m : JobMeta) : JobMeta :=
  {| title := title m; thumbnail := thumbnail m; duration := duration m;
     uploader := uploader m; completed_at := Some v |}.

(** An element of [download_history]. *)
Record HistoryEntry := {
  h_id : string;
  h_url : string;
  h_title : string;
  h_quality : string;
  h_format : string;
  h_completed_at : string;
  h_filename : string
}.

(** The module-level state the task works on: [download_progress], in its
    two parts, and [download_history]. *)
Record AppState := {
  jobs : gmap string Job;
  metas : gmap string JobMeta;
  history : list HistoryEntry
}.

(** An exception on its way to the handler of [download_video]: one the
    task's own callbacks raised, or one the collaborator raised with the
    given message. *)
Inductive Failure :=
| Internal (e : Exn)
| External (message : string).

(** What the collaborator does in one run of the task: the calls it makes
    into the logger and the hook and the result of [extract_info], then
    the calls it makes and the result of [download] ([None] when it
    returns, the message when it raises). *)
Record Run := {
  probe_calls : list Callback;
  probe : string + Info;
  download_calls : list Callback;
  download_result : option string
}.

Definition TaskStmt (A : Type) : Type :=
  AppState -> AppState * (Failure + A).

Definition then_ {A} (c : TaskStmt unit) (k : TaskStmt A) : TaskStmt A :=
  fun st =>
    match c st with
    | (st', inl f) => (st', inl f)
    | (st', inr _) => k st'
    end.

Notation "c >> k" := (then_ c k) (at level 100, right associativity).

Definition fail {A} (f : Failure) : TaskStmt A := fun st => (st, inl f).

Definition done_ : TaskStmt unit := fun st => (st, inr tt).

(** A statement on [download_progress] inside the task. *)
Definition on_jobs (c : Stmt unit) : TaskStmt unit :=
  fun st =>
    let '(reg, r) := c (jobs st) in
    ({| jobs := reg; metas := metas st; history := history st |},
     match r with inl e => inl (Internal e) | inr a => inr a end).

(** [download_progress[download_id][key] = value] for a key of [JobMeta]. *)
Definition assign_meta (download_id : string) (setter : JobMeta -> JobMeta)
    : TaskStmt unit :=
  fun st =>
    match jobs st !! download_id with
    | Some _ =>
        ({| jobs := jobs st;
            metas := <[download_id :=
                         setter (default no_meta (metas st !! download_id))]>
                       (metas st);
            history := history st |}, inr tt)
    | None => (st, inl (Internal (KeyError download_id)))
    end.

(** The calls of the collaborator, in order, up to the first that raises. *)
Fixpoint deliver (download_id : string) (cbs : list Callback) : TaskStmt unit :=
  match cbs with
  | [] => done_
  | cb :: rest =>
      on_jobs (apply_callback download_id cb) >> deliver download_id rest
  end.

(** [download_history.append({...})], lines 248-256. *)
Definition append_history (url download_id quality format_type : string)
    : TaskStmt unit :=
  fun st =>
    match jobs st !! download_id with
    | Some j =>
        let m := default no_meta (metas st !! download_id) in
        match title m, completed_at m with
        | Some t, Some c =>
            ({| jobs := jobs st; metas := metas st;
                history :=
                  (history st
                   ++ [{| h_id := download_id; h_url := url; h_title := t;
                          h_quality := quality; h_format := format_type;
                          h_completed_at := c;
                          h_filename := default "" (filename j) |}])%list |},
             inr tt)
        | None, _ => (st, inl (Internal (KeyError "title")))
        | _, None => (st, inl (Internal (KeyError "completed_at")))
        end
    | None => (st, inl (Internal (KeyError download_id)))
    end.

Section DownloadTask.

(** [str(e)] for an exception of the task's own callbacks. *)
Variable exn_text : Exn -> string.

Definition failure_text (f : Failure) : string :=
  match f with
  | Internal e => exn_text e
  | External message => message
  end.

(** The [try] block of [download_video] (lines 121-256), with the
    collaborator doing [script]; [now_iso] is what
    [datetime.now().isoformat()] evaluates to. *)
Definition download_video_try (script : Run) (now_iso : string)
    (url download_id quality format_type : string) : TaskStmt unit :=
  on_jobs (assign download_id (set_status "starting")) >>
  deliver download_id (probe_calls script) >>
  match probe script with
  | inl message => fail (External message)
  | inr info =>
      assign_meta download_id
        (set_title (default "Unknown" (info_title info))) >>
      assign_meta download_id
        (set_thumbnail (default "" (info_thumbnail info))) >>
      assign_meta download_id
        (set_duration (default 0%Q (info_duration info))) >>
      assign_meta download_id
        (set_uploader (default "Unknown" (info_uploader info))) >>
      deliver download_id (download_calls script) >>
      match download_result script with
      | Some message => fail (External message)
      | None =>
          on_jobs (assign download_id (set_status "completed")) >>
          on_jobs (assign download_id (set_progress 100)) >>
          assign_meta download_id (set_completed_at now_iso) >>
          append_history url download_id quality format_type
      end
  end.

(** [download_video(url, download_id, quality, format_type)]: the [try]
    block, and the handler (lines 258-277) on what it raises. *)
Definition download_video (script : Run) (now_iso : string)
    (url download_id quality format_type : string) : TaskStmt unit :=
  fun st =>
    match download_video_try script now_iso url download_id quality
            format_type st with
    | (st', inl f) =>
        on_jobs (download_video_except (failure_text f) download_id) st'
    | (st', inr tt) => (st', inr tt)
    end.

End DownloadTask.



(** [get_history]: [download_history[-50:]]. *)
Definition get_history (download_history : list HistoryEntry)
    : list HistoryEntry :=
  drop (length download_history - 50) download_history.

(** ** app.py: [get_video_info]

    One element of the [formats] list of the answer. *)
Record FormatEntry := {
  fe_quality : string;
  fe_height : Z;
  fe_ext : string
}.

(** The body of the loop over [info['formats']] (lines 487-495), on the
    list [formats] and the set [seen_heights].  A height is an [int]; it is
    truthy when it is not 0. *)
Definition add_format (acc : list FormatEntry * gset Z) (f : MediaFormat)
    : list FormatEntry * gset Z :=
  let '(formats, seen_heights) := acc in
  match f_height f with
  | Some height =>
      if negb (height =? 0)%Z
         && negb (bool_decide (height ∈ seen_heights))
      then
        ((formats
          ++ [{| fe_quality := str_of_int height ++ "p";
                 fe_height := height;
                 fe_ext := default "mp4" (f_ext f) |}])%list,
         seen_heights ∪ {[height]})
      else acc
  | None => acc
  end.

(** [formats.sort(key=lambda x: x['height'], reverse=True)]: a stable
    sort, the greatest height first; of two entries with the same height
    the one that was first stays first. *)
Fixpoint insert_by_height (x : FormatEntry) (l : list FormatEntry)
    : list FormatEntry :=
  match l with
  | [] => [x]
  | y :: l' =>
      if (fe_height x <? fe_height y)%Z then y :: insert_by_height x l'
      else x :: l
  end.

Definition sort_by_height (l : list FormatEntry) : list FormatEntry :=
  foldr insert_by_height [] l.

(** Lines 484-498: the list [formats] when the answer is built. *)
Definition collect_formats (info : Info) : list FormatEntry :=
  match info_formats info with
  | Some fs => sort_by_height (foldl add_format ([], ∅) fs).1
  | None => []
  end.

(** The JSON object of a successful answer. *)
Record InfoBody := {
  b_title : string;
  b_duration : Q;
  b_thumbnail : string;
  b_uploader : string;
  b_description : string;
  b_view_count : Q;
  b_formats : list FormatEntry
}.

(** An answer of [/api/info]: an error object with its status code, where
    an absent key is [None], or the object of a successful answer, sent
    with the status 200. *)
Inductive InfoAnswer :=
| InfoRefused (code : nat) (error : string) (suggestion : option string)
    (details : option string)
| InfoFound (b : InfoBody).

Definition info_code (a : InfoAnswer) : nat :=
  match a with
  | InfoRefused code _ _ _ => code
  | InfoFound _ => 200
  end.

(** Lines 499-508. *)
Definition info_body (info : Info) : InfoBody :=
  {| b_title := default "Unknown" (info_title info);
     b_duration := default 0%Q (info_duration info);
     b_thumbnail := default "" (info_thumbnail info);
     b_uploader := default "Unknown" (info_uploader info);
     b_description := take 200 (default "" (info_description info));
     b_view_count := default 0%Q (info_view_count info);
     b_formats := firstn 10 (collect_formats info) |}.

(** The test of the first [if] of both handlers. *)
Definition mentions_drm (error_msg : string) : bool :=
  contains "DRM" error_msg || contains "drm protection" (lower error_msg).

(** The test of the second [if] of the inner handler (line 463). *)
Definition mentions_login (error_str : string) : bool :=
  contains "need to log in" (lower error_str)
  || contains "login required" (lower error_str).

(** The outer handler (lines 510-561) on an exception whose message is
    [error_msg]. *)
Definition get_video_info_except (error_msg : string) : InfoAnswer :=
  if mentions_drm error_msg then
    InfoRefused 500
      "This content is DRM-protected and cannot be downloaded."
      (Some "DRM bypass is illegal and not supported. Use official apps to watch.")
      (Some "Services like Netflix, Disney+, Amazon Prime, Hulu use DRM encryption which is legally protected and cannot be bypassed.")
  else if contains "need to log in" (lower error_msg)
          || contains "login required" (lower error_msg)
          || contains "cookies" (lower error_msg)
          || contains "nsfw" (lower error_msg) then
    InfoRefused 500
      "This content requires login/authentication."
      (Some "Export cookies from your browser. See COOKIE_GUIDE.md for instructions.")
      (Some "Private, protected, or NSFW content requires you to be logged in.")
  else if contains "Unsupported URL" error_msg then
    InfoRefused 500
      "This site is not supported or the URL format is incorrect."
      (Some "Try updating yt-dlp: Run update_ytdlp.bat or: pip install --upgrade yt-dlp")
      (Some error_msg)
  else if contains "No video formats found" error_msg then
    InfoRefused 500
      "No video formats found. The site may have changed its format."
      (Some "Update yt-dlp: Run update_ytdlp.bat or: pip install --upgrade yt-dlp")
      (Some error_msg)
  else if contains "HTTP Error 404" error_msg then
    InfoRefused 500
      "Video not found (404). The video may have been deleted or the URL is incorrect."
      (Some "Check the URL and try again.")
      (Some error_msg)
  else if contains "Unable to extract" error_msg
          || contains "Failed to parse" error_msg then
    InfoRefused 500
      "Failed to extract video information. The site format may have changed."
      (Some "Update yt-dlp: Run update_ytdlp.bat or: pip install --upgrade yt-dlp")
      (Some error_msg)
  else if contains "Cloudflare" error_msg
          || contains "HTTP Error 403" error_msg
          || contains "impersonate" error_msg then
    InfoRefused 500
      "Site is protected by Cloudflare anti-bot."
      (Some "Install bypass: pip install curl-cffi, then restart. See CLOUDFLARE_BYPASS.md")
      (Some error_msg)
  else
    InfoRefused 500 error_msg
      (Some "Try updating yt-dlp: Run update_ytdlp.bat or: pip install --upgrade yt-dlp")
      None.

Section InfoEndpoint.

Context `{L : Library}.

(** [get_video_info], given the [url] of the request body and what the
    collaborator does: [primary] is the outcome of the first
    [extract_info], the message it raises or the dict it returns, and
    [generic] the outcome of the second, with [force_generic_extractor],
    if it is made. *)
Definition get_video_info (url : string) (primary generic : string + Info)
    : InfoAnswer :=
  let url := strip url in
  let '(is_valid, error_msg) := validate_url url in
  if negb is_valid then
    InfoRefused 400 "Invalid URL" error_msg
      (Some "Please provide a valid HTTP/HTTPS URL")
  else
    match primary with
    | inr info => InfoFound (info_body info)
    | inl error_str =>
        if mentions_drm error_str then
          InfoRefused 500
            "This content is DRM-protected and cannot be downloaded."
            (Some "DRM bypass is illegal and not supported. Use official apps (Netflix, Disney+, etc.) to watch.")
            (Some "Services like Netflix, Disney+, Amazon Prime, Hulu, HBO Max use DRM encryption which is legally protected.")
        else if mentions_login error_str then
          InfoRefused 500
            "This content requires login/authentication."
            (Some "This is private content. See COOKIE_GUIDE.md for cookie export instructions.")
            (Some error_str)
        else
          match generic with
          | inr info => InfoFound (info_body info)
          | inl _ => get_video_info_except error_str
          end
    end.

End InfoEndpoint.

(** Each height is less than all before it. *)
Fixpoint strictly_descending (heights : list Z) : Prop :=
  match heights with
  | [] => True
  | h :: rest => Forall (fun h' => (h' < h)%Z) rest /\ strictly_descending rest
  end.

(** A dict as [extract_info] returns it, with six formats: two of the
    height 720, one without height and one of the height 0. *)
Definition example_info : Info :=
  {| info_title := Some "A video";
     info_thumbnail := None;
     info_duration := Some 12%Q;
     info_uploader := None;
     info_description := Some "About the video";
     info_view_count := None;
     info_formats :=
       Some [ {| f_height := Some 720%Z; f_ext := Some "mp4" |};
              {| f_height := Some 1080%Z; f_ext := Some "webm" |};
              {| f_height := Some 720%Z; f_ext := Some "webm" |};
              {| f_height := None; f_ext := Some "m4a" |};
              {| f_height := Some 0%Z; f_ext := None |};
              {| f_height := Some 360%Z; f_ext := None |} ] |}.

(** The [error] of an answer, if it is an error object. *)
Definition info_error (a : InfoAnswer) : option string :=
  match a with
  | InfoRefused _ error _ _ => Some error
  | InfoFound _ => None
  end.

(** The texts the task stores and the texts [/api/info] answers with,
    class by class, in the order of the tests. *)
Definition matching_texts : list (string * string) :=
  [ ("DRM-protected content cannot be downloaded. Use official app (Netflix, Disney+, etc.)",
     "This content is DRM-protected and cannot be downloaded.");
    ("Login required. Export cookies from browser. See COOKIE_GUIDE.md",
     "This content requires login/authentication.");
    ("Site not supported or outdated. Update yt-dlp: pip install --upgrade yt-dlp",
     "This site is not supported or the URL format is incorrect.");
    ("Site not supported or outdated. Update yt-dlp: pip install --upgrade yt-dlp",
     "No video formats found. The site may have changed its format.");
    ("Video not found (404). Video may be deleted or URL incorrect.",
     "Video not found (404). The video may have been deleted or the URL is incorrect.");
    ("Extraction failed. Update yt-dlp: pip install --upgrade yt-dlp",
     "Failed to extract video information. The site format may have changed.");
    ("Cloudflare protected. Install: pip install curl-cffi, then restart",
     "Site is protected by Cloudflare anti-bot.") ].

(** What the loop keeps true of its list and its set, over the formats
    [fs0] it runs through. *)
Definition entry_from (fs0 : list MediaFormat) (e : FormatEntry) : Prop :=
  fe_height e <> 0%Z
  /\ fe_quality e = str_of_int (fe_height e) ++ "p"
  /\ exists f,
       In f fs0 /\ f_height f = Some (fe_height e)
       /\ fe_ext e = default "mp4" (f_ext f).

Definition collect_inv (fs0 : list MediaFormat)
    (acc : list FormatEntry * gset Z) : Prop :=
  (forall h, h ∈ acc.2 <-> h ∈ map fe_height acc.1)
  /\ NoDup (map fe_height acc.1)
  /\ Forall (entry_from fs0) acc.1.

(** No entry is higher than one before it. *)
Fixpoint descending (l : list FormatEntry) : Prop :=
  match l with
  | [] => True
  | x :: rest =>
      Forall (fun y => (fe_height y <= fe_height x)%Z) rest /\ descending rest
  end.

(** ** app.py: [download_file]

    [s.endswith(p)] *)
Fixpoint endswith (s p : string) : bool :=
  String.eqb s p
  || match s with
     | EmptyString => false
     | String _ t => endswith t p
     end.

(** [os.path.join(a, b)], as in [posixpath]. *)
Definition path_join (a b : string) : string :=
  if startswith b "/" then b
  else if negb (truthy a) || endswith a "/" then a ++ b
  else a ++ "/" ++ b.

(** An answer of [/api/file/<path:filename>]: the file at [filepath], sent
    as an attachment under [download_name], or an error object with its
    status code. *)
Inductive FileAnswer :=
| FileSent (filepath download_name : string)
| FileRefused (code : nat) (error : string).

(** [download_file(filename)], given the download folder, what
    [os.path.exists] answers for a path, and what [send_file] does for a
    path and a download name: [None] when it returns, the message when it
    raises. *)
Definition download_file (DOWNLOAD_FOLDER : string)
    (path_exists : string -> bool)
    (send_file : string -> string -> option string) (filename : string)
    : FileAnswer :=
  let filename := basename filename in
  let filepath := path_join DOWNLOAD_FOLDER filename in
  if negb (path_exists filepath) then FileRefused 404 "File not found"
  else
    match send_file filepath filename with
    | None => FileSent filepath filename
    | Some message => FileRefused 500 message
    end.

(** ** The request body

    A JSON value under a key of the body, as far as the code reads it: a
    string, or a value of another type (null, a boolean, a number, an
    array, an object), of which the code observes the truth value, the
    name of the type and the text [str] gives. *)
Inductive JsonValue :=
| JString (s : string)
| JOther (py_bool : bool) (py_type : string) (py_str : string).

(** What [request.get_json()] returns: an object, an array, a string, or
    null, a boolean or a number, with the name of its type. *)
Inductive JsonBody :=
| JObject (fields : gmap string JsonValue)
| JArray (items : list JsonValue)
| JText (s : string)
| JAtom (py_type : string).

(** [bool(v)] *)
Definition value_truthy (v : JsonValue) : bool :=
  match v with
  | JString s => truthy s
  | JOther b _ _ => b
  end.

(** [str(v)] *)
Definition value_str (v : JsonValue) : string :=
  match v with
  | JString s => s
  | JOther _ _ s => s
  end.

(** [type(data).__name__] *)
Definition body_type (data : JsonBody) : string :=
  match data with
  | JObject _ => "dict"
  | JArray _ => "list"
  | JText _ => "str"
  | JAtom py_type => py_type
  end.

Definition is_object (data : JsonBody) : bool :=
  match data with
  | JObject _ => true
  | _ => false
  end.

(** The message of the [AttributeError] for a missing method. *)
Definition attribute_error (py_type attribute : string) : string :=
  "'" ++ py_type ++ "' object has no attribute '" ++ attribute ++ "'".

(** [SecurityValidator.validate_quality(quality)] on any value. *)
Definition validate_quality_value (quality : JsonValue) : bool * string :=
  if negb (value_truthy quality) then (true, "best")
  else
    let quality := strip (lower (value_str quality)) in
    if mem quality allowed_qualities then (true, quality)
    else (false, "best").

(** [SecurityValidator.validate_format(format_type)] on any value. *)
Definition validate_format_value (format_type : JsonValue) : bool * string :=
  if negb (value_truthy format_type) then (true, "video")
  else
    let format_type := strip (lower (value_str format_type)) in
    if mem format_type allowed_formats then (true, format_type)
    else (false, "video").

(** ** security.py: [RequestValidator] and [secure_headers]

    The request as the decorators and the handlers read it:
    [request.content_length], [request.is_json], and what
    [request.get_json()] does: the message of the exception it raises, or
    the value it returns. *)
Record HttpRequest := {
  content_length : option Z;
  is_json : bool;
  get_json : string + JsonBody
}.

(** A response: the status and the body, and the headers that the code of
    this repository has set on it. *)
Record HttpResponse := {
  response : Response;
  headers : gmap string string
}.

(** A view function on the state [S] of the module: the response it
    returns or the exception it lets escape (which the framework then
    answers with 500), and the state afterwards. *)
Definition View (S : Type) : Type :=
  HttpRequest -> S -> (Exn + HttpResponse) * S.

(** [jsonify({'error': error}), code] *)
Definition refusal (code : nat) (error : string) : HttpResponse :=
  {| response := {| status_code := code; body := ErrorBody error None |};
     headers := ∅ |}.

(** [return jsonify({'error': error}), code] *)
Definition refuse {S} (code : nat) (error : string) (s : S)
    : (Exn + HttpResponse) * S :=
  (inr (refusal code error), s).

(** [RequestValidator.check_request_size(max_size)(f)] *)
Definition check_request_size {S} (max_size : Z) (f : View S) : View S :=
  fun req s =>
    match content_length req with
    | Some n =>
        if negb (n =? 0)%Z && (max_size <? n)%Z
        then refuse 413 "Request too large" s
        else f req s
    | None => f req s
    end.

(** [field not in data or not data[field]]: whether the field counts as
    missing, or the [TypeError] the test raises.  On an object the test is
    on the keys and the value; on an array [in] looks for an item equal to
    the name, on a string for the name as a part of it, and when it is
    found the subscript raises; on null, a boolean or a number [in]
    raises. *)
Definition field_missing (data : JsonBody) (field : string) : Exn + bool :=
  match data with
  | JObject fields =>
      match fields !! field with
      | None => inr true
      | Some v => inr (negb (value_truthy v))
      end
  | JArray items =>
      if existsb (fun v => match v with
                           | JString s => String.eqb field s
                           | JOther _ _ _ => false
                           end) items
      then inl TypeError
      else inr true
  | JText s => if contains field s then inl TypeError else inr true
  | JAtom _ => inl TypeError
  end.

(** The list comprehension of lines 204-207: the required fields that are
    missing, in their order, or the exception of the first test that
    raises. *)
Fixpoint missing_fields (data : JsonBody) (required_fields : list string)
    : Exn + list string :=
  match required_fields with
  | [] => inr []
  | field :: rest =>
      match field_missing data field with
      | inl e => inl e
      | inr missing =>
          match missing_fields data rest with
          | inl e => inl e
          | inr others => inr (if missing then field :: others else others)
          end
      end
  end.

(** [RequestValidator.validate_json_request(required_fields)(f)]; only
    [get_json] is inside a [try]. *)
Definition validate_json_request {S} (required_fields : list string)
    (f : View S) : View S :=
  fun req s =>
    if negb (is_json req) then
      refuse 400 "Content-Type must be application/json" s
    else
      match get_json req with
      | inl _ => refuse 400 "Invalid JSON format" s
      | inr data =>
          match required_fields with
          | [] => f req s
          | _ :: _ =>
              match missing_fields data required_fields with
              | inl e => (inl e, s)
              | inr [] => f req s
              | inr missing =>
                  refuse 400
                    ("Missing required fields: " ++ join ", " missing) s
              end
          end
      end.

(** The five assignments of [secure_headers] to [response.headers]. *)
Definition set_security_headers (h : gmap string string)
    : gmap string string :=
  <["Permissions-Policy" := "geolocation=(), microphone=(), camera=()"]>
    (<["Referrer-Policy" := "strict-origin-when-cross-origin"]>
       (<["X-XSS-Protection" := "1; mode=block"]>
          (<["X-Frame-Options" := "DENY"]>
             (<["X-Content-Type-Options" := "nosniff"]> h)))).

(** [secure_headers()(f)] *)
Definition secure_headers {S} (f : View S) : View S :=
  fun req s =>
    match f req s with
    | (inr r, s') =>
        (inr {| response := response r;
                headers := set_security_headers (headers r) |}, s')
    | (inl e, s') => (inl e, s')
    end.

Section Endpoints.

Context `{L : Library}.

(** The handler [start_download] in full (lines 315-371), with its
    [except Exception] branch, on any request body.  [thread_start] is
    what starting the thread does: [None] when it returns, the message of
    the exception when it raises.  The result is the response, the
    registry afterwards, and the thread started if any. *)
Definition start_download_handler (req : HttpRequest) (now_ms : Z)
    (now_iso : string) (thread_start : option string)
    (download_progress : gmap string Job)
    : Response * gmap string Job * option Task :=
  match get_json req with
  | inl message =>
      ({| status_code := 500; body := ErrorBody message None |},
       download_progress, None)
  | inr (JObject data) =>
      match default (JString "") (data !! "url") with
      | JOther _ py_type _ =>
          ({| status_code := 500;
              body := ErrorBody (attribute_error py_type "strip") None |},
           download_progress, None)
      | JString url =>
          let url := strip url in
          let quality := default (JString "best") (data !! "quality") in
          let format_type := default (JString "video") (data !! "format") in
          let '(is_valid, error_msg) := validate_url url in
          if negb is_valid then
            ({| status_code := 400;
                body := ErrorBody "Invalid URL" error_msg |},
             download_progress, None)
          else
            let '(is_valid, quality) := validate_quality_value quality in
            if negb is_valid then
              ({| status_code := 400;
                  body := ErrorBody "Invalid quality parameter" None |},
               download_progress, None)
            else
              let '(is_valid, format_type) :=
                validate_format_value format_type in
              if negb is_valid then
                ({| status_code := 400;
                    body := ErrorBody "Invalid format parameter" None |},
                 download_progress, None)
              else
                let download_id := make_download_id now_ms in
                let job :=
                  {| job_id := download_id; url := url; status := "queued";
                     progress := 0; quality := quality;
                     format := format_type; started_at := now_iso;
                     filename := None; downloaded := None; total := None;
                     speed := None; eta := None; error := None |} in
                let download_progress :=
                  <[download_id := job]> download_progress in
                match thread_start with
                | Some message =>
                    ({| status_code := 500;
                        body := ErrorBody message None |},
                     download_progress, None)
                | None =>
                    ({| status_code := 200;
                        body := StartedBody download_id "Download started" |},
                     download_progress,
                     Some {| task_url := url; task_download_id := download_id;
                             task_quality := quality;
                             task_format := format_type |})
                end
      end
  | inr data =>
      ({| status_code := 500;
          body := ErrorBody (attribute_error (body_type data) "get") None |},
       download_progress, None)
  end.



End Endpoints.

(** The size test of [check_request_size] lets the request through. *)
Definition size_admitted (max_size : Z) (req : HttpRequest) : bool :=
  match content_length req with
  | Some n => (n <=? max_size)%Z || (n =? 0)%Z
  | None => true
  end.

(** The request passes both validators of a view with the given
    [max_size] and [required_fields]. *)
Definition passes_validators (max_size : Z) (required_fields : list string)
    (req : HttpRequest) : bool :=
  size_admitted max_size req
  && is_json req
  && match get_json req with
     | inl _ => false
     | inr data =>
         match missing_fields data required_fields with
         | inr [] => true
         | _ => false
         end
     end.

(** [data[key] = value] for a value that is there. *)
Definition with_field (key : string) (value : option string)
    (data : gmap string JsonValue) : gmap string JsonValue :=
  match value with
  | Some v => <[key := JString v]> data
  | None => data
  end.

(** The request of a submission whose body is an object with string
    values. *)
Definition string_request (data : DownloadRequest) : HttpRequest :=
  {| content_length := None; is_json := true;
     get_json :=
       inr (JObject
              (<["url" := JString (req_url data)]>
                 (with_field "quality" (req_quality data)
                    (with_field "format" (req_format data) ∅)))) |}.

Section Submission.

Context `{L : Library}.

(** The record and the thread of an accepted submission of the URL
    [raw_url] at the clock readings [now_ms] and [now_iso]. *)
Definition registered_as (now_ms : Z) (now_iso raw_url : string) (job : Job)
    (t : Task) : Prop :=
  job_id job = make_download_id now_ms
  /\ url job = strip raw_url
  /\ validate_url (url job) = (true, None)
  /\ In (quality job) allowed_qualities
  /\ In (format job) allowed_formats
  /\ status job = "queued"
  /\ progress job = 0%Q
  /\ started_at job = now_iso
  /\ filename job = None /\ downloaded job = None
  /\ total job = None /\ error job = None
  /\ task_download_id t = job_id job
  /\ task_url t = url job
  /\ task_quality t = quality job
  /\ task_format t = format job.

End Submission.
(** * Properties *)

(** ** Text lemmas *)

Lemma prefix_lower (p s : string) :
  String.prefix p s = true -> String.prefix (lower p) (lower s) = true.
Proof.
  revert s. induction p as [|a p IH]; intros [|c s]; simpl; try done.
  destruct (ascii_dec a c) as [->|Hne]; [|done].
  intros H. destruct (ascii_dec (lower_char c) (lower_char c)); [|done].
  by apply IH.
Qed.

Lemma contains_lower (needle hay : string) :
  contains needle hay = true -> contains (lower needle) (lower hay) = true.
Proof.
  induction hay as [|c hay IH].
  - simpl. rewrite !orb_false_r. apply (prefix_lower needle "").
  - intros H. cbn [contains] in H. apply orb_true_iff in H as [H|H].
    + cbn [contains]. apply orb_true_iff. left.
      by apply (prefix_lower needle (String c hay)).
    + change (lower (String c hay)) with (String (lower_char c) (lower hay)).
      cbn [contains]. apply orb_true_iff. right. by apply IH.
Qed.

Lemma prefix_truthy (p s : string) :
  truthy p = true -> String.prefix p s = true -> truthy s = true.
Proof. by destruct p, s. Qed.

Lemma contains_truthy (needle hay : string) :
  truthy needle = true -> contains needle hay = true -> truthy hay = true.
Proof. by destruct needle, hay. Qed.

(** ** Rejection of internal hosts *)

Lemma internal_hostname_truthy (h : string) :
  internal_hostname h -> truthy h = true.
Proof.
  intros [Hin|[H|[H|[H|H]]]].
  - simpl in Hin. by repeat destruct Hin as [<-|Hin].
  - by apply (prefix_truthy "10.").
  - by apply (prefix_truthy "172.").
  - by apply (prefix_truthy "192.168.").
  - by apply (contains_truthy "169.254.169.254").
Qed.

Lemma internal_hostname_caught (h : string) :
  internal_hostname h ->
  is_local_host (lower h) || is_private_host (lower h)
  || is_metadata_host (lower h) = true.
Proof.
  intros [Hin|[H|[H|[H|H]]]].
  - simpl in Hin. by repeat destruct Hin as [<-|Hin].
  - apply (prefix_lower "10.") in H. unfold is_private_host, startswith.
    change (lower "10.") with "10." in H. rewrite H.
    by rewrite !orb_true_r.
  - apply (prefix_lower "172.") in H. unfold is_private_host, startswith.
    change (lower "172.") with "172." in H. rewrite H.
    by rewrite !orb_true_r.
  - apply (prefix_lower "192.168.") in H. unfold is_private_host, startswith.
    change (lower "192.168.") with "192.168." in H. rewrite H.
    by rewrite !orb_true_r.
  - apply (contains_lower "169.254.169.254") in H. unfold is_metadata_host.
    change (lower "169.254.169.254") with "169.254.169.254" in H. rewrite H.
    by rewrite !orb_true_r.
Qed.

(** Every result of [validate_url] that says invalid carries a message. *)
Lemma validate_url_invalid_has_message `{L : Library} (url : string) :
  fst (validate_url url) = false ->
  exists msg, validate_url url = (false, Some msg) /\ msg <> "".
Proof.
  unfold validate_url.
  repeat match goal with
         | |- context [if ?b then _ else _] => destruct b
         | |- context [match ?o with Some _ => _ | None => _ end] => destruct o
         end; simpl; intros; try discriminate; eauto.
Qed.

(** C1.  For every URL whose parsed hostname is localhost, 127.0.0.1,
    0.0.0.0 or ::1, or starts with 10., 172. or 192.168., or contains
    169.254.169.254, [validate_url] answers invalid with a non-empty
    message; the submission handler then answers 400, leaves the registry
    as it was and starts no download thread, so the URL never reaches the
    collaborator. *)
Theorem validate_url_rejects_internal_hosts `{L : Library}
    (u : string) (parsed : ParseResult) (h : string) :
  urlparse u = Some parsed ->
  hostname parsed = Some h ->
  internal_hostname h ->
  (exists msg, validate_url u = (false, Some msg) /\ msg <> "")
  /\ forall data now_ms now_iso reg,
       strip (req_url data) = u ->
       exists suggestion,
         start_download data now_ms now_iso reg
         = ({| status_code := 400;
               body := ErrorBody "Invalid URL" (Some suggestion) |},
            reg, None).
Proof.
  intros Hparse Hhost Hint.
  assert (Hinvalid : fst (validate_url u) = false).
  { unfold validate_url. rewrite Hparse, Hhost.
    rewrite (internal_hostname_truthy h Hint).
    pose proof (internal_hostname_caught h Hint) as Hc.
    repeat match goal with
           | |- context [if ?b then _ else _] => destruct b eqn:?
           end; simpl in *; try done. }
  destruct (validate_url_invalid_has_message u Hinvalid) as (msg & Hv & Hmsg).
  split; [by exists msg|].
  intros data now_ms now_iso reg Hu. exists msg.
  unfold start_download. by rewrite Hu, Hv.
Qed.

Lemma validate_url_rejects_internal_hosts_witness :
  (@urlparse reference_library "http://169.254.169.254/latest/meta-data"
   = Some {| scheme := "http"; hostname := Some "169.254.169.254" |}
   /\ internal_hostname "169.254.169.254")
  /\ ((exists msg,
         validate_url (L := reference_library)
           "http://169.254.169.254/latest/meta-data" = (false, Some msg)
         /\ msg <> "")
      /\ forall data now_ms now_iso reg,
           strip (req_url data) = "http://169.254.169.254/latest/meta-data" ->
           exists suggestion,
             start_download (L := reference_library) data now_ms now_iso reg
             = ({| status_code := 400;
                   body := ErrorBody "Invalid URL" (Some suggestion) |},
                reg, None)).
Proof.
  assert (Hp : @urlparse reference_library
                 "http://169.254.169.254/latest/meta-data"
               = Some {| scheme := "http";
                         hostname := Some "169.254.169.254" |})
    by (vm_compute; reflexivity).
  assert (Hi : internal_hostname "169.254.169.254")
    by (do 4 right; vm_compute; reflexivity).
  split; [by split|].
  exact (validate_url_rejects_internal_hosts (L := reference_library)
           "http://169.254.169.254/latest/meta-data"
           {| scheme := "http"; hostname := Some "169.254.169.254" |}
           "169.254.169.254" Hp eq_refl Hi).
Defined.

(** The validator on one URL for each host the claim names, and on a
    public one. *)
Lemma validate_url_examples :
  map (validate_url (L := reference_library))
      ["http://localhost/"; "http://127.0.0.1:8080/x"; "http://0.0.0.0/";
       "http://[::1]/"; "http://10.0.0.1/"; "https://172.16.0.1/a";
       "http://user@192.168.1.1:8/"; "http://169.254.169.254/latest";
       "HTTP://LocalHost/"; "ftp://example.com/v"; "https://example.com/v"]
  = [(false, Some "Local URLs are not allowed");
     (false, Some "Local URLs are not allowed");
     (false, Some "Local URLs are not allowed");
     (false, Some "Local URLs are not allowed");
     (false, Some "Private IP addresses are not allowed");
     (false, Some "Private IP addresses are not allowed");
     (false, Some "Private IP addresses are not allowed");
     (false, Some "Metadata endpoints are not allowed");
     (false, Some "Local URLs are not allowed");
     (false, Some "Only http, https URLs are allowed");
     (true, None)].
Proof. vm_compute. reflexivity. Qed.

(** ** Job identifiers *)

(** An accepted submission names its job after the clock reading alone. *)
Lemma start_download_issues_clock_id `{L : Library} data now_ms now_iso reg
    resp reg' task :
  start_download data now_ms now_iso reg = (resp, reg', Some task) ->
  task_download_id task = make_download_id now_ms
  /\ body resp = StartedBody (make_download_id now_ms) "Download started"
  /\ exists job,
       reg' = <[make_download_id now_ms := job]> reg
       /\ job_id job = make_download_id now_ms
       /\ status job = "queued".
Proof.
  unfold start_download.
  destruct (validate_url _) as [[] ?]; simpl; [|congruence].
  destruct (validate_quality _) as [[] ?]; simpl; [|congruence].
  destruct (validate_format _) as [[] ?]; simpl; [|congruence].
  intros [= <- <- <-]. simpl. eauto 10.
Qed.

(** Two accepted submissions that read the same clock value are given the
    same id, and the record of the second replaces that of the first. *)
Lemma submissions_in_one_millisecond_collide `{L : Library}
    (data1 data2 : DownloadRequest) (now_ms : Z) (iso1 iso2 : string)
    (reg reg1 reg2 : gmap string Job) (resp1 resp2 : Response)
    (task1 task2 : Task) :
  start_download data1 now_ms iso1 reg = (resp1, reg1, Some task1) ->
  start_download data2 now_ms iso2 reg1 = (resp2, reg2, Some task2) ->
  task_download_id task1 = task_download_id task2
  /\ body resp1 = body resp2
  /\ dom reg2 = dom reg1.
Proof.
  intros H1 H2.
  destruct (start_download_issues_clock_id _ _ _ _ _ _ _ H1)
    as (Hid1 & Hb1 & j1 & Hr1 & _).
  destruct (start_download_issues_clock_id _ _ _ _ _ _ _ H2)
    as (Hid2 & Hb2 & j2 & Hr2 & _).
  repeat split; [congruence|congruence|].
  rewrite Hr2, Hr1, insert_insert_eq. by rewrite !dom_insert_L.
Qed.

(** C2.  Two submissions whose handlers read the clock within the same
    millisecond are given the same job id: the second registration
    replaces the record of the first, and the registry holds one job
    where two were submitted.  The ids of two submissions are therefore
    not always distinct. *)
Theorem same_millisecond_submissions_share_an_id :
  let first :=
    start_download (L := reference_library)
      (request_for "https://example.com/a") 1700000000000
      "2023-11-14T22:13:20.000100" ∅ in
  let second :=
    start_download (L := reference_library)
      (request_for "https://example.com/b") 1700000000000
      "2023-11-14T22:13:20.000900" first.1.2 in
  body first.1.1 = StartedBody "download_1700000000000" "Download started"
  /\ body second.1.1 = StartedBody "download_1700000000000" "Download started"
  /\ (task_url <$> first.2) = Some "https://example.com/a"
  /\ (task_url <$> second.2) = Some "https://example.com/b"
  /\ (task_download_id <$> first.2) = (task_download_id <$> second.2)
  /\ (url <$> first.1.2 !! "download_1700000000000")
     = Some "https://example.com/a"
  /\ (url <$> second.1.2 !! "download_1700000000000")
     = Some "https://example.com/b"
  /\ size second.1.2 = 1%nat.
Proof. vm_compute. repeat split. Qed.

(** ** Format selection *)

(** C7.  The qualities best, 4k, 1080p and 720p configure a fallback chain
    for a video download, a combined video and audio selector first and
    [best] last.  The quality 480p, which [validate_quality] accepts and
    for which [Config.QUALITY_FORMATS] holds a chain, is missed by
    [download_video]: the submission is accepted and its thread started,
    and the format selector is left unset. *)
Theorem no_format_selector_for_480p :
  Forall (fun q =>
            exists chain,
              selector_chain (download_video_format_opts q "video")
              = Some chain /\ fallback_chain chain)
         ["best"; "4k"; "1080p"; "720p"]
  /\ validate_quality "480p" = (true, "480p")
  /\ (exists selector, In ("480p", (selector, "mp4")) QUALITY_FORMATS)
  /\ (start_download (L := reference_library)
        {| req_url := "https://example.com/v";
           req_quality := Some "480p"; req_format := Some "video" |}
        1700000000000 "2023-11-14T22:13:20" ∅).2
     = Some {| task_url := "https://example.com/v";
               task_download_id := "download_1700000000000";
               task_quality := "480p"; task_format := "video" |}
  /\ download_video_format_opts "480p" "video" = no_format_opts
  /\ selector_chain (download_video_format_opts "480p" "video") = None.
Proof.
  split.
  { repeat constructor.
    - exists ["bestvideo[ext=mp4]+bestaudio[ext=m4a]"; "bestvideo+bestaudio";
              "best[ext=mp4]"; "best"].
      split; [reflexivity|].
      by exists "bestvideo[ext=mp4]+bestaudio[ext=m4a]",
                ["bestvideo+bestaudio"; "best[ext=mp4]"].
    - exists ["bestvideo[height>=2160][ext=mp4]+bestaudio[ext=m4a]";
              "bestvideo[height>=2160]+bestaudio"; "best[height>=2160]";
              "bestvideo+bestaudio"; "best"].
      split; [reflexivity|].
      by exists "bestvideo[height>=2160][ext=mp4]+bestaudio[ext=m4a]",
                ["bestvideo[height>=2160]+bestaudio"; "best[height>=2160]";
                 "bestvideo+bestaudio"].
    - exists ["bestvideo[height<=1080][ext=mp4]+bestaudio[ext=m4a]";
              "bestvideo[height<=1080]+bestaudio"; "best[height<=1080]";
              "best"].
      split; [reflexivity|].
      by exists "bestvideo[height<=1080][ext=mp4]+bestaudio[ext=m4a]",
                ["bestvideo[height<=1080]+bestaudio"; "best[height<=1080]"].
    - exists ["bestvideo[height<=720][ext=mp4]+bestaudio[ext=m4a]";
              "bestvideo[height<=720]+bestaudio"; "best[height<=720]";
              "best"].
      split; [reflexivity|].
      by exists "bestvideo[height<=720][ext=mp4]+bestaudio[ext=m4a]",
                ["bestvideo[height<=720]+bestaudio"; "best[height<=720]"]. }
  split; [reflexivity|].
  split; [eexists; do 4 right; left; reflexivity|].
  split; [vm_compute; reflexivity|].
  split; reflexivity.
Qed.

(** ** Failure classification *)

(** The conditional chain of [download_video] is the ordered rule list with
    first match winning. *)
Lemma helpful_error_message_first_match (error_msg : string) :
  helpful_error_message error_msg
  = kind_text (classify_error error_msg) error_msg.
Proof.
  unfold helpful_error_message, classify_error, classification_rules.
  cbn [first_match].
  repeat match goal with
         | |- context [if ?b then _ else _] => destruct b
         end; reflexivity.
Qed.

(** C8.  The classification rules, in their order and with first match
    winning, send "DRM protection detected" to the DRM category and
    "HTTP Error 404: Not Found" to the not-found category; a message to
    which no rule applies is of the unknown category and is reported
    unchanged.  The text the handler stores is the text of that category. *)
Theorem failure_classification (message : string) :
  no_rule_applies message = true ->
  (classify_error "DRM protection detected" = DRM
   /\ helpful_error_message "DRM protection detected"
      = kind_text DRM "DRM protection detected")
  /\ (classify_error "HTTP Error 404: Not Found" = NotFound404
      /\ helpful_error_message "HTTP Error 404: Not Found"
         = kind_text NotFound404 "HTTP Error 404: Not Found")
  /\ (classify_error message = Unknown
      /\ helpful_error_message message = message)
  /\ forall download_id job reg,
       reg !! download_id = Some job ->
       run (download_video_except message download_id) reg !! download_id
       = Some (set_error message (set_status "error" job)).
Proof.
  intros Hnone.
  assert (Hk : classify_error message = Unknown).
  { unfold no_rule_applies, classification_rules in Hnone.
    cbn [forallb fst] in Hnone.
    repeat (apply andb_true_iff in Hnone as [?%negb_true_iff Hnone]).
    unfold classify_error, classification_rules. cbn [first_match].
    repeat match goal with
           | H : ?b = false |- context [if ?b then _ else _] => rewrite H
           end.
    reflexivity. }
  assert (Hm : helpful_error_message message = message).
  { by rewrite helpful_error_message_first_match, Hk. }
  repeat split; try (vm_compute; reflexivity); try done.
  intros download_id job reg Hjob.
  unfold download_video_except, run, bind, assign. rewrite Hjob. simpl.
  rewrite lookup_insert_eq. simpl. rewrite lookup_insert_eq.
  by rewrite Hm.
Qed.

Lemma failure_classification_witness :
  no_rule_applies "some never seen message" = true
  /\ classify_error "some never seen message" = Unknown
  /\ helpful_error_message "some never seen message"
     = "some never seen message".
Proof.
  split; [vm_compute; reflexivity|].
  exact (proj1 (proj2 (proj2
           (failure_classification "some never seen message" eq_refl)))).
Defined.

(** ** Callbacks on a registered job *)

Lemma assign_present (download_id : string) (setter : Job -> Job)
    (reg : gmap string Job) (j : Job) :
  reg !! download_id = Some j ->
  assign download_id setter reg = (<[download_id := setter j]> reg, inr tt).
Proof. intros H. unfold assign. by rewrite H. Qed.

Lemma assign_then {A} (download_id : string) (setter : Job -> Job)
    (k : Stmt A) (reg : gmap string Job) (j : Job) :
  reg !! download_id = Some j ->
  (assign download_id setter ;;; k) reg
  = k (<[download_id := setter j]> reg).
Proof. intros H. unfold bind. by rewrite (assign_present _ _ _ j H). Qed.

Lemma run_assign_then {A} (download_id : string) (setter : Job -> Job)
    (k : Stmt A) (reg : gmap string Job) (j : Job) :
  reg !! download_id = Some j ->
  run (assign download_id setter ;;; k) reg
  = run k (<[download_id := setter j]> reg).
Proof. intros H. unfold run. by rewrite (assign_then _ _ _ _ j H). Qed.

(** Runs the assignments of a callback on a job that is registered. *)
Ltac run_assigns :=
  repeat first
    [ erewrite assign_then by (first [eassumption | apply lookup_insert_eq])
    | erewrite assign_present by (first [eassumption | apply lookup_insert_eq]) ];
  rewrite ?insert_insert_eq; cbn [fst snd].

Lemma logger_error_effect (download_id msg : string) (reg : gmap string Job)
    (j : Job) :
  reg !! download_id = Some j ->
  DownloadLogger_error download_id msg reg
  = (<[download_id := set_error msg (set_status "error" j)]> reg, inr tt).
Proof. intros H. unfold DownloadLogger_error. by run_assigns. Qed.

Lemma hook_error_effect (d : HookEvent) (download_id : string)
    (reg : gmap string Job) (j : Job) :
  reg !! download_id = Some j ->
  d_status d = "error" ->
  progress_hook d download_id reg
  = (<[download_id :=
         set_error (default "Unknown error" (d_error d))
                   (set_status "error" j)]> reg, inr tt).
Proof.
  intros H Hs. unfold progress_hook. rewrite Hs. cbn [String.eqb Ascii.eqb].
  simpl. by run_assigns.
Qed.

Lemma hook_finished_effect (d : HookEvent) (download_id : string)
    (reg : gmap string Job) (j : Job) :
  reg !! download_id = Some j ->
  d_status d = "finished" ->
  progress_hook d download_id reg
  = (<[download_id :=
         set_filename (basename (default "Unknown" (d_filename d)))
           (set_progress 100 (set_status "processing" j))]> reg, inr tt).
Proof.
  intros H Hs. unfold progress_hook. rewrite Hs. simpl. by run_assigns.
Qed.

Lemma record_progress_effect (d : HookEvent) (download_id : string)
    (reg : gmap string Job) (j : Job) (x T : Q) :
  reg !! download_id = Some j ->
  event_downloaded d = Some x ->
  Qeq_bool T 0 = false ->
  record_progress d download_id (Some T) reg
  = (<[download_id :=
         set_eta (default (Some 0%Q) (d_eta d))
           (set_speed (default (Some 0%Q) (d_speed d))
              (set_total T
                 (set_downloaded x
                    (set_progress ((x / T) * 100)%Q j))))]> reg, inr tt).
Proof.
  intros H Hx HT. unfold record_progress.
  unfold event_downloaded in Hx. rewrite Hx, HT. by run_assigns.
Qed.

Lemma hook_downloading_effect (d : HookEvent) (download_id : string)
    (reg : gmap string Job) (j : Job) (x T : Q) :
  reg !! download_id = Some j ->
  d_status d = "downloading" ->
  event_total d = Some (Some T) ->
  event_downloaded d = Some x ->
  Qeq_bool T 0 = false ->
  progress_hook d download_id reg
  = (<[download_id := downloading_update d x T j]> reg, inr tt).
Proof.
  intros H Hs Ht Hx HT. unfold progress_hook. rewrite Hs. simpl.
  run_assigns. unfold event_total in Ht.
  destruct (d_total_bytes d) as [t|].
  - injection Ht as ->.
    erewrite record_progress_effect by (first [apply lookup_insert_eq | done]).
    by rewrite insert_insert_eq.
  - rewrite Ht.
    erewrite record_progress_effect by (first [apply lookup_insert_eq | done]).
    by rewrite insert_insert_eq.
Qed.

(** No statement of [record_progress] touches the state of a job. *)
Lemma record_progress_status (d : HookEvent) (download_id : string)
    (total : PyNum) (reg : gmap string Job) (j : Job) :
  reg !! download_id = Some j ->
  status_of download_id (run (record_progress d download_id total) reg)
  = Some (status j).
Proof.
  intros H. unfold record_progress, run, status_of.
  destruct (default _ _) as [x|], total as [T|]; simpl;
    try (by rewrite H).
  destruct (Qeq_bool T 0); simpl; [by rewrite H|].
  run_assigns. by rewrite lookup_insert_eq.
Qed.

(** Each kind of callback decides the state by itself, whatever the state
    was. *)
Lemma hook_downloading_status (d : HookEvent) (download_id : string)
    (reg : gmap string Job) (j : Job) :
  reg !! download_id = Some j ->
  d_status d = "downloading" ->
  status_of download_id (run (progress_hook d download_id) reg)
  = Some "downloading".
Proof.
  intros H Hs. unfold progress_hook. rewrite Hs. simpl.
  rewrite (run_assign_then _ _ _ _ _ H).
  rewrite (run_assign_then _ _ _ _ _ (lookup_insert_eq _ _ _)).
  rewrite insert_insert_eq.
  destruct (d_total_bytes d) as [t|]; [|destruct (d_total_bytes_estimate d)].
  - by rewrite (record_progress_status d download_id _ _ _
                  (lookup_insert_eq _ _ _)).
  - by rewrite (record_progress_status d download_id _ _ _
                  (lookup_insert_eq _ _ _)).
  - unfold run, ret, status_of. simpl. by rewrite lookup_insert_eq.
Qed.

Lemma error_event_status (cb : Callback) (download_id : string)
    (reg : gmap string Job) (j : Job) :
  reg !! download_id = Some j ->
  error_event cb ->
  status_of download_id (run (apply_callback download_id cb) reg)
  = Some "error".
Proof.
  intros H He. unfold run, status_of. destruct cb as [msg|d]; simpl.
  - rewrite (logger_error_effect _ _ _ j H). simpl.
    by rewrite lookup_insert_eq.
  - rewrite (hook_error_effect _ _ _ j H He). simpl.
    by rewrite lookup_insert_eq.
Qed.

(** ** Terminal states *)

(** C3, as stated, fails: a job whose state a logger error made [error]
    is put back to [downloading] by the next downloading event. *)
Lemma terminal_state_is_overwritten : ~ terminal_states_are_final.
Proof.
  intros Hfinal.
  pose (download_id := "download_1700000000000").
  pose (reg1 := run (apply_callback download_id
                       (LoggerError "ERROR: unable to download fragment"))
                    (one_job_registry download_id)).
  specialize (Hfinal download_id reg1
                [Hook (downloading_event 50 true 100)] "error").
  assert (H1 : status_of download_id reg1 = Some "error")
    by (vm_compute; reflexivity).
  assert (H2 : terminal "error") by (by right).
  assert (H3 : Forall known_event [Hook (downloading_event 50 true 100)])
    by (repeat constructor).
  specialize (Hfinal H1 H2 H3). vm_compute in Hfinal. discriminate.
Qed.

(** The other terminal state is no safer: a logger error after completion
    makes the state [error], and a finished event makes it [processing]. *)
Lemma completed_state_is_overwritten :
  let download_id := "download_1700000000000" in
  let reg : gmap string Job :=
    {[ download_id := set_status "completed" (queued_job download_id) ]} in
  status_of download_id reg = Some "completed"
  /\ status_of download_id
       (run_callbacks download_id [LoggerError "ERROR: postprocessing"] reg)
     = Some "error"
  /\ status_of download_id
       (run_callbacks download_id
          [Hook {| d_status := "finished"; d_filename := Some "/tmp/v.mp4";
                   d_total_bytes := None; d_total_bytes_estimate := None;
                   d_downloaded_bytes := None; d_speed := None;
                   d_eta := None; d_error := None |}] reg)
     = Some "processing".
Proof. vm_compute. repeat split. Qed.

Lemma error_events_keep_error (download_id : string) (cbs : list Callback) :
  Forall error_event cbs ->
  forall reg,
    status_of download_id reg = Some "error" ->
    status_of download_id (run_callbacks download_id cbs reg) = Some "error".
Proof.
  induction 1 as [|cb cbs Hcb _ IH]; intros reg Hreg; [done|].
  simpl. apply IH.
  unfold status_of in Hreg. destruct (reg !! download_id) as [j|] eqn:Hj;
    [|done].
  by apply (error_event_status cb download_id reg j).
Qed.

(** C3, amended.  Every callback decides the state by itself, whatever the
    state was: a logger error or an error event makes it [error], a
    downloading event [downloading], a finished event [processing].  So the
    state [error], once entered, persists under every sequence of logger
    errors and error events; it is not protected from a downloading or a
    finished event. *)
Theorem error_state_persists_under_error_events (download_id : string)
    (reg : gmap string Job) (j : Job) (cbs : list Callback) :
  reg !! download_id = Some j ->
  Forall error_event cbs ->
  (status j = "error" ->
   status_of download_id (run_callbacks download_id cbs reg) = Some "error")
  /\ (forall cb,
        error_event cb ->
        status_of download_id (run (apply_callback download_id cb) reg)
        = Some "error")
  /\ (forall d,
        d_status d = "downloading" ->
        status_of download_id (run (progress_hook d download_id) reg)
        = Some "downloading")
  /\ (forall d,
        d_status d = "finished" ->
        status_of download_id (run (progress_hook d download_id) reg)
        = Some "processing").
Proof.
  intros Hj Hcbs. repeat split.
  - intros Hs. apply error_events_keep_error; [done|].
    unfold status_of. by rewrite Hj, <- Hs.
  - intros cb Hcb. by apply (error_event_status cb download_id reg j).
  - intros d Hd. by apply (hook_downloading_status d download_id reg j).
  - intros d Hd. unfold run, status_of.
    rewrite (hook_finished_effect d download_id reg j Hj Hd). simpl.
    by rewrite lookup_insert_eq.
Qed.

Lemma error_state_persists_under_error_events_witness :
  let download_id := "download_1700000000000" in
  let j := set_status "error" (queued_job download_id) in
  let cbs := [LoggerError "ERROR: unable to download fragment";
              Hook (error_hook_event "HTTP Error 403: Forbidden");
              LoggerError "ERROR: giving up"] in
  ({[ download_id := j ]} : gmap string Job) !! download_id = Some j
  /\ Forall error_event cbs
  /\ status_of download_id
       (run_callbacks download_id cbs {[ download_id := j ]})
     = Some "error".
Proof.
  intros download_id j cbs.
  assert (Hj : ({[ download_id := j ]} : gmap string Job) !! download_id
               = Some j) by apply lookup_singleton_eq.
  assert (Hcbs : Forall error_event cbs) by (repeat constructor).
  split; [exact Hj|]. split; [exact Hcbs|].
  exact (proj1 (error_state_persists_under_error_events download_id
                  {[ download_id := j ]} j cbs Hj Hcbs) eq_refl).
Defined.

(** ** Progress along downloading events *)

(** C4, as stated, fails: with 50 bytes of a total of 100 reported first
    and the same 50 bytes of an estimated total of 200 reported next, the
    progress goes from 50 down to 25. *)
Lemma progress_decreases_when_total_grows : ~ progress_is_monotonic.
Proof.
  intros Hmono.
  pose (download_id := "download_1700000000000").
  pose (ds := [downloading_event 50 true 100; downloading_event 50 false 200]).
  assert (Hds : Forall2 downloading_with ds [50%Q; 50%Q])
    by (repeat constructor).
  assert (Hxs : non_decreasing [50%Q; 50%Q]).
  { intros [|[|i]] a b; simpl; intros [= <-] [= <-]. apply Qle_refl. }
  specialize (Hmono download_id (one_job_registry download_id)
                (queued_job download_id) ds [50%Q; 50%Q]
                (lookup_singleton_eq _ _) Hds Hxs O
                ((50 / 100) * 100)%Q ((50 / 200) * 100)%Q).
  assert (Hle : ((50 / 100) * 100 <= (50 / 200) * 100)%Q)
    by (apply Hmono; vm_compute; reflexivity).
  vm_compute in Hle. by apply Hle.
Qed.

Lemma progress_trace_same_total (download_id : string) (T : Q) :
  ~ (T == 0)%Q ->
  forall ds xs,
    Forall2 downloading_with ds xs ->
    Forall (carries_total T) ds ->
    forall reg j,
      reg !! download_id = Some j ->
      Forall2 (fun p x => (p == (x / T) * 100)%Q)
              (progress_trace download_id ds reg) xs.
Proof.
  intros HT ds xs Hds. induction Hds as [|d x ds xs [Hs Hx] _ IH];
    intros Htot reg j Hj; [constructor|].
  apply Forall_cons in Htot as [(T' & Ht & HTT') Htot].
  assert (HT' : Qeq_bool T' 0 = false).
  { apply not_true_is_false. intros Hz%Qeq_bool_iff.
    apply HT. by rewrite <- HTT'. }
  cbn [progress_trace]. unfold run.
  rewrite (hook_downloading_effect d download_id reg j x T' Hj Hs Ht Hx HT').
  cbn [fst]. rewrite lookup_insert_eq. constructor.
  - simpl. by rewrite HTT'.
  - by apply (IH Htot _ (downloading_update d x T' j)), lookup_insert_eq.
Qed.

(** C4, amended.  For every sequence of downloading events that carry the
    same positive total, under either key, and whose downloaded byte counts
    do not decrease, the progress value of the record does not decrease
    from one event to the next. *)
Theorem progress_monotonic_for_a_fixed_total (download_id : string)
    (reg : gmap string Job) (j : Job) (ds : list HookEvent) (xs : list Q)
    (T : Q) :
  reg !! download_id = Some j ->
  Forall2 downloading_with ds xs ->
  Forall (carries_total T) ds ->
  (0 < T)%Q ->
  non_decreasing xs ->
  non_decreasing (progress_trace download_id ds reg).
Proof.
  intros Hj Hds Htot HT Hxs i a b Ha Hb.
  assert (HT0 : ~ (T == 0)%Q).
  { intros Hz. rewrite Hz in HT. by apply Qlt_irrefl in HT. }
  pose proof (progress_trace_same_total download_id T HT0 ds xs Hds Htot
                reg j Hj) as Htrace.
  destruct (Forall2_lookup_l _ _ _ _ _ Htrace Ha) as (x & Hx & Hax).
  destruct (Forall2_lookup_l _ _ _ _ _ Htrace Hb) as (y & Hy & Hby).
  rewrite Hax, Hby.
  apply Qmult_le_compat_r; [|done].
  apply Qmult_le_compat_r; [by apply (Hxs i)|].
  by apply Qinv_le_0_compat, Qlt_le_weak.
Qed.

Lemma progress_monotonic_for_a_fixed_total_witness :
  let download_id := "download_1700000000000" in
  let ds := [downloading_event 10 true 100; downloading_event 60 false 100;
             downloading_event 100 true 100] in
  non_decreasing [10%Q; 60%Q; 100%Q]
  /\ non_decreasing
       (progress_trace download_id ds (one_job_registry download_id)).
Proof.
  intros download_id ds.
  assert (Hxs : non_decreasing [10%Q; 60%Q; 100%Q]).
  { intros [|[|[|i]]] a b; simpl; intros [= <-] [= <-]; by vm_compute. }
  split; [exact Hxs|].
  apply (progress_monotonic_for_a_fixed_total download_id
           (one_job_registry download_id) (queued_job download_id) ds
           [10%Q; 60%Q; 100%Q] 100%Q).
  - apply lookup_singleton_eq.
  - repeat constructor.
  - repeat constructor; by exists 100%Q.
  - reflexivity.
  - exact Hxs.
Defined.

(** ** Byte counters *)

(** C5, as stated, fails: an event reporting 150 bytes downloaded of an
    estimated total of 100 leaves [downloaded = 150], [total = 100] and a
    progress of 150 in the record. *)
Lemma byte_counters_exceed_total : ~ byte_counters_are_bounded.
Proof.
  intros Hbound.
  pose (download_id := "download_1700000000000").
  destruct (Hbound download_id (one_job_registry download_id)
              (queued_job download_id) (downloading_event 150 false 100)
              (downloading_update (downloading_event 150 false 100) 150 100
                 (queued_job download_id))
              150%Q 100%Q) as [Hle _];
    try (vm_compute; reflexivity).
  vm_compute in Hle. by apply Hle.
Qed.

(** C5, amended.  A downloading event with numeric byte counts and a
    non-zero total leaves its own [downloaded_bytes] and total in the
    record, unchecked: the two counters of the record are the two numbers
    of the event, so that they are in order exactly when those of the
    event are.  For a positive total the progress lies on the side of 100
    on which the downloaded count lies of the total: it is at most 100
    when the count is at most the total and at least 100 when the count is
    at least the total, and it is not negative when the count is not.
    (These bounds do not depend on the quotient being exact: rounding a
    quotient, and then its product with 100, to the nearest floating-point
    number keeps the order and cannot pass 0, 1 and 100, which are such
    numbers.) *)
Theorem byte_counters_copied_from_event (download_id : string)
    (reg : gmap string Job) (j : Job) (d : HookEvent) (x T : Q) :
  reg !! download_id = Some j ->
  d_status d = "downloading" ->
  event_total d = Some (Some T) ->
  event_downloaded d = Some x ->
  ~ (T == 0)%Q ->
  exists j',
    run (progress_hook d download_id) reg !! download_id = Some j'
    /\ raised (progress_hook d download_id) reg = None
    /\ downloaded j' = Some x
    /\ total j' = Some T
    /\ ((x <= T)%Q <->
        exists x' T',
          downloaded j' = Some x' /\ total j' = Some T' /\ (x' <= T')%Q)
    /\ ((0 < T)%Q -> (x <= T)%Q -> (progress j' <= 100)%Q)
    /\ ((0 < T)%Q -> (T <= x)%Q -> (100 <= progress j')%Q)
    /\ ((0 < T)%Q -> (0 <= x)%Q -> (0 <= progress j')%Q).
Proof.
  intros Hj Hs Ht Hx HT.
  assert (HT' : Qeq_bool T 0 = false).
  { apply not_true_is_false. by intros Hz%Qeq_bool_iff. }
  exists (downloading_update d x T j). unfold run, raised.
  rewrite (hook_downloading_effect d download_id reg j x T Hj Hs Ht Hx HT').
  cbn [fst snd]. rewrite lookup_insert_eq.
  split; [done|]. split; [done|]. split; [done|]. split; [done|].
  split.
  { split.
    - intros Hle. by exists x, T.
    - intros (x' & T' & [= <-] & [= <-] & Hle). exact Hle. }
  split; [|split].
  - intros Hpos Hle. simpl.
    apply (Qle_trans _ (1 * 100)%Q); [|by vm_compute].
    apply Qmult_le_compat_r; [|done].
    apply Qle_shift_div_r; [done|]. by rewrite Qmult_1_l.
  - intros Hpos Hle. simpl.
    apply (Qle_trans _ (1 * 100)%Q); [by vm_compute|].
    apply Qmult_le_compat_r; [|done].
    apply Qle_shift_div_l; [done|]. by rewrite Qmult_1_l.
  - intros Hpos Hle. simpl.
    apply Qmult_le_0_compat; [|done].
    apply Qle_shift_div_l; [done|]. by rewrite Qmult_0_l.
Qed.

Lemma byte_counters_copied_from_event_witness :
  let download_id := "download_1700000000000" in
  exists j',
    run (progress_hook (downloading_event 50 true 100) download_id)
        (one_job_registry download_id) !! download_id = Some j'
    /\ raised (progress_hook (downloading_event 50 true 100) download_id)
              (one_job_registry download_id) = None
    /\ downloaded j' = Some 50%Q
    /\ total j' = Some 100%Q
    /\ (progress j' <= 100)%Q.
Proof.
  intros download_id.
  destruct (byte_counters_copied_from_event download_id
              (one_job_registry download_id) (queued_job download_id)
              (downloading_event 50 true 100) 50%Q 100%Q)
    as (j' & Hj' & Hraised & Hx & HT & _ & Hbound & _).
  - apply lookup_singleton_eq.
  - reflexivity.
  - reflexivity.
  - reflexivity.
  - by vm_compute.
  - exists j'. split; [exact Hj'|]. split; [exact Hraised|].
    split; [exact Hx|]. split; [exact HT|].
    apply Hbound; by vm_compute.
Defined.

(** ** Sanitization of identifiers *)

Lemma all_chars_cons (p : ascii -> bool) (c : ascii) (s : string) :
  all_chars p (String c s) = p c && all_chars p s.
Proof. reflexivity. Qed.

Lemma all_chars_app (p : ascii -> bool) (a b : string) :
  all_chars p (a ++ b) = all_chars p a && all_chars p b.
Proof.
  induction a as [|c a IH]; [done|].
  change (String c a ++ b) with (String c (a ++ b)).
  by rewrite !all_chars_cons, IH, andb_assoc.
Qed.

Lemma all_chars_impl (p q : ascii -> bool) (s : string) :
  (forall c, p c = true -> q c = true) ->
  all_chars p s = true -> all_chars q s = true.
Proof.
  intros Hpq. induction s as [|c s IH]; [done|].
  rewrite !all_chars_cons, !andb_true_iff. intros [Hc Hs]. auto.
Qed.

Lemma take_all (n : nat) (s : string) :
  String.length s <= n -> take n s = s.
Proof.
  revert n. induction s as [|c s IH]; intros [|n]; simpl; try done; [lia|].
  intros H. f_equal. apply IH. lia.
Qed.

Lemma remove_char_absent (k : ascii) (s : string) :
  all_chars (fun c => negb (Ascii.eqb c k)) s = true -> remove_char k s = s.
Proof.
  induction s as [|c s IH]; [done|].
  rewrite all_chars_cons, andb_true_iff. intros [Hc Hs]. simpl.
  apply negb_true_iff in Hc. rewrite Hc. f_equal. by apply IH.
Qed.

Lemma rstrip_no_space (s : string) :
  all_chars (fun c => negb (isspace c)) s = true -> rstrip s = s.
Proof.
  induction s as [|c s IH]; [done|].
  rewrite all_chars_cons, andb_true_iff. intros [Hc Hs]. simpl.
  rewrite (IH Hs). apply negb_true_iff in Hc. rewrite Hc. by destruct s.
Qed.

Lemma strip_no_space (s : string) :
  all_chars (fun c => negb (isspace c)) s = true -> strip s = s.
Proof.
  intros H. unfold strip.
  assert (Hl : lstrip s = s).
  { destruct s as [|c s]; [done|]. simpl.
    rewrite all_chars_cons, andb_true_iff in H. destruct H as [Hc _].
    apply negb_true_iff in Hc. by rewrite Hc. }
  rewrite Hl. by apply rstrip_no_space.
Qed.

Lemma id_char_not_space (c : ascii) :
  id_char c = true -> negb (isspace c) = true.
Proof. by destruct c as [[] [] [] [] [] [] [] []]. Qed.

Lemma id_char_not_nul (c : ascii) :
  id_char c = true -> negb (Ascii.eqb c zero) = true.
Proof. by destruct c as [[] [] [] [] [] [] [] []]. Qed.

(** Sanitization leaves an identifier that fits the length bound as it is. *)
Lemma sanitize_identifier `{L : Library} (s : string) (max_length : nat) :
  cleaner_keeps_identifiers L ->
  all_chars id_char s = true ->
  String.length s <= max_length ->
  sanitize_string s max_length = s.
Proof.
  intros Hclean Hs Hlen. unfold sanitize_string.
  destruct s as [|c s]; [done|]. cbn [truthy negb].
  rewrite (take_all _ _ Hlen), (Hclean _ Hs).
  rewrite remove_char_absent
    by exact (all_chars_impl _ _ _ id_char_not_nul Hs).
  apply strip_no_space. exact (all_chars_impl _ _ _ id_char_not_space Hs).
Qed.

Lemma markup_clean_identifier (text : string) :
  all_chars id_char text = true ->
  Markup.clean_from false text = text.
Proof.
  induction text as [|c s IH]; [done|].
  rewrite all_chars_cons, andb_true_iff. intros [Hc Hs].
  cbn [Markup.clean_from].
  assert (Hlt : Ascii.eqb c "<" = false)
    by (by destruct c as [[] [] [] [] [] [] [] []]).
  assert (Hgt : Ascii.eqb c ">" = false)
    by (by destruct c as [[] [] [] [] [] [] [] []]).
  assert (Hamp : Ascii.eqb c "&" = false)
    by (by destruct c as [[] [] [] [] [] [] [] []]).
  rewrite Hlt, Hgt, Hamp. f_equal. by apply IH.
Qed.

Lemma reference_library_keeps_identifiers :
  cleaner_keeps_identifiers reference_library.
Proof. intros s Hs. by apply markup_clean_identifier. Qed.

(** C6, as stated, fails: an id of fifty-one characters does not match
    the pattern, yet its first fifty do, so the endpoint looks it up and
    answers 404 on the empty registry. *)
Lemma overlong_id_is_looked_up : ~ unmatched_ids_are_rejected.
Proof.
  intros Hrej.
  specialize (Hrej reference_library reference_library_keeps_identifiers
                overlong_id ∅ eq_refl).
  vm_compute in Hrej. discriminate.
Qed.

(** The endpoint also answers for an id that is padded with white space:
    the job registered under the trimmed id is returned. *)
Lemma padded_id_is_looked_up :
  match_download_id " download_1700000000000 " = false
  /\ get_progress (L := reference_library) " download_1700000000000 "
       (one_job_registry "download_1700000000000")
     = {| status_code := 200;
          body := JobBody (queued_job "download_1700000000000") |}.
Proof. split; vm_compute; reflexivity. Qed.

(** C6, amended.  The shape check bears on the sanitized id: the id cut to
    fifty characters, cleaned of markup and NUL and trimmed.  When that
    does not match the pattern the endpoint answers 400 whatever the
    registry holds; when it matches, the endpoint looks the sanitized id
    up.  In particular an id of at most fifty identifier characters that
    does not match is answered with 400. *)
Theorem get_progress_checks_sanitized_id `{L : Library}
    (download_id : string) (reg : gmap string Job) :
  (match_download_id (sanitize_string download_id 50) = false ->
   get_progress download_id reg = invalid_id_response)
  /\ (match_download_id (sanitize_string download_id 50) = true ->
      get_progress download_id reg
      = lookup_response (sanitize_string download_id 50) reg)
  /\ (cleaner_keeps_identifiers L ->
      all_chars id_char download_id = true ->
      String.length download_id <= 50 ->
      match_download_id download_id = false ->
      get_progress download_id reg = invalid_id_response).
Proof.
  assert (H1 : match_download_id (sanitize_string download_id 50) = false ->
               get_progress download_id reg = invalid_id_response).
  { intros H. unfold get_progress. by rewrite H. }
  split; [exact H1|]. split.
  - intros H. unfold get_progress, lookup_response. by rewrite H.
  - intros Hclean Hid Hlen Hno. apply H1.
    by rewrite (sanitize_identifier _ _ Hclean Hid Hlen).
Qed.

Lemma get_progress_checks_sanitized_id_witness :
  match_download_id
    (sanitize_string (L := reference_library) "download_17abc" 50) = false
  /\ get_progress (L := reference_library) "download_17abc"
       (one_job_registry "download_1700000000000")
     = invalid_id_response.
Proof.
  split; [vm_compute; reflexivity|].
  exact (proj1 (get_progress_checks_sanitized_id (L := reference_library)
                  "download_17abc"
                  (one_job_registry "download_1700000000000")) eq_refl).
Defined.

(** ** Decimal numerals *)

Lemma string_of_uint_length (d : Decimal.uint) :
  String.length (NilEmpty.string_of_uint d) = Decimal.nb_digits d.
Proof. induction d; simpl; congruence. Qed.

Lemma of_uint_acc_lower (d : Decimal.uint) (acc : positive) :
  (10 ^ N.of_nat (Decimal.nb_digits d) * Npos acc
   <= Npos (Pos.of_uint_acc d acc))%N.
Proof.
  revert acc.
  induction d as [|d IH|d IH|d IH|d IH|d IH|d IH|d IH|d IH|d IH|d IH];
    intros acc;
    [simpl; lia|..];
    cbn [Decimal.nb_digits Pos.of_uint_acc];
    rewrite Nat2N.inj_succ, N.pow_succ_r';
    (etransitivity; [|apply IH]);
    generalize (10 ^ N.of_nat (Decimal.nb_digits d))%N; intros X; nia.
Qed.

Lemma of_uint_lower (d : Decimal.uint) :
  Decimal.nzhead d <> Decimal.Nil ->
  (10 ^ N.of_nat (Decimal.nb_digits (Decimal.nzhead d) - 1)
   <= Pos.of_uint d)%N.
Proof.
  induction d as [|d IH|d IH|d IH|d IH|d IH|d IH|d IH|d IH|d IH|d IH];
    intros Hnz; [done|by apply IH|..];
    cbn [Decimal.nzhead Decimal.nb_digits Pos.of_uint];
    rewrite Nat.sub_succ, Nat.sub_0_r;
    (etransitivity; [|apply of_uint_acc_lower]); lia.
Qed.

Lemma to_uint_nzhead (p : positive) :
  Decimal.nzhead (Pos.to_uint p) = Pos.to_uint p
  /\ Pos.to_uint p <> Decimal.Nil.
Proof.
  pose proof (Unsigned.to_of (Pos.to_uint p)) as H.
  rewrite Unsigned.of_to in H. simpl in H.
  pose proof (Unsigned.to_uint_nonzero p) as Hz.
  pose proof (Unsigned.to_uint_nonnil p) as Hn.
  split; [|done].
  unfold Decimal.unorm in H.
  by destruct (Decimal.nzhead (Pos.to_uint p)).
Qed.

Lemma pos_digits_bound (p : positive) (k : nat) :
  (Npos p < 10 ^ N.of_nat k)%N ->
  Decimal.nb_digits (Pos.to_uint p) <= k.
Proof.
  intros Hlt. destruct (to_uint_nzhead p) as [Hnz Hnil].
  pose proof (of_uint_lower (Pos.to_uint p)) as Hlow.
  rewrite Hnz, Unsigned.of_to in Hlow. specialize (Hlow Hnil).
  assert (Hpow : (10 ^ N.of_nat (Decimal.nb_digits (Pos.to_uint p) - 1)
                  < 10 ^ N.of_nat k)%N) by lia.
  apply N.pow_lt_mono_r_iff in Hpow; lia.
Qed.

Lemma string_of_uint_digits (d : Decimal.uint) :
  all_chars isdigit (NilEmpty.string_of_uint d) = true.
Proof. induction d; simpl; try done; by rewrite all_chars_cons, IHd. Qed.

(** [str(n)] of a natural number: digits, at least one, and no more than
    the magnitude allows. *)
Lemma str_of_int_digits (n : Z) (k : nat) :
  (0 <= n < 10 ^ Z.of_nat k)%Z ->
  all_chars isdigit (str_of_int n) = true
  /\ truthy (str_of_int n) = true
  /\ String.length (str_of_int n) <= Nat.max 1 k.
Proof.
  intros [Hn Hk]. unfold str_of_int.
  destruct n as [|p|p]; [repeat split; simpl; lia| |lia].
  cbn [Z.to_int NilZero.string_of_int NilZero.string_of_uint].
  destruct (to_uint_nzhead p) as [_ Hnil].
  assert (Hs : NilZero.string_of_uint (Pos.to_uint p)
               = NilEmpty.string_of_uint (Pos.to_uint p))
    by (by destruct (Pos.to_uint p)).
  rewrite Hs. split; [apply string_of_uint_digits|]. split.
  - by destruct (Pos.to_uint p).
  - rewrite string_of_uint_length.
    etransitivity; [apply (pos_digits_bound p k)|lia].
    apply N2Z.inj_lt. rewrite N2Z.inj_pow, nat_N_Z. exact Hk.
Qed.

(** ** Issued identifiers *)

Lemma digits_to_end_digits (s : string) :
  all_chars isdigit s = true -> digits_to_end s = true.
Proof.
  induction s as [|c s IH]; [done|].
  rewrite all_chars_cons, andb_true_iff. intros [Hc Hs].
  simpl. rewrite Hc. by apply IH.
Qed.

Lemma isdigit_id_char (c : ascii) : isdigit c = true -> id_char c = true.
Proof. unfold id_char, isdigit. by intros ->. Qed.

Lemma make_download_id_shape (now_ms : Z) :
  (0 <= now_ms < 10 ^ 41)%Z ->
  (exists digits,
     make_download_id now_ms = "download_" ++ digits
     /\ truthy digits = true
     /\ all_chars isdigit digits = true)
  /\ match_download_id (make_download_id now_ms) = true
  /\ all_chars id_char (make_download_id now_ms) = true
  /\ String.length (make_download_id now_ms) <= 50.
Proof.
  intros Hms.
  destruct (str_of_int_digits now_ms 41 Hms) as (Hd & Ht & Hl).
  unfold make_download_id. split; [eauto|]. split; [|split].
  - unfold match_download_id.
    change (after_prefix "download_" ("download_" ++ str_of_int now_ms))
      with (Some (str_of_int now_ms)).
    destruct (str_of_int now_ms) as [|c t]; [done|].
    rewrite all_chars_cons, andb_true_iff in Hd. destruct Hd as [Hc Hd].
    by rewrite Hc, (digits_to_end_digits t Hd).
  - rewrite all_chars_app. apply andb_true_iff. split; [done|].
    exact (all_chars_impl _ _ _ isdigit_id_char Hd).
  - change (String.length ("download_" ++ str_of_int now_ms))
      with (9 + String.length (str_of_int now_ms)).
    simpl in Hl. lia.
Qed.

(** C10.  Every id the submission handler issues is [download_] followed
    by digits; the sanitization of the progress endpoint leaves it as it
    is, it passes the shape check, and it is looked up under the very
    string that was issued, so the job just registered is found.  (The
    clock reading is a natural number below 10^41 milliseconds, and the
    cleaner leaves identifiers alone.) *)
Theorem issued_id_round_trips `{L : Library} (data : DownloadRequest)
    (now_ms : Z) (now_iso : string) (reg reg' : gmap string Job)
    (resp : Response) (task : Task) :
  cleaner_keeps_identifiers L ->
  (0 <= now_ms < 10 ^ 41)%Z ->
  start_download data now_ms now_iso reg = (resp, reg', Some task) ->
  body resp = StartedBody (task_download_id task) "Download started"
  /\ (exists digits,
        task_download_id task = "download_" ++ digits
        /\ truthy digits = true
        /\ all_chars isdigit digits = true)
  /\ sanitize_string (task_download_id task) 50 = task_download_id task
  /\ match_download_id (task_download_id task) = true
  /\ (forall registry,
        get_progress (task_download_id task) registry
        = lookup_response (task_download_id task) registry)
  /\ exists job,
       get_progress (task_download_id task) reg'
       = {| status_code := 200; body := JobBody job |}
       /\ job_id job = task_download_id task
       /\ status job = "queued".
Proof.
  intros Hclean Hms Hstart.
  destruct (start_download_issues_clock_id _ _ _ _ _ _ _ Hstart)
    as (Hid & Hbody & job & Hreg & Hjid & Hst).
  destruct (make_download_id_shape now_ms Hms) as (Hshape & Hm & Hc & Hl).
  rewrite Hid.
  pose proof (sanitize_identifier _ 50 Hclean Hc Hl) as Hsan.
  assert (Hget : forall registry,
             get_progress (make_download_id now_ms) registry
             = lookup_response (make_download_id now_ms) registry).
  { intros registry. unfold get_progress, lookup_response.
    by rewrite Hsan, Hm. }
  repeat split; try done.
  exists job. rewrite Hget, Hreg. unfold lookup_response.
  by rewrite lookup_insert_eq.
Qed.

Lemma issued_id_round_trips_witness :
  let started :=
    start_download (L := reference_library)
      (request_for "https://example.com/v") 1700000000000
      "2023-11-14T22:13:20" ∅ in
  (0 <= 1700000000000 < 10 ^ 41)%Z
  /\ (task_download_id <$> started.2) = Some "download_1700000000000"
  /\ forall task,
       started.2 = Some task ->
       sanitize_string (L := reference_library) (task_download_id task) 50
       = task_download_id task
       /\ match_download_id (task_download_id task) = true.
Proof.
  intros started.
  assert (Hms : (0 <= 1700000000000 < 10 ^ 41)%Z) by (by vm_compute).
  split; [exact Hms|]. split; [vm_compute; reflexivity|].
  intros task Htask.
  assert (Hstart : started = (started.1.1, started.1.2, Some task)).
  { rewrite <- Htask. by rewrite <- !surjective_pairing. }
  pose proof (issued_id_round_trips (L := reference_library) _ _ _ _ _ _ _
                reference_library_keeps_identifiers Hms Hstart) as H.
  split; [exact (proj1 (proj2 (proj2 H)))
         |exact (proj1 (proj2 (proj2 (proj2 H))))].
Defined.

(** ** The retention sweeper *)

Lemma cleanup_file_lookup (current_time : Q) (st : Sweep)
    (filename k : string) :
  folder (cleanup_file current_time st filename) !! k
  = if decide (k = filename)
    then match folder st !! k with
         | Some entry => if swept current_time entry then None else Some entry
         | None => None
         end
    else folder st !! k.
Proof.
  unfold cleanup_file, swept. destruct (decide (k = filename)) as [->|Hne].
  - destruct (folder st !! filename) as [entry|] eqn:He; [|by rewrite He].
    destruct (is_file entry); simpl; [|by rewrite He].
    destruct (Qle_bool _ _); simpl; [by rewrite He|].
    destruct (removable entry); simpl; [|by rewrite He].
    apply lookup_delete_eq.
  - destruct (folder st !! filename) as [entry|]; [|done].
    destruct (is_file entry); [|done].
    destruct (Qle_bool _ _); simpl; [done|].
    destruct (removable entry); simpl; [|done].
    by apply lookup_delete_ne.
Qed.

Lemma cleanup_loop_lookup (current_time : Q) (names : list string) :
  NoDup names ->
  forall (st : Sweep) (k : string),
    folder (foldl (cleanup_file current_time) st names) !! k
    = if decide (k ∈ names)
      then match folder st !! k with
           | Some entry =>
               if swept current_time entry then None else Some entry
           | None => None
           end
      else folder st !! k.
Proof.
  induction 1 as [|n names Hn _ IH]; intros st k; simpl.
  - by destruct (decide (k ∈ [])) as [?%elem_of_nil|].
  - rewrite IH, !cleanup_file_lookup.
    destruct (decide (k = n)) as [->|Hne].
    + destruct (decide (n ∈ names)); [done|].
      by destruct (decide (n ∈ n :: names)) as [|[]%not_elem_of_cons].
    + destruct (decide (k ∈ names)) as [Hin|Hnin].
      * by destruct (decide (k ∈ n :: names)) as [|[]%not_elem_of_cons].
      * by destruct (decide (k ∈ n :: names))
          as [[]%elem_of_cons|].
Qed.

(** The folder after a tick: the entries the sweeper removes are gone,
    every other entry is as it was. *)
Lemma cleanup_old_downloads_lookup (current_time : Q)
    (fs : gmap string FileEntry) (k : string) :
  (cleanup_old_downloads current_time fs).1 !! k
  = match fs !! k with
    | Some entry => if swept current_time entry then None else Some entry
    | None => None
    end.
Proof.
  unfold cleanup_old_downloads. cbn [fst].
  rewrite cleanup_loop_lookup by apply NoDup_fst_map_to_list.
  cbn [folder]. destruct (decide (k ∈ listdir fs)) as [Hin|Hnin]; [done|].
  destruct (fs !! k) as [entry|] eqn:He; [|done].
  exfalso. apply Hnin. unfold listdir.
  apply list_elem_of_fmap. exists (k, entry).
  split; [done|]. by apply elem_of_map_to_list.
Qed.

(** C9.  On a tick of the sweeper, whatever the other entries of the
    folder are: a regular file whose age exceeds thirty seconds is removed
    when its removal succeeds; a regular file whose age is at most thirty
    seconds is kept; and a file whose removal fails is kept while every
    other file is still treated by its own age, so that the failure stops
    nothing. *)
Theorem sweeper_removes_old_files (current_time : Q)
    (fs : gmap string FileEntry) (filename : string) (entry : FileEntry) :
  fs !! filename = Some entry ->
  is_file entry = true ->
  let fs' := (cleanup_old_downloads current_time fs).1 in
  ((30 < current_time - mtime entry)%Q ->
   removable entry = true -> fs' !! filename = None)
  /\ ((current_time - mtime entry <= 30)%Q -> fs' !! filename = Some entry)
  /\ ((30 < current_time - mtime entry)%Q ->
      removable entry = false ->
      fs' !! filename = Some entry
      /\ forall other entry',
           other <> filename ->
           fs !! other = Some entry' ->
           fs' !! other
           = if swept current_time entry' then None else Some entry').
Proof.
  intros He Hfile fs'. unfold fs'.
  rewrite cleanup_old_downloads_lookup, He. unfold swept. rewrite Hfile.
  split; [|split].
  - intros Hold ->. apply Qlt_not_le in Hold.
    destruct (Qle_bool _ _) eqn:Hb; [|done].
    by apply Qle_bool_iff in Hb.
  - intros Hyoung. apply Qle_bool_iff in Hyoung. by rewrite Hyoung.
  - intros _ ->. split; [by rewrite andb_false_r|].
    intros other entry' _ Ho. by rewrite cleanup_old_downloads_lookup, Ho.
Qed.

Lemma sweeper_removes_old_files_witness :
  let fs' := (cleanup_old_downloads 200 example_folder).1 in
  fs' !! "old.mp4" = None
  /\ fs' !! "locked.mp4"
     = Some {| is_file := true; mtime := 100; removable := false |}
  /\ fs' !! "new.mp4"
     = Some {| is_file := true; mtime := 190; removable := true |}.
Proof.
  intros fs'. split; [|split].
  - apply (proj1 (sweeper_removes_old_files 200 example_folder "old.mp4"
                    {| is_file := true; mtime := 100; removable := true |}
                    eq_refl eq_refl)); reflexivity.
  - apply (proj2 (proj2 (sweeper_removes_old_files 200 example_folder
                           "locked.mp4"
                           {| is_file := true; mtime := 100;
                              removable := false |}
                           eq_refl eq_refl))); reflexivity.
  - apply (proj1 (proj2 (sweeper_removes_old_files 200 example_folder
                           "new.mp4"
                           {| is_file := true; mtime := 190;
                              removable := true |}
                           eq_refl eq_refl))).
    by vm_compute.
Defined.

(** The lines a tick prints on the example folder, whatever the order in
    which the folder is listed. *)
Lemma sweeper_log_example :
  let log := (cleanup_old_downloads 200 example_folder).2 in
  In (CleanedUp "old.mp4") log
  /\ In (FailedToDelete "locked.mp4") log
  /\ List.last log (CleanupComplete 0) = CleanupComplete 1.
Proof. vm_compute. tauto. Qed.

(** * Further properties of the validator *)

Lemma mem_In (x : string) (l : list string) : mem x l = true -> In x l.
Proof.
  unfold mem. intros (y & Hy & Heq)%existsb_exists.
  apply String.eqb_eq in Heq. by subst.
Qed.

(** X1.  [validate_quality] and [validate_format] always answer with a
    member of their closed list, with the default ([best], [video]) when
    they answer invalid; and what they answer is a fixed point: validating
    it again accepts it unchanged. *)
Theorem validated_values_are_normal (raw : string) :
  (In (validate_quality raw).2 allowed_qualities
   /\ ((validate_quality raw).1 = false -> (validate_quality raw).2 = "best")
   /\ validate_quality (validate_quality raw).2
      = (true, (validate_quality raw).2))
  /\ (In (validate_format raw).2 allowed_formats
      /\ ((validate_format raw).1 = false -> (validate_format raw).2 = "video")
      /\ validate_format (validate_format raw).2
         = (true, (validate_format raw).2)).
Proof.
  split.
  - unfold validate_quality. cbv zeta.
    destruct (truthy raw); cbn [negb]; [|simpl; tauto].
    destruct (mem (strip (lower raw)) _) eqn:Hm; [|simpl; tauto].
    apply mem_In in Hm. cbn [fst snd].
    split; [exact Hm|]. split; [done|].
    simpl in Hm. by repeat destruct Hm as [<-|Hm].
  - unfold validate_format. cbv zeta.
    destruct (truthy raw); cbn [negb]; [|simpl; tauto].
    destruct (mem (strip (lower raw)) _) eqn:Hm; [|simpl; tauto].
    apply mem_In in Hm. cbn [fst snd].
    split; [exact Hm|]. split; [done|].
    simpl in Hm. by repeat destruct Hm as [<-|Hm].
Qed.

Lemma existsb_none {A} (f : A -> bool) (l : list A) :
  (forall x, In x l -> f x = false) -> existsb f l = false.
Proof.
  intros H. induction l as [|x l IH]; [done|].
  simpl. rewrite (H x) by (by left). apply IH. intros y Hy. apply H. by right.
Qed.

Lemma prefix_cons_inv (a : ascii) (p s : string) :
  String.prefix (String a p) s = true ->
  exists t, s = String a t /\ String.prefix p t = true.
Proof.
  destruct s as [|c t]; [done|]. cbn [String.prefix].
  destruct (ascii_dec a c) as [->|]; [|done]. eauto.
Qed.

(** X2.  Of the loopback range only the literal 127.0.0.1 is refused: a
    URL that passes the other checks and whose host is any other name
    starting with [127.] is accepted. *)
Theorem loopback_range_passes_validate_url `{L : Library}
    (u : string) (parsed : ParseResult) (h : string) :
  truthy u = true ->
  String.length u <= MAX_URL_LENGTH ->
  (forall pattern, In pattern BLOCKED_PATTERNS ->
                   re_search pattern (lower u) = false) ->
  urlparse u = Some parsed ->
  In (scheme parsed) ALLOWED_SCHEMES ->
  hostname parsed = Some h ->
  startswith (lower h) "127." = true ->
  lower h <> "127.0.0.1" ->
  contains "169.254.169.254" (lower h) = false ->
  validate_url u = (true, None).
Proof.
  intros Hu Hlen Hpat Hparse Hscheme Hhost H127 Hne Hmeta.
  unfold validate_url. rewrite Hu. cbn [negb].
  assert (Hl : Nat.ltb MAX_URL_LENGTH (String.length u) = false)
    by (apply Nat.ltb_ge; lia).
  rewrite Hl, (existsb_none _ _ Hpat), Hparse.
  assert (Hs : mem (scheme parsed) ALLOWED_SCHEMES = true).
  { unfold mem. apply existsb_exists. exists (scheme parsed).
    split; [done|apply String.eqb_refl]. }
  rewrite Hs, Hhost. cbn [negb].
  assert (Ht : truthy h = true) by (by destruct h).
  rewrite Ht. unfold is_metadata_host. rewrite Hmeta.
  unfold startswith in H127.
  apply prefix_cons_inv in H127 as (t1 & Hlow & H127).
  apply prefix_cons_inv in H127 as (t2 & -> & H127).
  apply prefix_cons_inv in H127 as (t3 & -> & H127).
  apply prefix_cons_inv in H127 as (rest & -> & _).
  rewrite Hlow in *.
  assert (Hlocal : is_local_host (String "1" (String "2" (String "7"
                     (String "." rest)))) = false).
  { unfold is_local_host, mem. cbn [existsb].
    destruct (String.eqb_spec (String "1" (String "2" (String "7"
                (String "." rest)))) "127.0.0.1") as [Heq|_]; [done|].
    reflexivity. }
  rewrite Hlocal. reflexivity.
Qed.

Lemma loopback_range_passes_validate_url_witness :
  validate_url (L := reference_library) "http://127.0.0.2:8080/admin"
  = (true, None).
Proof.
  apply (loopback_range_passes_validate_url (L := reference_library)
           "http://127.0.0.2:8080/admin"
           {| scheme := "http"; hostname := Some "127.0.0.2" |} "127.0.0.2").
  - reflexivity.
  - apply Nat.leb_le. vm_compute. reflexivity.
  - intros pattern Hin.
    assert (H : forallb
                  (fun p => negb (@re_search reference_library p
                                    (lower "http://127.0.0.2:8080/admin")))
                  BLOCKED_PATTERNS = true) by (vm_compute; reflexivity).
    apply negb_true_iff.
    exact (proj1 (forallb_forall _ _) H pattern Hin).
  - vm_compute. reflexivity.
  - left. reflexivity.
  - reflexivity.
  - vm_compute. reflexivity.
  - discriminate.
  - vm_compute. reflexivity.
Defined.

(** ** The shape of sanitized text *)

Lemma rstrip_idempotent (s : string) : rstrip (rstrip s) = rstrip s.
Proof.
  induction s as [|c s IH]; [done|].
  cbn [rstrip]. destruct (rstrip s) as [|c' t'] eqn:Hr.
  - destruct (isspace c) eqn:Hc; [done|]. cbn [rstrip]. by rewrite Hc.
  - cbn [rstrip]. cbn [rstrip] in IH. by rewrite IH.
Qed.

Lemma rstrip_keeps_head (c : ascii) (s : string) :
  isspace c = false -> exists t, rstrip (String c s) = String c t.
Proof.
  intros Hc. cbn [rstrip]. destruct (rstrip s); [|eauto].
  rewrite Hc. eauto.
Qed.

Lemma lstrip_head (s : string) :
  lstrip s = "" \/ exists c t, lstrip s = String c t /\ isspace c = false.
Proof.
  induction s as [|c s IH]; [by left|].
  cbn [lstrip]. destruct (isspace c) eqn:Hc; [done|]. right. eauto.
Qed.

Lemma strip_idempotent (s : string) : strip (strip s) = strip s.
Proof.
  unfold strip. destruct (lstrip_head s) as [->|(c & t & -> & Hc)]; [done|].
  destruct (rstrip_keeps_head c t Hc) as (t' & Ht').
  assert (Hl : lstrip (rstrip (String c t)) = rstrip (String c t)).
  { rewrite Ht'. cbn [lstrip]. by rewrite Hc. }
  rewrite Hl. apply rstrip_idempotent.
Qed.

Lemma lstrip_all_chars (p : ascii -> bool) (s : string) :
  all_chars p s = true -> all_chars p (lstrip s) = true.
Proof.
  induction s as [|c s IH]; [done|].
  intros H. cbn [lstrip]. destruct (isspace c); [|done].
  rewrite all_chars_cons, andb_true_iff in H. apply IH, H.
Qed.

Lemma rstrip_all_chars (p : ascii -> bool) (s : string) :
  all_chars p s = true -> all_chars p (rstrip s) = true.
Proof.
  induction s as [|c s IH]; [done|].
  rewrite all_chars_cons, andb_true_iff. intros [Hc Hs].
  cbn [rstrip]. specialize (IH Hs). destruct (rstrip s) as [|c' t'].
  - destruct (isspace c); [done|]. by rewrite all_chars_cons, Hc.
  - by rewrite all_chars_cons, Hc.
Qed.

Lemma remove_char_removes (k : ascii) (s : string) :
  all_chars (fun c => negb (Ascii.eqb c k)) (remove_char k s) = true.
Proof.
  induction s as [|c s IH]; [done|].
  cbn [remove_char]. destruct (Ascii.eqb c k) eqn:Hc; [done|].
  by rewrite all_chars_cons, Hc.
Qed.

(** X3.  Whatever the cleaner does, the text [sanitize_string] returns
    holds no NUL and neither starts nor ends with white space (stripping
    it again changes nothing); and the empty text is returned as it is,
    without a call to the cleaner. *)
Theorem sanitize_string_output_shape `{L : Library}
    (text : string) (max_length : nat) :
  nul_free (sanitize_string text max_length) = true
  /\ strip (sanitize_string text max_length)
     = sanitize_string text max_length
  /\ sanitize_string "" max_length = "".
Proof.
  unfold sanitize_string, nul_free.
  destruct (truthy text); cbn [negb]; [|done].
  split; [|split; [apply strip_idempotent|done]].
  unfold strip. apply rstrip_all_chars, lstrip_all_chars.
  apply remove_char_removes.
Qed.

(** * The rate limiter *)

Lemma filter_filter_weaker {A} (f g : A -> bool) (l : list A) :
  (forall x, f x = true -> g x = true) ->
  List.filter f (List.filter g l) = List.filter f l.
Proof.
  intros Hfg. induction l as [|x l IH]; [done|].
  simpl. destruct (g x) eqn:Hg; simpl.
  - destruct (f x); by rewrite IH.
  - destruct (f x) eqn:Hf; [|done]. apply Hfg in Hf. congruence.
Qed.

Lemma in_window_earlier (window t0 t e : Q) :
  (t0 <= t)%Q -> in_window window t e = true -> in_window window t0 e = true.
Proof.
  unfold in_window. intros Ht H. apply negb_true_iff in H.
  apply negb_true_iff. apply not_true_is_false. intros Hle.
  apply Qle_bool_iff in Hle.
  assert (Hle' : (window <= t - e)%Q).
  { apply (Qle_trans _ (t0 - e)); [done|].
    unfold Qminus. by apply Qplus_le_l. }
  apply Qle_bool_iff in Hle'. congruence.
Qed.

Lemma in_window_now (window t : Q) :
  (0 < window)%Q -> in_window window t t = true.
Proof.
  intros Hw. unfold in_window. apply negb_true_iff, not_true_is_false.
  intros Hle%Qle_bool_iff.
  assert (Hz : (t - t == 0)%Q) by ring. rewrite Hz in Hle.
  by apply Qle_not_lt in Hle.
Qed.

(** One call: the entries of the address afterwards, and the other
    addresses. *)
Lemma check_rate_limit_effect (ip : string) (max_requests : Z)
    (window current_time : Q) (request_log : gmap string (list Q)) :
  let recent :=
    List.filter (in_window window current_time)
                (default [] (request_log !! ip)) in
  let allowed := negb (max_requests <=? Z.of_nat (length recent))%Z in
  (check_rate_limit ip max_requests window current_time request_log).1
  = allowed
  /\ (check_rate_limit ip max_requests window current_time request_log).2
     !! ip
     = Some (if allowed then (recent ++ [current_time])%list else recent)
  /\ forall other,
       other <> ip ->
       (check_rate_limit ip max_requests window current_time request_log).2
       !! other = request_log !! other.
Proof.
  intros recent allowed. unfold check_rate_limit.
  assert (Hsame : default [] (match request_log !! ip with
                              | Some _ => request_log
                              | None => <[ip := []]> request_log
                              end !! ip)
                  = default [] (request_log !! ip)).
  { destruct (request_log !! ip) eqn:H; [by rewrite H|].
    by rewrite lookup_insert_eq. }
  rewrite Hsame. fold recent. unfold allowed.
  destruct (max_requests <=? Z.of_nat (length recent))%Z; cbn [negb fst snd].
  - split; [done|]. split; [apply lookup_insert_eq|].
    intros other Hne. rewrite lookup_insert_ne by done.
    destruct (request_log !! ip); [done|]. by rewrite lookup_insert_ne.
  - split; [done|]. split; [apply lookup_insert_eq|].
    intros other Hne. rewrite !lookup_insert_ne by done.
    destruct (request_log !! ip); [done|]. by rewrite lookup_insert_ne.
Qed.

Lemma replay_rate_limit_snoc (ip : string) (max_requests : Z) (window : Q)
    (times : list Q) (t : Q) (request_log : gmap string (list Q)) :
  replay_rate_limit ip max_requests window (times ++ [t]) request_log
  = rate_limit_step ip max_requests window
      (replay_rate_limit ip max_requests window times request_log) t.
Proof. unfold replay_rate_limit. by rewrite foldl_app. Qed.

Lemma non_decreasing_snoc (l : list Q) (t0 t : Q) :
  non_decreasing ((l ++ [t0]) ++ [t]) ->
  non_decreasing (l ++ [t0]) /\ (t0 <= t)%Q.
Proof.
  intros H. split.
  - intros i a b Ha Hb. apply (H i a b); by apply lookup_app_l_Some.
  - apply (H (length l) t0 t).
    + apply lookup_app_l_Some. by rewrite list_lookup_middle.
    + replace (S (length l)) with (length (l ++ [t0]))
        by (rewrite length_app; simpl; lia).
      by rewrite list_lookup_middle.
Qed.

(** One more call keeps the entries of the address equal to the granted
    readings, and the entries it started with, that are within the window
    of the latest reading. *)
Lemma rate_limit_step_entries (ip : string) (max_requests : Z)
    (window : Q) (initial : list Q) (st : list Q * gmap string (list Q))
    (t : Q) :
  (0 < window)%Q ->
  List.filter (in_window window t) (default [] (st.2 !! ip))
  = List.filter (in_window window t) (initial ++ st.1) ->
  (rate_limit_step ip max_requests window st t).2 !! ip
  = Some (List.filter (in_window window t)
            (initial ++ (rate_limit_step ip max_requests window st t).1)).
Proof.
  intros Hw Hrecent. unfold rate_limit_step.
  destruct (check_rate_limit_effect ip max_requests window t st.2)
    as (Hok & Hip & _).
  destruct (check_rate_limit ip max_requests window t st.2)
    as [allowed request_log'].
  cbn [fst snd] in *. rewrite <- Hok in Hip. rewrite Hip, Hrecent. f_equal.
  destruct allowed; [|done].
  rewrite app_assoc.
  rewrite (List.filter_app (in_window window t) (initial ++ st.1) [t]).
  simpl. by rewrite (in_window_now window t Hw).
Qed.

Lemma replay_rate_limit_entries (ip : string) (max_requests : Z)
    (window : Q) (request_log : gmap string (list Q)) :
  (0 < window)%Q ->
  forall (times : list Q) (t : Q),
    non_decreasing (times ++ [t]) ->
    (replay_rate_limit ip max_requests window (times ++ [t]) request_log).2
    !! ip
    = Some (List.filter (in_window window t)
              (default [] (request_log !! ip)
               ++ (replay_rate_limit ip max_requests window (times ++ [t])
                     request_log).1)).
Proof.
  intros Hw times. induction times as [|t0 times IH] using rev_ind;
    intros t Hsorted; rewrite replay_rate_limit_snoc.
  - apply rate_limit_step_entries; [done|].
    unfold replay_rate_limit. simpl. by rewrite app_nil_r.
  - apply non_decreasing_snoc in Hsorted as [Hsorted Hle].
    apply rate_limit_step_entries; [done|].
    rewrite (IH t0 Hsorted). cbn [default].
    apply filter_filter_weaker. intros e. by apply in_window_earlier.
Qed.

Lemma rate_limit_step_bound (ip : string) (max_requests : Z) (window : Q)
    (st : list Q * gmap string (list Q)) (t : Q) :
  (Z.of_nat (length (default [] (st.2 !! ip))) <= Z.max 0 max_requests)%Z ->
  (Z.of_nat (length (default []
      ((rate_limit_step ip max_requests window st t).2 !! ip)))
   <= Z.max 0 max_requests)%Z.
Proof.
  intros Hb. unfold rate_limit_step.
  destruct (check_rate_limit_effect ip max_requests window t st.2)
    as (Hok & Hip & _).
  destruct (check_rate_limit ip max_requests window t st.2)
    as [allowed request_log'].
  cbn [fst snd] in *. rewrite <- Hok in Hip. rewrite Hip.
  pose proof (List.filter_length_le (in_window window t)
                (default [] (st.2 !! ip))) as Hlen.
  destruct allowed; simpl.
  - symmetry in Hok. apply negb_true_iff, Z.leb_gt in Hok.
    rewrite length_app. simpl. lia.
  - lia.
Qed.

Lemma replay_rate_limit_bound (ip : string) (max_requests : Z) (window : Q)
    (request_log : gmap string (list Q)) (times : list Q) :
  request_log !! ip = None ->
  (Z.of_nat (length (default []
      ((replay_rate_limit ip max_requests window times request_log).2
       !! ip)))
   <= Z.max 0 max_requests)%Z.
Proof.
  intros Hnone. induction times as [|t times IH] using rev_ind.
  - unfold replay_rate_limit. simpl. rewrite Hnone. simpl. lia.
  - rewrite replay_rate_limit_snoc. by apply rate_limit_step_bound.
Qed.

(** X4.  The limiter keeps its promise over any run of calls from one
    address that starts with no entry for it and whose clock readings do
    not decrease: at every call, the calls that were answered [True] and
    lie within the window that ends at this call are at most
    [max_requests] (none when [max_requests] is negative). *)
Theorem rate_limit_bounds_granted_calls (ip : string) (max_requests : Z)
    (window : Q) (request_log : gmap string (list Q)) (times : list Q)
    (t : Q) :
  (0 < window)%Q ->
  request_log !! ip = None ->
  non_decreasing (times ++ [t]) ->
  (Z.of_nat (length (List.filter (in_window window t)
      (replay_rate_limit ip max_requests window (times ++ [t])
         request_log).1))
   <= Z.max 0 max_requests)%Z.
Proof.
  intros Hw Hnone Hsorted.
  pose proof (replay_rate_limit_bound ip max_requests window request_log
                (times ++ [t]) Hnone) as Hb.
  rewrite (replay_rate_limit_entries ip max_requests window request_log Hw
             times t Hsorted) in Hb.
  by rewrite Hnone in Hb.
Qed.

Lemma rate_limit_bounds_granted_calls_witness :
  (replay_rate_limit "203.0.113.7" 2 60 [0; 10; 20; 30]%Q ∅).1 = [0; 10]%Q
  /\ (Z.of_nat (length (List.filter (in_window 60 30)
        (replay_rate_limit "203.0.113.7" 2 60
           ([0; 10; 20]%Q ++ [30%Q])%list ∅).1))
      <= Z.max 0 2)%Z.
Proof.
  split; [vm_compute; reflexivity|].
  apply (rate_limit_bounds_granted_calls "203.0.113.7" 2 60 ∅
           [0; 10; 20]%Q 30%Q).
  - reflexivity.
  - apply lookup_empty.
  - intros [|[|[|[|i]]]] a b; simpl; intros [= <-] [= <-]; by vm_compute.
Defined.

(** X5.  A refused call is not recorded, so refusals do not prolong the
    block: once every call that was answered [True] is at least a window
    old, the next call is answered [True] (for a positive
    [max_requests]), however many calls were refused in between. *)
Theorem rate_limit_recovers_after_window (ip : string) (max_requests : Z)
    (window : Q) (request_log : gmap string (list Q)) (times : list Q)
    (t : Q) :
  (0 < window)%Q ->
  (1 <= max_requests)%Z ->
  request_log !! ip = None ->
  non_decreasing (times ++ [t]) ->
  Forall (fun granted => (window <= t - granted)%Q)
         (replay_rate_limit ip max_requests window times request_log).1 ->
  (check_rate_limit ip max_requests window t
     (replay_rate_limit ip max_requests window times request_log).2).1
  = true.
Proof.
  intros Hw Hmax Hnone Hsorted Hold.
  destruct (check_rate_limit_effect ip max_requests window t
              (replay_rate_limit ip max_requests window times request_log).2)
    as (-> & _ & _).
  assert (Hrecent : List.filter (in_window window t)
            (default [] ((replay_rate_limit ip max_requests window times
                            request_log).2 !! ip)) = []).
  { destruct times as [|t0 times _] using rev_ind.
    - unfold replay_rate_limit. simpl. by rewrite Hnone.
    - apply non_decreasing_snoc in Hsorted as [Hsorted Hle].
      rewrite (replay_rate_limit_entries ip max_requests window request_log
                 Hw times t0 Hsorted), Hnone.
      cbn [default from_option app]. unfold id.
      rewrite filter_filter_weaker
        by (intros e; by apply in_window_earlier).
      induction Hold as [|g gs Hg _ IH]; [done|].
      simpl. unfold in_window at 1.
      apply Qle_bool_iff in Hg. by rewrite Hg. }
  rewrite Hrecent. simpl. apply negb_true_iff, Z.leb_gt. lia.
Qed.

Lemma rate_limit_recovers_after_window_witness :
  (replay_rate_limit "203.0.113.7" 2 60 [0; 10; 20; 30]%Q ∅).1 = [0; 10]%Q
  /\ (check_rate_limit "203.0.113.7" 2 60 70
        (replay_rate_limit "203.0.113.7" 2 60 [0; 10; 20; 30]%Q ∅).2).1
     = true.
Proof.
  split; [vm_compute; reflexivity|].
  apply (rate_limit_recovers_after_window "203.0.113.7" 2 60 ∅
           [0; 10; 20; 30]%Q 70%Q).
  - reflexivity.
  - lia.
  - apply lookup_empty.
  - intros [|[|[|[|[|i]]]]] a b; simpl; intros [= <-] [= <-]; by vm_compute.
  - assert (Hg : (replay_rate_limit "203.0.113.7" 2 60 [0; 10; 20; 30]%Q
                    ∅).1 = [0; 10]%Q) by (vm_compute; reflexivity).
    rewrite Hg. repeat constructor; by vm_compute.
Defined.

(** * Further properties of the callbacks *)

Lemma writes_only_ret {A} (download_id : string)
    (keep : Job -> Job -> Prop) (a : A) :
  (forall j, keep j j) -> writes_only download_id keep (ret a).
Proof.
  intros Hrefl reg. unfold run, ret. simpl.
  destruct (reg !! download_id) as [j|] eqn:Hj; [|done].
  exists j. split; [by rewrite insert_id|apply Hrefl].
Qed.

Lemma writes_only_raise {A} (download_id : string)
    (keep : Job -> Job -> Prop) (e : Exn) :
  (forall j, keep j j) -> writes_only download_id keep (@raise A e).
Proof.
  intros Hrefl reg. unfold run, raise. simpl.
  destruct (reg !! download_id) as [j|] eqn:Hj; [|done].
  exists j. split; [by rewrite insert_id|apply Hrefl].
Qed.

Lemma writes_only_assign (download_id : string)
    (keep : Job -> Job -> Prop) (setter : Job -> Job) :
  (forall j, keep j (setter j)) ->
  writes_only download_id keep (assign download_id setter).
Proof.
  intros Hset reg. unfold run, assign.
  destruct (reg !! download_id) as [j|] eqn:Hj; [|done].
  simpl. exists (setter j). split; [done|apply Hset].
Qed.

Lemma writes_only_bind {A B} (download_id : string)
    (keep : Job -> Job -> Prop) (c : Stmt A) (k : A -> Stmt B) :
  (forall j1 j2 j3, keep j1 j2 -> keep j2 j3 -> keep j1 j3) ->
  writes_only download_id keep c ->
  (forall a, writes_only download_id keep (k a)) ->
  writes_only download_id keep (bind c k).
Proof.
  intros Htrans Hc Hk reg. specialize (Hc reg). unfold run, bind in *.
  destruct (c reg) as [reg1 [e|a]] eqn:Hcr; cbn [fst] in *; [done|].
  specialize (Hk a reg1). unfold run in Hk.
  destruct (reg !! download_id) as [j|] eqn:Hj.
  - destruct Hc as (j1 & -> & Hk1). rewrite lookup_insert_eq in Hk.
    destruct Hk as (j2 & -> & Hk2). exists j2.
    split; [by rewrite insert_insert_eq|by apply (Htrans j j1 j2)].
  - subst reg1. by rewrite Hj in Hk.
Qed.

Lemma same_identity_refl (j : Job) : same_identity j j.
Proof. by repeat split. Qed.

Lemma same_identity_trans (j1 j2 j3 : Job) :
  same_identity j1 j2 -> same_identity j2 j3 -> same_identity j1 j3.
Proof. unfold same_identity. intuition congruence. Qed.

(** Builds the proof that a callback writes to one record only, statement
    by statement. *)
Ltac writes_only_steps :=
  repeat first
    [ apply writes_only_bind;
      [exact same_identity_trans| |intros ?]
    | apply writes_only_assign; intros ?; by repeat split
    | apply writes_only_ret; exact same_identity_refl
    | apply writes_only_raise; exact same_identity_refl ].

Lemma record_progress_writes_only (d : HookEvent) (download_id : string)
    (total : PyNum) :
  writes_only download_id same_identity
    (record_progress d download_id total).
Proof.
  unfold record_progress.
  destruct (default _ _) as [x|], total as [T|]; try writes_only_steps.
  destruct (Qeq_bool T 0); writes_only_steps.
Qed.

Lemma apply_callback_writes_only (download_id : string) (cb : Callback) :
  writes_only download_id same_identity (apply_callback download_id cb).
Proof.
  destruct cb as [msg|d]; simpl.
  - unfold DownloadLogger_error. writes_only_steps.
  - unfold progress_hook.
    destruct (d_status d =? "downloading").
    { apply writes_only_bind; [exact same_identity_trans| |intros ?].
      { writes_only_steps. }
      apply writes_only_bind; [exact same_identity_trans| |intros ?].
      { writes_only_steps. }
      destruct (d_total_bytes d);
        [apply record_progress_writes_only|].
      destruct (d_total_bytes_estimate d);
        [apply record_progress_writes_only|writes_only_steps]. }
    destruct (d_status d =? "finished"); [writes_only_steps|].
    destruct (d_status d =? "error"); writes_only_steps.
Qed.

Lemma known_event_raises_key_error (download_id : string) (cb : Callback)
    (reg : gmap string Job) :
  reg !! download_id = None ->
  known_event cb ->
  raised (apply_callback download_id cb) reg = Some (KeyError download_id).
Proof.
  intros Hnone Hknown. unfold raised.
  destruct cb as [msg|d]; simpl.
  - unfold DownloadLogger_error, bind, assign. by rewrite Hnone.
  - unfold progress_hook. simpl in Hknown.
    destruct Hknown as [<-|[<-|[<-|[]]]]; simpl;
      unfold bind, assign; by rewrite Hnone.
Qed.

(** X6.  A callback for one job writes to the record of that job and to
    nothing else: it neither adds nor removes a job, leaves every other
    record as it is, and leaves the id, URL, quality, format and start time
    of its own record as they are.  For a job that is not registered the
    registry is left as it is, and a logger error or a downloading,
    finished or error event raises [KeyError]. *)
Theorem callbacks_write_one_record (download_id : string) (cb : Callback)
    (reg : gmap string Job) :
  dom (run (apply_callback download_id cb) reg) = dom reg
  /\ (forall other,
        other <> download_id ->
        run (apply_callback download_id cb) reg !! other = reg !! other)
  /\ (forall j,
        reg !! download_id = Some j ->
        exists j',
          run (apply_callback download_id cb) reg !! download_id = Some j'
          /\ same_identity j j')
  /\ (reg !! download_id = None ->
      run (apply_callback download_id cb) reg = reg
      /\ (known_event cb ->
          raised (apply_callback download_id cb) reg
          = Some (KeyError download_id))).
Proof.
  pose proof (apply_callback_writes_only download_id cb reg) as H.
  destruct (reg !! download_id) as [j|] eqn:Hj.
  - destruct H as (j' & -> & Hkeep).
    split; [|split; [|split]].
    + apply dom_insert_lookup_L. by rewrite Hj.
    + intros other Hne. by rewrite lookup_insert_ne.
    + intros j0 [= <-]. exists j'. by rewrite lookup_insert_eq.
    + intros [=].
  - rewrite H.
    split; [done|split; [done|split; [intros ? [=]|]]].
    intros _. split; [done|].
    intros Hknown. by apply known_event_raises_key_error.
Qed.

Lemma split_parts_sep_free (sep : ascii) (s : string) :
  Forall (fun w => all_chars (fun c => negb (Ascii.eqb c sep)) w = true)
         (split sep s).
Proof.
  induction s as [|c s IH]; [by repeat constructor|].
  cbn [split]. destruct (Ascii.eqb c sep) eqn:Hc.
  - by constructor.
  - destruct (split sep s) as [|w ws]; [by repeat constructor; rewrite
      all_chars_cons, Hc|].
    apply Forall_cons in IH as [Hw Hws]. constructor; [|done].
    by rewrite all_chars_cons, Hc.
Qed.

Lemma basename_slash_free (p : string) : slash_free (basename p) = true.
Proof.
  unfold slash_free, basename.
  pose proof (split_parts_sep_free "/" p) as H.
  induction H as [|w ws Hw Hws IH]; [done|].
  destruct ws; [done|]. exact IH.
Qed.

Lemma same_filename_trans (j1 j2 j3 : Job) :
  filename j2 = filename j1 -> filename j3 = filename j2 ->
  filename j3 = filename j1.
Proof. congruence. Qed.

Lemma record_progress_keeps_filename (d : HookEvent) (download_id : string)
    (total : PyNum) :
  writes_only download_id (fun j j' => filename j' = filename j)
    (record_progress d download_id total).
Proof.
  unfold record_progress.
  destruct (default _ _) as [x|], total as [T|];
    try (by apply writes_only_raise).
  destruct (Qeq_bool T 0); [by apply writes_only_raise|].
  repeat first
    [ apply writes_only_bind; [exact same_filename_trans| |intros ?]
    | by apply writes_only_assign ].
Qed.

(** X7.  The progress hook records the last component of the path the
    collaborator reports, never the directories before it: after a
    downloading or a finished event for a registered job, whether or not
    the progress calculation then raises, the [filename] of the record is
    the base name of the reported path ([Unknown] when none is reported)
    and holds no slash. *)
Theorem hook_records_base_name_only (d : HookEvent) (download_id : string)
    (reg : gmap string Job) (j : Job) :
  reg !! download_id = Some j ->
  d_status d = "downloading" \/ d_status d = "finished" ->
  exists j',
    run (progress_hook d download_id) reg !! download_id = Some j'
    /\ filename j' = Some (basename (default "Unknown" (d_filename d)))
    /\ (forall f, filename j' = Some f -> slash_free f = true).
Proof.
  intros Hj Hs.
  assert (H : exists j',
             run (progress_hook d download_id) reg !! download_id = Some j'
             /\ filename j'
                = Some (basename (default "Unknown" (d_filename d)))).
  { destruct Hs as [Hs|Hs].
    - unfold progress_hook. rewrite Hs. simpl.
      rewrite (run_assign_then _ _ _ _ _ Hj).
      rewrite (run_assign_then _ _ _ _ _ (lookup_insert_eq _ _ _)).
      rewrite insert_insert_eq.
      set (j1 := set_filename _ _).
      assert (Hkeep : forall total,
                 exists j', run (record_progress d download_id total)
                              (<[download_id := j1]> reg) !! download_id
                            = Some j' /\ filename j' = filename j1).
      { intros total.
        pose proof (record_progress_keeps_filename d download_id total
                      (<[download_id := j1]> reg)) as Hw.
        rewrite lookup_insert_eq in Hw. destruct Hw as (j' & -> & Hf).
        exists j'. by rewrite lookup_insert_eq. }
      destruct (d_total_bytes d) as [t|]; [apply Hkeep|].
      destruct (d_total_bytes_estimate d) as [t|]; [apply Hkeep|].
      exists j1. unfold run, ret. simpl. by rewrite lookup_insert_eq.
    - unfold run. rewrite (hook_finished_effect d download_id reg j Hj Hs).
      simpl. rewrite lookup_insert_eq. eauto. }
  destruct H as (j' & Hj' & Hf). exists j'. split; [done|]. split; [done|].
  intros f. rewrite Hf. intros [= <-]. apply basename_slash_free.
Qed.

Lemma hook_records_base_name_only_witness :
  exists j',
    run (progress_hook (downloading_event 50 true 100)
           "download_1700000000000")
        (one_job_registry "download_1700000000000")
    !! "download_1700000000000" = Some j'
    /\ filename j' = Some "video.mp4".
Proof.
  destruct (hook_records_base_name_only (downloading_event 50 true 100)
              "download_1700000000000"
              (one_job_registry "download_1700000000000")
              (queued_job "download_1700000000000")
              (lookup_singleton_eq _ _) (or_introl eq_refl))
    as (j' & Hj' & Hf & _).
  exists j'. split; [exact Hj'|exact Hf].
Defined.

Lemma hook_downloading_prefix (d : HookEvent) (download_id : string)
    (reg : gmap string Job) (j : Job) :
  reg !! download_id = Some j ->
  d_status d = "downloading" ->
  progress_hook d download_id reg
  = match event_total d with
    | Some total =>
        record_progress d download_id total
          (<[download_id :=
               set_filename (basename (default "Unknown" (d_filename d)))
                 (set_status "downloading" j)]> reg)
    | None =>
        (<[download_id :=
             set_filename (basename (default "Unknown" (d_filename d)))
               (set_status "downloading" j)]> reg, inr tt)
    end.
Proof.
  intros Hj Hs. unfold progress_hook, event_total. rewrite Hs. simpl.
  run_assigns.
  destruct (d_total_bytes d); [done|].
  by destruct (d_total_bytes_estimate d).
Qed.

(** X8.  A downloading event whose total cannot be divided by does not
    stop the hook from writing the state and the file name first.  With no
    total key at all the hook returns having written those two and nothing
    else; with a total of zero it raises [ZeroDivisionError], and with a
    total or a downloaded count that is [None] it raises [TypeError], both
    after having written the two.  In each case the progress and the byte
    counters of the record stay what they were. *)
Theorem downloading_event_without_usable_total (d : HookEvent)
    (download_id : string) (reg : gmap string Job) (j : Job) :
  reg !! download_id = Some j ->
  d_status d = "downloading" ->
  let j1 := set_filename (basename (default "Unknown" (d_filename d)))
              (set_status "downloading" j) in
  same_counters j j1
  /\ (event_total d = None ->
      progress_hook d download_id reg = (<[download_id := j1]> reg, inr tt))
  /\ (forall T x,
        event_total d = Some (Some T) ->
        event_downloaded d = Some x ->
        (T == 0)%Q ->
        progress_hook d download_id reg
        = (<[download_id := j1]> reg, inl ZeroDivisionError))
  /\ (forall total,
        event_total d = Some total ->
        total = None \/ event_downloaded d = None ->
        progress_hook d download_id reg
        = (<[download_id := j1]> reg, inl TypeError)).
Proof.
  intros Hj Hs j1. split; [by repeat split|].
  rewrite (hook_downloading_prefix d download_id reg j Hj Hs). fold j1.
  split; [by intros ->|]. split.
  - intros T x -> Hx HT. unfold record_progress.
    unfold event_downloaded in Hx. rewrite Hx.
    apply Qeq_bool_iff in HT. by rewrite HT.
  - intros total -> Hnone. unfold record_progress.
    unfold event_downloaded in Hnone.
    destruct Hnone as [-> | ->];
      [destruct (default (Some 0%Q) (d_downloaded_bytes d))|]; reflexivity.
Qed.

Lemma downloading_event_without_usable_total_witness :
  progress_hook (downloading_event 50 true 0) "download_1700000000000"
    (one_job_registry "download_1700000000000")
  = (<["download_1700000000000" :=
         set_filename "video.mp4"
           (set_status "downloading"
              (queued_job "download_1700000000000"))]>
       (one_job_registry "download_1700000000000"),
     inl ZeroDivisionError).
Proof.
  apply (proj1 (proj2 (proj2
           (downloading_event_without_usable_total
              (downloading_event 50 true 0) "download_1700000000000"
              (one_job_registry "download_1700000000000")
              (queued_job "download_1700000000000")
              (lookup_singleton_eq _ _) eq_refl))) 0%Q 50%Q);
    reflexivity.
Defined.

(** * Further properties of submission *)

Lemma validate_quality_allowed (raw q : string) (ok : bool) :
  validate_quality raw = (ok, q) -> In q allowed_qualities.
Proof.
  unfold validate_quality. cbv zeta.
  destruct (truthy raw); cbn [negb]; [|intros [= _ <-]; by left].
  destruct (mem (strip (lower raw)) _) eqn:Hm;
    [|intros [= _ <-]; by left].
  intros [= _ <-]. by apply mem_In.
Qed.

Lemma validate_format_allowed (raw f : string) (ok : bool) :
  validate_format raw = (ok, f) -> In f allowed_formats.
Proof.
  unfold validate_format. cbv zeta.
  destruct (truthy raw); cbn [negb]; [|intros [= _ <-]; by left].
  destruct (mem (strip (lower raw)) _) eqn:Hm;
    [|intros [= _ <-]; by left].
  intros [= _ <-]. by apply mem_In.
Qed.

(** X9.  Over the qualities and formats that pass validation, the format
    selector is left unset for exactly one pair, the quality 480p with the
    format video.  Every audio download is configured alike, whatever the
    quality: best audio, extracted to mp3 at 320, the video not kept; and
    every video download that has a selector merges into mp4. *)
Theorem format_selector_over_validated_inputs
    (raw_quality raw_format q f : string) :
  validate_quality raw_quality = (true, q) ->
  validate_format raw_format = (true, f) ->
  (opt_format (download_video_format_opts q f) = None
   <-> q = "480p" /\ f = "video")
  /\ (f = "audio" -> download_video_format_opts q f = audio_opts)
  /\ (f = "video" -> q <> "480p" ->
      opt_merge_output_format (download_video_format_opts q f) = Some "mp4"
      /\ opt_postprocessors (download_video_format_opts q f) = None).
Proof.
  intros Hq%validate_quality_allowed Hf%validate_format_allowed.
  simpl in Hq, Hf.
  repeat destruct Hq as [<-|Hq]; try done;
    repeat destruct Hf as [<-|Hf]; try done;
    (split; [split; [intros H; by vm_compute in H|by intros [? ?]]|]);
    split; try done; by intros _ ?.
Qed.

Lemma format_selector_over_validated_inputs_witness :
  validate_quality " 480P " = (true, "480p")
  /\ validate_format "Audio" = (true, "audio")
  /\ download_video_format_opts "480p" "audio" = audio_opts.
Proof.
  assert (Hq : validate_quality " 480P " = (true, "480p"))
    by (vm_compute; reflexivity).
  assert (Hf : validate_format "Audio" = (true, "audio"))
    by (vm_compute; reflexivity).
  split; [exact Hq|]. split; [exact Hf|].
  exact (proj1 (proj2 (format_selector_over_validated_inputs
                         " 480P " "Audio" "480p" "audio" Hq Hf)) eq_refl).
Defined.

Lemma validate_quality_value_allowed (v : JsonValue) (q : string)
    (ok : bool) :
  validate_quality_value v = (ok, q) -> In q allowed_qualities.
Proof.
  unfold validate_quality_value. cbv zeta.
  destruct (value_truthy v); cbn [negb]; [|intros [= _ <-]; by left].
  destruct (mem (strip (lower (value_str v))) _) eqn:Hm;
    [|intros [= _ <-]; by left].
  intros [= _ <-]. by apply mem_In.
Qed.

Lemma validate_format_value_allowed (v : JsonValue) (f : string)
    (ok : bool) :
  validate_format_value v = (ok, f) -> In f allowed_formats.
Proof.
  unfold validate_format_value. cbv zeta.
  destruct (value_truthy v); cbn [negb]; [|intros [= _ <-]; by left].
  destruct (mem (strip (lower (value_str v))) _) eqn:Hm;
    [|intros [= _ <-]; by left].
  intros [= _ <-]. by apply mem_In.
Qed.

Lemma validate_url_accepts_without_message `{L : Library} (url : string)
    (msg : option string) :
  validate_url url = (true, msg) -> msg = None.
Proof.
  unfold validate_url. intros Hu.
  repeat match type of Hu with
         | context [if ?b then _ else _] => destruct b
         | context [match ?o with Some _ => _ | None => _ end] =>
             destruct o
         end; congruence.
Qed.

(** On a body that is an object with string values, when the thread
    starts, the handler is the function [start_download]. *)
Lemma start_download_handler_on_strings `{L : Library}
    (data : DownloadRequest) (now_ms : Z) (now_iso : string)
    (reg : gmap string Job) :
  start_download_handler (string_request data) now_ms now_iso None reg
  = start_download data now_ms now_iso reg.
Proof.
  unfold start_download_handler, start_download, string_request.
  cbn [get_json]. rewrite lookup_insert_eq. cbn [default from_option id].
  destruct (validate_url _) as [[] msg]; cbn [negb]; [|done].
  assert (Hq : validate_quality_value
                 (default (JString "best")
                    (<["url" := JString (req_url data)]>
                       (with_field "quality" (req_quality data)
                          (with_field "format" (req_format data) ∅))
                     !! "quality"))
               = validate_quality (default "best" (req_quality data))).
  { rewrite lookup_insert_ne by done. unfold with_field at 1.
    destruct (req_quality data) as [q|]; [by rewrite lookup_insert_eq|].
    unfold with_field.
    by destruct (req_format data);
      rewrite ?lookup_insert_ne, lookup_empty by done. }
  assert (Hf : validate_format_value
                 (default (JString "video")
                    (<["url" := JString (req_url data)]>
                       (with_field "quality" (req_quality data)
                          (with_field "format" (req_format data) ∅))
                     !! "format"))
               = validate_format (default "video" (req_format data))).
  { rewrite lookup_insert_ne by done. unfold with_field at 1.
    assert (Hfmt : with_field "format" (req_format data) ∅ !! "format"
                   = JString <$> req_format data).
    { unfold with_field.
      by destruct (req_format data);
        rewrite ?lookup_insert_eq, ?lookup_empty. }
    destruct (req_quality data) as [q|];
      rewrite ?lookup_insert_ne, Hfmt by done;
      by destruct (req_format data). }
  rewrite Hq, Hf.
  destruct (validate_quality _) as [[] q]; cbn [negb]; [|done].
  by destruct (validate_format _) as [[] f].
Qed.

(** The paths of the handler. *)
Lemma start_download_handler_cases `{L : Library}
    (req : HttpRequest) (now_ms : Z) (now_iso : string)
    (thread_start : option string) (reg reg' : gmap string Job)
    (resp : Response) (task : option Task) :
  start_download_handler req now_ms now_iso thread_start reg
  = (resp, reg', task) ->
  (status_code resp = 400%nat /\ reg' = reg /\ task = None
   \/ status_code resp = 200%nat /\ thread_start = None
      /\ (exists data raw_url t job,
            get_json req = inr (JObject data)
            /\ default (JString "") (data !! "url") = JString raw_url
            /\ task = Some t
            /\ body resp = StartedBody (job_id job) "Download started"
            /\ reg' = <[job_id job := job]> reg
            /\ registered_as now_ms now_iso raw_url job t)
   \/ status_code resp = 500%nat /\ task = None
      /\ (reg' = reg
          /\ ((exists message,
                 get_json req = inl message
                 /\ body resp = ErrorBody message None)
              \/ (exists data,
                    get_json req = inr data /\ is_object data = false
                    /\ body resp
                       = ErrorBody (attribute_error (body_type data) "get")
                           None)
              \/ (exists data b py_type s,
                    get_json req = inr (JObject data)
                    /\ data !! "url" = Some (JOther b py_type s)
                    /\ body resp
                       = ErrorBody (attribute_error py_type "strip") None))
          \/ exists message data raw_url job t,
               thread_start = Some message
               /\ body resp = ErrorBody message None
               /\ get_json req = inr (JObject data)
               /\ default (JString "") (data !! "url") = JString raw_url
               /\ reg' = <[job_id job := job]> reg
               /\ registered_as now_ms now_iso raw_url job t))
  /\ forall other,
       other <> make_download_id now_ms -> reg' !! other = reg !! other.
Proof.
  unfold start_download_handler.
  destruct (get_json req) as [message|data] eqn:Hbody.
  { intros [= <- <- <-]. split; [|done]. right. right.
    split; [done|]. split; [done|]. left. split; [done|]. left.
    by exists message. }
  destruct data as [data|items|text|py_type];
    try (intros [= <- <- <-]; split; [|done]; right; right;
         split; [done|]; split; [done|]; left; split; [done|];
         right; left; eexists; by repeat split).
  destruct (default (JString "") (data !! "url")) as [raw_url|b py_type s]
    eqn:Hurl.
  2:{ intros [= <- <- <-]. split; [|done]. right. right.
      split; [done|]. split; [done|]. left. split; [done|]. right. right.
      exists data, b, py_type, s. split; [done|]. split; [|done].
      destruct (data !! "url") as [v|]; [|done]. by simplify_eq/=. }
  destruct (validate_url (strip raw_url)) as [[] msg] eqn:Hu; cbn [negb];
    [|intros [= <- <- <-]; split; [by left|done]].
  apply validate_url_accepts_without_message in Hu as Hmsg. subst msg.
  destruct (validate_quality_value _) as [[] q] eqn:Hq; cbn [negb];
    [|intros [= <- <- <-]; split; [by left|done]].
  destruct (validate_format_value _) as [[] f] eqn:Hf; cbn [negb];
    [|intros [= <- <- <-]; split; [by left|done]].
  apply validate_quality_value_allowed in Hq.
  apply validate_format_value_allowed in Hf.
  assert (Hreg : forall job t,
             job = {| job_id := make_download_id now_ms;
                      url := strip raw_url; status := "queued";
                      progress := 0; quality := q; format := f;
                      started_at := now_iso; filename := None;
                      downloaded := None; total := None; speed := None;
                      eta := None; error := None |} ->
             t = {| task_url := strip raw_url;
                    task_download_id := make_download_id now_ms;
                    task_quality := q; task_format := f |} ->
             registered_as now_ms now_iso raw_url job t).
  { intros job t -> ->. unfold registered_as.
    cbn [job_id url quality format status progress started_at filename
         downloaded total error task_download_id task_url task_quality
         task_format].
    by repeat match goal with |- _ /\ _ => split end. }
  destruct thread_start as [message|]; intros [= <- <- <-].
  - split; [|intros other Hne; by rewrite lookup_insert_ne].
    right. right. split; [done|]. split; [done|]. right.
    eexists message, data, raw_url, _, _. split; [done|]. split; [done|].
    split; [done|]. split; [done|]. split; [|by apply Hreg].
    reflexivity.
  - split; [|intros other Hne; by rewrite lookup_insert_ne].
    right. left. split; [done|]. split; [done|].
    eexists data, raw_url, _, _. split; [done|]. split; [done|].
    split; [done|]. split; [|split; [|by apply Hreg]]; reflexivity.
Qed.

(** X10.  The handler of a submission answers 200, 400 or 500.  On 400
    the registry is left as it is and no thread is started.  On 200 the
    thread has started; exactly one record has been written, under the id
    in the answer, and the thread was given the values the record holds:
    the submitted URL, a string, stripped of white space, which passed
    [validate_url], a quality and a format of the closed lists, the state
    [queued], the progress 0 and no file name, byte counter or error.  On
    500 no thread runs: either [get_json] raised, the body is not an
    object or its [url] is not a string, and the registry is left as it
    is; or starting the thread raised, and then the record had already
    been written and stays in the registry, queued.  Every other id of the
    registry keeps its record in all cases. *)
Theorem start_download_registers_what_it_validated `{L : Library}
    (req : HttpRequest) (now_ms : Z) (now_iso : string)
    (thread_start : option string) (reg reg' : gmap string Job)
    (resp : Response) (task : option Task) :
  start_download_handler req now_ms now_iso thread_start reg
  = (resp, reg', task) ->
  (status_code resp = 400%nat /\ reg' = reg /\ task = None
   \/ status_code resp = 200%nat /\ thread_start = None
      /\ (exists data raw_url t job,
            get_json req = inr (JObject data)
            /\ default (JString "") (data !! "url") = JString raw_url
            /\ task = Some t
            /\ body resp = StartedBody (job_id job) "Download started"
            /\ reg' = <[job_id job := job]> reg
            /\ registered_as now_ms now_iso raw_url job t)
   \/ status_code resp = 500%nat /\ task = None
      /\ (reg' = reg
          /\ ((exists message,
                 get_json req = inl message
                 /\ body resp = ErrorBody message None)
              \/ (exists data,
                    get_json req = inr data /\ is_object data = false
                    /\ body resp
                       = ErrorBody (attribute_error (body_type data) "get")
                           None)
              \/ (exists data b py_type s,
                    get_json req = inr (JObject data)
                    /\ data !! "url" = Some (JOther b py_type s)
                    /\ body resp
                       = ErrorBody (attribute_error py_type "strip") None))
          \/ exists message data raw_url job t,
               thread_start = Some message
               /\ body resp = ErrorBody message None
               /\ get_json req = inr (JObject data)
               /\ default (JString "") (data !! "url") = JString raw_url
               /\ reg' = <[job_id job := job]> reg
               /\ registered_as now_ms now_iso raw_url job t))
  /\ forall other,
       other <> make_download_id now_ms -> reg' !! other = reg !! other.
Proof. apply start_download_handler_cases. Qed.

Lemma start_download_registers_what_it_validated_witness :
  let started :=
    start_download_handler (L := reference_library)
      {| content_length := Some 60%Z; is_json := true;
         get_json :=
           inr (JObject
                  (<["url" := JString "  https://example.com/v "]>
                     (<["quality" := JString "720P"]> ∅))) |}
      1700000000000 "2023-11-14T22:13:20"
      (Some "can't start new thread") ∅ in
  status_code started.1.1 = 500%nat
  /\ exists job,
       started.1.2 = <[job_id job := job]> ∅
       /\ url job = "https://example.com/v"
       /\ status job = "queued".
Proof.
  intros started.
  assert (Hstart : started = (started.1.1, started.1.2, started.2))
    by (by rewrite <- !surjective_pairing).
  assert (Hcode : status_code started.1.1 = 500%nat)
    by (vm_compute; reflexivity).
  split; [exact Hcode|].
  destruct (start_download_registers_what_it_validated
              (L := reference_library) _ _ _ _ _ _ _ _ Hstart)
    as [[(H400 & _)|[(H200 & _)|(_ & _ & [(_ & Hcause)|Hthread])]] _].
  - rewrite Hcode in H400. discriminate.
  - rewrite Hcode in H200. discriminate.
  - destruct Hcause as [(message & Hraise & _)
                       |[(data & [= <-] & Hobj & _)
                        |(data & b & t & s & [= <-] & Hurl & _)]];
      [discriminate|discriminate|].
    vm_compute in Hurl. discriminate.
  - destruct Hthread as (message & data & raw_url & job & t & _ & _
                         & [= <-] & Hurl & Hreg & Hjob).
    exists job. split; [exact Hreg|].
    destruct Hjob as (_ & Hu & _ & _ & _ & Hst & _).
    rewrite lookup_insert_eq in Hurl. injection Hurl as <-.
    split; [|exact Hst]. rewrite Hu. vm_compute. reflexivity.
Defined.

(** * Further properties of the sweeper *)

Lemma cleanup_file_accounting (current_time : Q) (st : Sweep)
    (filename : string) (n : nat) :
  size (folder st) + cleanup_count st = n
  /\ length (List.filter is_cleaned_line (printed st)) = cleanup_count st
  /\ forallb (fun l => negb (is_summary_line l)) (printed st) = true ->
  size (folder (cleanup_file current_time st filename))
  + cleanup_count (cleanup_file current_time st filename) = n
  /\ length (List.filter is_cleaned_line
               (printed (cleanup_file current_time st filename)))
     = cleanup_count (cleanup_file current_time st filename)
  /\ forallb (fun l => negb (is_summary_line l))
             (printed (cleanup_file current_time st filename)) = true.
Proof.
  intros (Hsize & Hlines & Hsum). unfold cleanup_file.
  destruct (folder st !! filename) as [entry|] eqn:He; [|done].
  destruct (is_file entry); [|done].
  destruct (Qle_bool _ _); cbn [negb]; [done|].
  destruct (removable entry); cbn [folder cleanup_count printed].
  - rewrite map_size_delete, He.
    assert (size (folder st) <> 0).
    { apply map_size_non_empty_iff. intros Hempty.
      by rewrite Hempty, lookup_empty in He. }
    rewrite List.filter_app, length_app, forallb_app, Hsum, Hlines.
    simpl. repeat split; lia.
  - rewrite List.filter_app, length_app, forallb_app, Hsum, Hlines.
    simpl. repeat split; lia.
Qed.

Lemma cleanup_loop_accounting (current_time : Q) (names : list string)
    (st : Sweep) (n : nat) :
  size (folder st) + cleanup_count st = n
  /\ length (List.filter is_cleaned_line (printed st)) = cleanup_count st
  /\ forallb (fun l => negb (is_summary_line l)) (printed st) = true ->
  let st' := foldl (cleanup_file current_time) st names in
  size (folder st') + cleanup_count st' = n
  /\ length (List.filter is_cleaned_line (printed st')) = cleanup_count st'
  /\ forallb (fun l => negb (is_summary_line l)) (printed st') = true.
Proof.
  revert st. induction names as [|name names IH]; intros st H; [done|].
  simpl. by apply IH, cleanup_file_accounting.
Qed.

Lemma swept_later (current_time later : Q) (entry : FileEntry) :
  (current_time <= later)%Q ->
  swept current_time entry = true -> swept later entry = true.
Proof.
  unfold swept. intros Hle.
  rewrite !andb_true_iff, !negb_true_iff. intros [[-> Hold] ->].
  repeat split. apply not_true_is_false. intros Hyoung%Qle_bool_iff.
  assert (H : (current_time - mtime entry <= 30)%Q).
  { apply (Qle_trans _ (later - mtime entry)); [|done].
    unfold Qminus. by apply Qplus_le_l. }
  apply Qle_bool_iff in H. congruence.
Qed.

(** X11.  A tick of the sweeper only removes: the folder afterwards is
    part of the folder before, entry by entry unchanged, and an entry that
    is not a regular file is never removed.  The tick accounts for what it
    removed: one line per removed file, and, when at least one file was
    removed, a last line with their number; when none was removed no such
    line is printed. *)
Theorem sweeper_only_removes_and_counts (current_time : Q)
    (fs : gmap string FileEntry) :
  (cleanup_old_downloads current_time fs).1 ⊆ fs
  /\ (forall k entry,
        fs !! k = Some entry -> is_file entry = false ->
        (cleanup_old_downloads current_time fs).1 !! k = Some entry)
  /\ size (cleanup_old_downloads current_time fs).1
     + length (List.filter is_cleaned_line
                 (cleanup_old_downloads current_time fs).2)
     = size fs
  /\ (size (cleanup_old_downloads current_time fs).1 = size fs ->
      forallb (fun l => negb (is_summary_line l))
              (cleanup_old_downloads current_time fs).2 = true)
  /\ (size (cleanup_old_downloads current_time fs).1 < size fs ->
      List.last (cleanup_old_downloads current_time fs).2 (CleanupComplete 0)
      = CleanupComplete
          (size fs - size (cleanup_old_downloads current_time fs).1)).
Proof.
  split; [|split].
  - apply map_subseteq_spec. intros k entry.
    rewrite cleanup_old_downloads_lookup.
    destruct (fs !! k) as [e|]; [|done].
    by destruct (swept current_time e).
  - intros k entry Hk Hdir. rewrite cleanup_old_downloads_lookup, Hk.
    unfold swept. by rewrite Hdir.
  - unfold cleanup_old_downloads. cbn [fst snd].
    destruct (cleanup_loop_accounting current_time (listdir fs)
                {| folder := fs; cleanup_count := 0; printed := [] |}
                (size fs)) as (Hsize & Hlines & Hsum).
    { cbn [folder cleanup_count printed]. repeat split. simpl. lia. }
    set (st' := foldl _ _ _) in *.
    destruct (Nat.ltb 0 (cleanup_count st')) eqn:Hpos.
    + apply Nat.ltb_lt in Hpos.
      rewrite List.filter_app, length_app, Hlines. simpl.
      split; [lia|]. split; [lia|]. intros _.
      rewrite List.last_last. f_equal. lia.
    + apply Nat.ltb_ge in Hpos. rewrite Hlines.
      split; [lia|]. split; [done|lia].
Qed.

(** X12.  Ticks compose: a tick followed by a tick at the same or a later
    clock reading leaves the folder that the later tick alone would leave.
    In particular a second tick at the same reading removes nothing
    more. *)
Theorem sweeper_ticks_compose (current_time later : Q)
    (fs : gmap string FileEntry) :
  (current_time <= later)%Q ->
  (cleanup_old_downloads later
     (cleanup_old_downloads current_time fs).1).1
  = (cleanup_old_downloads later fs).1.
Proof.
  intros Hle. apply map_eq. intros k.
  rewrite !cleanup_old_downloads_lookup.
  destruct (fs !! k) as [entry|]; [|done].
  destruct (swept current_time entry) eqn:Hs; [|done].
  by rewrite (swept_later current_time later entry Hle Hs).
Qed.

Lemma sweeper_ticks_compose_witness :
  (cleanup_old_downloads 225
     (cleanup_old_downloads 200 example_folder).1).1
  = (cleanup_old_downloads 225 example_folder).1.
Proof. apply sweeper_ticks_compose. by vm_compute. Defined.

(** * The download task *)

Lemma on_jobs_assign (download_id : string) (setter : Job -> Job)
    (st : AppState) (j : Job) :
  jobs st !! download_id = Some j ->
  on_jobs (assign download_id setter) st
  = ({| jobs := <[download_id := setter j]> (jobs st); metas := metas st;
        history := history st |}, inr tt).
Proof.
  intros Hj. unfold on_jobs. by rewrite (assign_present _ _ _ j Hj).
Qed.



(** The handler on a registered job: the state and the text of the error
    are written, and nothing is raised. *)
Lemma handler_effect (text download_id : string) (st : AppState) (j : Job) :
  jobs st !! download_id = Some j ->
  on_jobs (download_video_except text download_id) st
  = ({| jobs := <[download_id :=
                    set_error (helpful_error_message text)
                      (set_status "error" j)]> (jobs st);
        metas := metas st; history := history st |}, inr tt).
Proof.
  intros Hj. unfold on_jobs, download_video_except.
  rewrite (assign_then _ _ _ _ j Hj).
  rewrite (assign_present _ _ _ _ (lookup_insert_eq _ _ _)).
  by rewrite insert_insert_eq.
Qed.

Lemma handler_after_failure (exn_text : Exn -> string) (f : Failure)
    (download_id : string) (reg : gmap string Job)
    (ms : gmap string JobMeta) (h : list HistoryEntry) (j : Job) :
  on_jobs (download_video_except (failure_text exn_text f) download_id)
    {| jobs := <[download_id := j]> reg; metas := ms; history := h |}
  = ({| jobs := <[download_id :=
                    set_error (helpful_error_message (failure_text exn_text f))
                      (set_status "error" j)]> reg;
        metas := ms; history := h |}, inr tt).
Proof.
  rewrite (handler_effect _ download_id _ j) by apply lookup_insert_eq.
  cbn [jobs metas history]. by rewrite insert_insert_eq.
Qed.






(** X14.  A download task for an id that is not in the registry writes
    nothing: its first statement raises [KeyError], and so does the first
    statement of its handler, so that the task ends with the [KeyError] of
    the handler raised and the state as it was. *)
Theorem download_video_of_unregistered_job (exn_text : Exn -> string)
    (script : Run) (now_iso url download_id quality format_type : string)
    (st : AppState) :
  jobs st !! download_id = None ->
  download_video exn_text script now_iso url download_id quality
    format_type st
  = (st, inl (Internal (KeyError download_id))).
Proof.
  intros Hnone. unfold download_video, download_video_try.
  unfold then_ at 1. unfold on_jobs at 1. unfold assign at 1.
  rewrite Hnone. unfold on_jobs, download_video_except, bind, assign.
  cbn [jobs metas history]. rewrite Hnone. by destruct st.
Qed.

Lemma download_video_of_unregistered_job_witness :
  download_video (fun _ => "KeyError")
    {| probe_calls := []; probe := inl "no network";
       download_calls := []; download_result := None |}
    "2023-11-14T22:13:25" "https://example.com/v"
    "download_1700000000001" "best" "video"
    {| jobs := one_job_registry "download_1700000000000"; metas := ∅;
       history := [] |}
  = ({| jobs := one_job_registry "download_1700000000000"; metas := ∅;
        history := [] |},
     inl (Internal (KeyError "download_1700000000001"))).
Proof.
  apply download_video_of_unregistered_job.
  apply lookup_singleton_ne. discriminate.
Defined.

Lemma deliver_logger_errors (download_id : string) (cbs : list Callback) :
  Forall (fun cb => exists msg, cb = LoggerError msg) cbs ->
  forall (st : AppState) (j : Job),
    jobs st !! download_id = Some j ->
    exists j',
      deliver download_id cbs st
      = ({| jobs := <[download_id := j']> (jobs st); metas := metas st;
            history := history st |}, inr tt).
Proof.
  induction 1 as [|cb cbs [msg ->] _ IH]; intros st j Hj.
  - exists j. unfold deliver, done_. rewrite insert_id by done.
    by destruct st.
  - cbn [deliver apply_callback]. unfold then_, on_jobs.
    rewrite (logger_error_effect _ _ _ j Hj).
    destruct (IH {| jobs := <[download_id :=
                                set_error msg (set_status "error" j)]>
                              (jobs st);
                    metas := metas st; history := history st |}
                (set_error msg (set_status "error" j))
                (lookup_insert_eq _ _ _)) as (j' & ->).
    exists j'. cbn [jobs metas history]. by rewrite insert_insert_eq.
Qed.

(** X15.  When the collaborator reports a failure of the probe to the
    logger, any number of times, and then raises, the text the record ends
    with is the helpful text of the raised message, not what the logger
    stored: the handler writes last.  The state is [error] and the history
    is as it was. *)
Theorem handler_text_replaces_logger_text (exn_text : Exn -> string)
    (script : Run) (now_iso url download_id quality format_type : string)
    (st : AppState) (j : Job) (message : string) :
  jobs st !! download_id = Some j ->
  Forall (fun cb => exists msg, cb = LoggerError msg) (probe_calls script) ->
  probe script = inl message ->
  exists st' j',
    download_video exn_text script now_iso url download_id quality
      format_type st = (st', inr tt)
    /\ jobs st' !! download_id = Some j'
    /\ status j' = "error"
    /\ error j' = Some (helpful_error_message message)
    /\ history st' = history st.
Proof.
  intros Hj Hlog Hprobe. unfold download_video, download_video_try.
  unfold then_ at 1. rewrite (on_jobs_assign _ _ _ j Hj).
  destruct (deliver_logger_errors download_id (probe_calls script) Hlog
              {| jobs := <[download_id := set_status "starting" j]> (jobs st);
                 metas := metas st; history := history st |}
              (set_status "starting" j) (lookup_insert_eq _ _ _))
    as (j' & Hd).
  unfold then_ at 1. rewrite Hd, Hprobe. unfold fail.
  cbn [jobs metas history]. rewrite insert_insert_eq.
  rewrite (handler_after_failure exn_text (External message)).
  eexists _, _. split; [reflexivity|]. cbn [jobs metas history].
  rewrite lookup_insert_eq. by repeat split.
Qed.

Lemma handler_text_replaces_logger_text_witness :
  exists st' j',
    download_video (fun _ => "KeyError")
      {| probe_calls := [LoggerError "ERROR: HTTP Error 404: Not Found"];
         probe := inl "HTTP Error 404: Not Found";
         download_calls := []; download_result := None |}
      "2023-11-14T22:13:25" "https://example.com/v"
      "download_1700000000000" "best" "video"
      {| jobs := one_job_registry "download_1700000000000"; metas := ∅;
         history := [] |}
    = (st', inr tt)
    /\ jobs st' !! "download_1700000000000" = Some j'
    /\ error j'
       = Some "Video not found (404). Video may be deleted or URL incorrect.".
Proof.
  destruct (handler_text_replaces_logger_text (fun _ => "KeyError")
              {| probe_calls := [LoggerError "ERROR: HTTP Error 404: Not Found"];
                 probe := inl "HTTP Error 404: Not Found";
                 download_calls := []; download_result := None |}
              "2023-11-14T22:13:25" "https://example.com/v"
              "download_1700000000000" "best" "video"
              {| jobs := one_job_registry "download_1700000000000";
                 metas := ∅; history := [] |}
              (queued_job "download_1700000000000")
              "HTTP Error 404: Not Found"
              (lookup_singleton_eq _ _)
              (Forall_cons_2 _ _ _ (ex_intro _ _ eq_refl) (Forall_nil_2 _))
              eq_refl)
    as (st' & j' & Hrun & Hj' & _ & Herr & _).
  exists st', j'. split; [exact Hrun|]. split; [exact Hj'|].
  rewrite Herr. vm_compute. reflexivity.
Defined.

(** * The history *)

(** X16.  The history endpoint answers with the newest entries, at most
    50 of them, in the order they were appended: its answer is the end of
    the history, of length 50 or the whole history when that is shorter,
    and after one more completed download the answer ends with the new
    entry and has dropped the oldest one it had if it was full. *)
Theorem get_history_is_the_newest_fifty (download_history : list HistoryEntry)
    (entry : HistoryEntry) :
  length (get_history download_history)
  = Nat.min 50 (length download_history)
  /\ (exists older,
        download_history = (older ++ get_history download_history)%list)
  /\ get_history (download_history ++ [entry])
     = (drop (length (get_history download_history) - 49)
             (get_history download_history) ++ [entry])%list.
Proof.
  unfold get_history. split; [|split].
  - rewrite length_drop. lia.
  - exists (firstn (length download_history - 50) download_history).
    by rewrite firstn_skipn.
  - rewrite length_drop, length_app. simpl.
    rewrite drop_drop.
    destruct (decide (length download_history < 50)) as [Hlt|Hge].
    + replace (length download_history + 1 - 50) with 0 by lia.
      replace (length download_history - 50
               + (length download_history
                  - (length download_history - 50) - 49)) with 0 by lia.
      done.
    + rewrite drop_app_le by lia. f_equal. f_equal. lia.
Qed.

(** * The formats of [get_video_info] *)

Lemma add_format_inv (fs0 : list MediaFormat)
    (acc : list FormatEntry * gset Z) (f : MediaFormat) :
  In f fs0 ->
  collect_inv fs0 acc ->
  collect_inv fs0 (add_format acc f)
  /\ acc.2 ⊆ (add_format acc f).2
  /\ (forall h, f_height f = Some h -> h <> 0%Z ->
        h ∈ (add_format acc f).2).
Proof.
  intros Hf (Hseen & Hnd & Hall). destruct acc as [formats seen].
  unfold add_format. cbn [fst snd] in *.
  destruct (f_height f) as [height|] eqn:Hh;
    [|split; [done|split; [done|by intros]]].
  destruct (Z.eqb_spec height 0) as [->|Hnz]; cbn [negb andb].
  { split; [done|]. split; [done|]. by intros h [= <-]. }
  destruct (decide (height ∈ seen)) as [Hin|Hout].
  { rewrite bool_decide_eq_true_2 by done. cbn [negb].
    split; [done|]. split; [done|]. by intros h [= <-]. }
  rewrite bool_decide_eq_false_2 by done. cbn [negb fst snd].
  split; [|split; [set_solver|intros h [= <-]; set_solver]].
  unfold collect_inv. cbn [fst snd]. split; [|split].
  - intros h. rewrite map_app, elem_of_app, elem_of_union, Hseen.
    cbn [map fe_height]. by rewrite list_elem_of_singleton, elem_of_singleton.
  - rewrite map_app. apply NoDup_app. split; [done|]. split.
    + intros h Hin. cbn [map fe_height].
      rewrite list_elem_of_singleton. intros ->. by apply Hout, Hseen.
    + apply NoDup_singleton.
  - apply Forall_app. split; [done|]. constructor; [|done].
    split; [done|]. split; [done|]. by exists f.
Qed.

Lemma foldl_add_format_inv (fs0 fs : list MediaFormat) :
  forall acc,
    (forall f, In f fs -> In f fs0) ->
    collect_inv fs0 acc ->
    collect_inv fs0 (foldl add_format acc fs)
    /\ acc.2 ⊆ (foldl add_format acc fs).2
    /\ (forall f h, In f fs -> f_height f = Some h -> h <> 0%Z ->
          h ∈ (foldl add_format acc fs).2).
Proof.
  induction fs as [|f fs IH]; intros acc Hsub Hinv.
  - split; [done|]. split; [done|]. by intros f h [].
  - cbn [foldl].
    destruct (add_format_inv fs0 acc f (Hsub f (or_introl eq_refl)) Hinv)
      as (Hinv1 & Hgrow1 & Hnew1).
    destruct (IH (add_format acc f)
                (fun g Hg => Hsub g (or_intror Hg)) Hinv1)
      as (Hinv2 & Hgrow2 & Hnew2).
    split; [done|]. split; [set_solver|].
    intros g h [<-|Hg] Hh Hnz.
    + by apply Hgrow2, Hnew1.
    + by apply (Hnew2 g).
Qed.

Lemma insert_by_height_perm (x : FormatEntry) (l : list FormatEntry) :
  insert_by_height x l ≡ₚ x :: l.
Proof.
  induction l as [|y l IH]; [done|]. cbn [insert_by_height].
  destruct (fe_height x <? fe_height y)%Z; [|done].
  rewrite IH. apply Permutation_swap.
Qed.

Lemma sort_by_height_perm (l : list FormatEntry) : sort_by_height l ≡ₚ l.
Proof.
  induction l as [|x l IH]; [done|].
  unfold sort_by_height. cbn [foldr]. fold (sort_by_height l).
  by rewrite insert_by_height_perm, IH.
Qed.

Lemma insert_by_height_descending (x : FormatEntry) (l : list FormatEntry) :
  descending l -> descending (insert_by_height x l).
Proof.
  induction l as [|y l IH]; [by repeat constructor|].
  intros [Hy Hl]. cbn [insert_by_height].
  destruct (Z.ltb_spec (fe_height x) (fe_height y)) as [Hlt|Hge].
  - split; [|by apply IH].
    rewrite insert_by_height_perm. constructor; [lia|done].
  - split; [|by split]. constructor; [lia|].
    eapply Forall_impl; [exact Hy|]. intros z Hz. simpl in Hz. lia.
Qed.

Lemma sort_by_height_descending (l : list FormatEntry) :
  descending (sort_by_height l).
Proof.
  induction l as [|x l IH]; [done|].
  unfold sort_by_height. cbn [foldr]. by apply insert_by_height_descending.
Qed.

Lemma descending_strictly (l : list FormatEntry) :
  descending l -> NoDup (map fe_height l) ->
  strictly_descending (map fe_height l).
Proof.
  induction l as [|x l IH]; [done|].
  intros [Hx Hl]. cbn [map]. rewrite NoDup_cons. intros [Hnew Hnd].
  split; [|by apply IH].
  apply Forall_forall. intros h Hh.
  apply list_elem_of_fmap in Hh as (y & -> & Hy).
  rewrite Forall_forall in Hx. specialize (Hx y Hy). simpl in Hx.
  assert (fe_height y <> fe_height x).
  { intros Heq. apply Hnew. rewrite <- Heq. by apply (list_elem_of_fmap_2 fe_height). }
  lia.
Qed.

Lemma strictly_descending_app (l1 l2 : list Z) :
  strictly_descending (l1 ++ l2) ->
  strictly_descending l1
  /\ forall x y, x ∈ l1 -> y ∈ l2 -> (y < x)%Z.
Proof.
  induction l1 as [|h l1 IH]; [by split; [|intros ?? ?%elem_of_nil]|].
  cbn [app strictly_descending]. intros [Hh Hrest].
  destruct (IH Hrest) as [Hl1 Hcross].
  apply Forall_app in Hh as [Hh1 Hh2].
  split; [by split|].
  intros x y [->|Hx]%elem_of_cons Hy.
  - rewrite Forall_forall in Hh2. by apply Hh2.
  - by apply Hcross.
Qed.

(** X17.  The formats of a successful answer: at most 10 are listed, the
    greatest height first and every height once; each listed entry has a
    height other than 0 that a format the collaborator reported has, is
    labelled with that height followed by [p], and carries the extension
    of such a format, [mp4] when it has none; and a reported height other
    than 0 is left out only when 10 greater ones are listed. *)
Theorem listed_formats_are_the_top_ten (info : Info)
    (fs : list MediaFormat) :
  info_formats info = Some fs ->
  let listed := b_formats (info_body info) in
  length listed <= 10
  /\ strictly_descending (map fe_height listed)
  /\ (forall e,
        In e listed ->
        fe_height e <> 0%Z
        /\ fe_quality e = str_of_int (fe_height e) ++ "p"
        /\ exists f,
             In f fs /\ f_height f = Some (fe_height e)
             /\ fe_ext e = default "mp4" (f_ext f))
  /\ (forall f h,
        In f fs -> f_height f = Some h -> h <> 0%Z ->
        In h (map fe_height listed)
        \/ length listed = 10
           /\ Forall (fun e => (h < fe_height e)%Z) listed).
Proof.
  intros Hfs listed.
  destruct (foldl_add_format_inv fs fs ([], ∅) (fun f Hf => Hf))
    as ((Hseen & Hnd & Hall) & _ & Hnew).
  { split; [|split; [apply NoDup_nil_2|constructor]].
    intros h. cbn [fst snd map]. set_solver. }
  set (collected := (foldl add_format ([], ∅) fs).1) in *.
  assert (Hlisted : listed = firstn 10 (sort_by_height collected)).
  { unfold listed, info_body, collect_formats. cbn [b_formats].
    by rewrite Hfs. }
  pose proof (sort_by_height_perm collected) as Hperm.
  assert (Hstrict : strictly_descending
                      (map fe_height (sort_by_height collected))).
  { apply descending_strictly; [apply sort_by_height_descending|].
    by rewrite Hperm. }
  rewrite <- (firstn_skipn 10 (sort_by_height collected)), map_app
    in Hstrict.
  apply strictly_descending_app in Hstrict as [Hfront Hcross].
  rewrite <- Hlisted in Hfront, Hcross.
  split; [rewrite Hlisted, length_firstn; lia|]. split; [done|]. split.
  - intros e He. rewrite Forall_forall in Hall. apply Hall.
    rewrite <- Hperm. apply list_elem_of_In in He.
    rewrite Hlisted in He. by apply elem_of_take in He as (i & Hi & _);
      apply list_elem_of_lookup_2 in Hi.
  - intros f h Hf Hh Hnz.
    assert (Hin : h ∈ map fe_height (sort_by_height collected)).
    { rewrite Hperm. apply Hseen. by apply (Hnew f). }
    rewrite <- (firstn_skipn 10 (sort_by_height collected)), map_app,
      elem_of_app, <- Hlisted in Hin.
    destruct Hin as [Hin|Hin]; [left; by apply list_elem_of_In|right].
    assert (Hlen : length listed = 10).
    { rewrite Hlisted, length_firstn.
      destruct (decide (10 <= length (sort_by_height collected)));
        [lia|].
      rewrite skipn_all2 in Hin by lia. by apply elem_of_nil in Hin. }
    split; [done|]. apply Forall_forall. intros e He.
    apply (Hcross (fe_height e) h); [|done].
    by apply (list_elem_of_fmap_2 fe_height).
Qed.

Lemma listed_formats_are_the_top_ten_witness :
  map fe_height (b_formats (info_body example_info)) = [1080; 720; 360]%Z
  /\ strictly_descending (map fe_height (b_formats (info_body example_info))).
Proof.
  split; [vm_compute; reflexivity|].
  exact (proj1 (proj2 (listed_formats_are_the_top_ten example_info _
                         eq_refl))).
Defined.

(** * The answers of [get_video_info] *)

Lemma get_video_info_except_not_drm (error_msg m : string) :
  mentions_drm error_msg = false ->
  mentions_drm m = true ->
  get_video_info_except error_msg <> get_video_info_except m.
Proof.
  intros Hno Hyes. unfold get_video_info_except. rewrite Hno, Hyes.
  repeat match goal with
         | |- context [if ?b then _ else _] => destruct b
         end; discriminate.
Qed.

(** X18.  The URL gate and the two handlers of [get_video_info].  A URL
    that fails validation is answered with 400 whatever the collaborator
    would do, and no other answer has the status 400.  The answer that the
    outer handler holds for a message that mentions DRM is never given:
    such a failure of the collaborator is answered by the inner handler.
    And when the first attempt fails without mention of DRM or a login
    and the second attempt fails too, the answer is made from the message
    of the first failure, whatever the second one says. *)
Theorem get_video_info_gate_and_handlers `{L : Library} (url : string)
    (primary generic : string + Info) :
  (info_code (get_video_info url primary generic) = 400%nat
   <-> (validate_url (strip url)).1 = false)
  /\ ((validate_url (strip url)).1 = false ->
      forall primary' generic',
        get_video_info url primary' generic'
        = get_video_info url primary generic)
  /\ (forall m,
        mentions_drm m = true ->
        get_video_info url primary generic <> get_video_info_except m)
  /\ (forall e e',
        (validate_url (strip url)).1 = true ->
        primary = inl e -> generic = inl e' ->
        mentions_drm e = false -> mentions_login e = false ->
        forall e'',
          get_video_info url primary (inl e'') = get_video_info_except e).
Proof.
  unfold get_video_info.
  destruct (validate_url (strip url)) as [[] msg]; cbn [negb fst info_code].
  - split; [|split; [done|split]].
    + split; [|done].
      destruct primary as [e|info]; [|done].
      destruct (mentions_drm e); [done|].
      destruct (mentions_login e); [done|].
      destruct generic as [e'|info]; [|done].
      unfold get_video_info_except.
      repeat match goal with
             | |- context [if ?b then _ else _] => destruct b
             end; done.
    + intros m Hm.
      destruct primary as [e|info];
        [|unfold get_video_info_except; rewrite Hm; discriminate].
      destruct (mentions_drm e) eqn:Hdrm;
        [unfold get_video_info_except; rewrite Hm; discriminate|].
      destruct (mentions_login e);
        [unfold get_video_info_except; rewrite Hm; discriminate|].
      destruct generic as [e'|info];
        [by apply get_video_info_except_not_drm
        |unfold get_video_info_except; rewrite Hm; discriminate].
    + intros e e' _ -> -> Hdrm Hlogin e''. by rewrite Hdrm, Hlogin.
  - split; [done|]. split; [done|]. split; [|done].
    intros m Hm. unfold get_video_info_except. rewrite Hm. discriminate.
Qed.

(** X19.  The task and [/api/info] put every failure message in the same
    class: the text the handler of [download_video] stores and the error
    the outer handler of [get_video_info] answers with are the two texts
    of one class, or both are the message itself. *)
Theorem both_handlers_classify_alike (error_msg : string) :
  In (helpful_error_message error_msg,
      default "" (info_error (get_video_info_except error_msg)))
     matching_texts
  \/ (helpful_error_message error_msg = error_msg
      /\ info_error (get_video_info_except error_msg) = Some error_msg).
Proof.
  unfold helpful_error_message, get_video_info_except, mentions_drm.
  destruct (contains "DRM" error_msg
            || contains "drm protection" (lower error_msg));
    [left; cbn; tauto|].
  destruct (contains "need to log in" (lower error_msg)
            || contains "login required" (lower error_msg)
            || contains "cookies" (lower error_msg)
            || contains "nsfw" (lower error_msg));
    [left; cbn; tauto|].
  destruct (contains "Unsupported URL" error_msg);
    [left; cbn; tauto|]. cbn [orb].
  destruct (contains "No video formats found" error_msg);
    [left; cbn; tauto|].
  destruct (contains "HTTP Error 404" error_msg);
    [left; cbn; tauto|].
  destruct (contains "Unable to extract" error_msg
            || contains "Failed to parse" error_msg);
    [left; cbn; tauto|].
  destruct (contains "Cloudflare" error_msg
            || contains "HTTP Error 403" error_msg
            || contains "impersonate" error_msg);
    [left; cbn; tauto|].
  by right.
Qed.

(** * Serving a file *)

Lemma split_not_nil (sep : ascii) (s : string) : split sep s <> [].
Proof.
  destruct s as [|c s]; [done|]. cbn [split].
  destruct (Ascii.eqb c sep); [done|]. by destruct (split sep s).
Qed.

Lemma append_cons (c : ascii) (a b : string) :
  String c a ++ b = String c (a ++ b).
Proof. reflexivity. Qed.

Lemma append_assoc (a b c : string) : (a ++ b) ++ c = a ++ (b ++ c).
Proof.
  induction a as [|x a IH]; [done|]. by rewrite !append_cons, IH.
Qed.

Lemma split_app_sep (sep : ascii) (a b : string) :
  split sep (a ++ String sep b) = (split sep a ++ split sep b)%list.
Proof.
  induction a as [|c a IH].
  - change ("" ++ String sep b) with (String sep b).
    cbn [split app]. by rewrite Ascii.eqb_refl.
  - rewrite append_cons. cbn [split]. rewrite IH.
    destruct (Ascii.eqb c sep); [done|].
    pose proof (split_not_nil sep a). by destruct (split sep a).
Qed.

Lemma split_sep_free (sep : ascii) (w : string) :
  all_chars (fun c => negb (Ascii.eqb c sep)) w = true ->
  split sep w = [w].
Proof.
  induction w as [|c w IH]; [done|].
  rewrite all_chars_cons. intros [Hc Hw]%andb_true_iff.
  cbn [split]. apply negb_true_iff in Hc. by rewrite Hc, (IH Hw).
Qed.

Lemma last_app_nonempty {A} (l1 l2 : list A) (d : A) :
  l2 <> [] -> List.last (l1 ++ l2) d = List.last l2 d.
Proof.
  intros Hne. induction l1 as [|x l1 IH]; [done|].
  cbn [app List.last]. rewrite IH.
  destruct (l1 ++ l2)%list eqn:Happ; [|done].
  apply app_eq_nil in Happ as [_ ->]. done.
Qed.

Lemma basename_after_slash (a b : string) :
  basename (a ++ "/" ++ b) = basename b.
Proof.
  unfold basename. change ("/" ++ b) with (String "/" b).
  rewrite split_app_sep. apply last_app_nonempty, split_not_nil.
Qed.

Lemma basename_of_slash_free (w : string) :
  slash_free w = true -> basename w = w.
Proof. intros Hw. unfold basename. by rewrite (split_sep_free "/" w Hw). Qed.

Lemma endswith_slash (a : string) :
  endswith a "/" = true -> exists a0, a = a0 ++ "/".
Proof.
  induction a as [|c a IH]; [done|]. cbn [endswith].
  intros [Heq|Hend]%orb_true_iff.
  - apply String.eqb_eq in Heq. exists "". by rewrite Heq.
  - destruct (IH Hend) as [a0 ->]. by exists (String c a0).
Qed.

Lemma slash_free_not_startswith (w : string) :
  slash_free w = true -> startswith w "/" = false.
Proof.
  destruct w as [|c w]; [done|]. unfold slash_free.
  rewrite all_chars_cons. intros [Hc _]%andb_true_iff.
  apply negb_true_iff, Ascii.eqb_neq in Hc.
  unfold startswith. cbn [String.prefix].
  destruct (ascii_dec "/" c) as [<-|_]; [done|done].
Qed.

Lemma prefix_append (a b : string) : String.prefix a (a ++ b) = true.
Proof.
  induction a as [|c a IH]; [by destruct b|].
  rewrite append_cons. cbn [String.prefix]. by destruct (ascii_dec c c).
Qed.

Lemma path_join_child (folder name : string) :
  slash_free name = true ->
  basename (path_join folder name) = name
  /\ String.prefix folder (path_join folder name) = true.
Proof.
  intros Hname. unfold path_join.
  rewrite (slash_free_not_startswith name Hname).
  destruct folder as [|c folder]; cbn [truthy negb orb].
  { split; [by apply basename_of_slash_free|by destruct name]. }
  destruct (endswith (String c folder) "/") eqn:Hend.
  - split; [|apply prefix_append].
    destruct (endswith_slash _ Hend) as [a0 ->].
    rewrite append_assoc.
    by rewrite basename_after_slash, basename_of_slash_free.
  - split; [|apply prefix_append].
    by rewrite basename_after_slash, basename_of_slash_free.
Qed.

(** X20.  Whatever path is asked for, the file that is sent is looked for
    directly in the download folder: the path handed on is the folder
    joined with the last component of the path asked for, which holds no
    slash; it starts with the folder and its own last component is the
    download name.  Two paths with the same last component get the same
    answer, so that asking for a file of the folder by its full path is
    asking for it by its name; and a path that does not exist is answered
    with 404. *)
Theorem download_file_serves_a_child_of_the_folder
    (DOWNLOAD_FOLDER : string) (path_exists : string -> bool)
    (send_file : string -> string -> option string) (filename : string) :
  (forall filepath download_name,
     download_file DOWNLOAD_FOLDER path_exists send_file filename
     = FileSent filepath download_name ->
     download_name = basename filename
     /\ slash_free download_name = true
     /\ filepath = path_join DOWNLOAD_FOLDER download_name
     /\ String.prefix DOWNLOAD_FOLDER filepath = true
     /\ basename filepath = download_name
     /\ path_exists filepath = true)
  /\ (forall other,
        basename other = basename filename ->
        download_file DOWNLOAD_FOLDER path_exists send_file other
        = download_file DOWNLOAD_FOLDER path_exists send_file filename)
  /\ (forall name,
        slash_free name = true ->
        download_file DOWNLOAD_FOLDER path_exists send_file
          (path_join DOWNLOAD_FOLDER name)
        = download_file DOWNLOAD_FOLDER path_exists send_file name)
  /\ (path_exists (path_join DOWNLOAD_FOLDER (basename filename)) = false ->
      download_file DOWNLOAD_FOLDER path_exists send_file filename
      = FileRefused 404 "File not found").
Proof.
  split; [|split; [|split]].
  - intros filepath download_name. unfold download_file.
    destruct (path_exists _) eqn:Hex; cbn [negb]; [|done].
    destruct (send_file _ _); [done|]. intros [= <- <-].
    pose proof (basename_slash_free filename) as Hfree.
    destruct (path_join_child DOWNLOAD_FOLDER _ Hfree) as [Hbase Hpre].
    by repeat split.
  - intros other Hsame. unfold download_file. by rewrite Hsame.
  - intros name Hname. unfold download_file.
    destruct (path_join_child DOWNLOAD_FOLDER name Hname) as [-> _].
    by rewrite (basename_of_slash_free name Hname).
  - intros Hex. unfold download_file. by rewrite Hex.
Qed.

(** * The decorators *)

Lemma check_request_size_within {S : Type} (max_size : Z) (f : View S)
    (req : HttpRequest) (s : S) :
  size_admitted max_size req = true ->
  check_request_size max_size f req s = f req s.
Proof.
  unfold check_request_size, size_admitted.
  destruct (content_length req) as [n|]; [|done].
  destruct (Z.eqb_spec n 0); [done|]. rewrite orb_false_r.
  intros Hle%Z.leb_le. cbn [negb andb].
  by destruct (Z.ltb_spec max_size n); [lia|].
Qed.

Lemma check_request_size_beyond {S : Type} (max_size : Z) (f : View S)
    (req : HttpRequest) (s : S) :
  size_admitted max_size req = false ->
  check_request_size max_size f req s = refuse 413 "Request too large" s.
Proof.
  unfold check_request_size, size_admitted.
  destruct (content_length req) as [n|]; [|done].
  intros [Hgt%Z.leb_gt Hnz]%orb_false_iff.
  rewrite Hnz. apply Z.ltb_lt in Hgt. by rewrite Hgt.
Qed.

Lemma missing_fields_raises (data : JsonBody) (required_fields : list string)
    (e : Exn) :
  missing_fields data required_fields = inl e ->
  e = TypeError /\ is_object data = false.
Proof.
  induction required_fields as [|field rest IH]; [done|].
  cbn [missing_fields].
  destruct (field_missing data field) as [e'|missing] eqn:Hfield.
  - intros [= <-]. unfold field_missing in Hfield.
    destruct data as [fields|items|text|py_type].
    + by destruct (fields !! field).
    + destruct (existsb _ items); by simplify_eq.
    + destruct (contains field text); by simplify_eq.
    + by simplify_eq.
  - destruct (missing_fields data rest) as [e'|others]; [|done].
    intros [= <-]. by apply IH.
Qed.

Lemma missing_fields_of_object (fields : gmap string JsonValue)
    (required_fields : list string) :
  missing_fields (JObject fields) required_fields
  = inr (List.filter
           (fun field => negb (value_truthy
                                 (default (JString "") (fields !! field))))
           required_fields).
Proof.
  induction required_fields as [|field rest IH]; [done|].
  cbn [missing_fields field_missing List.filter]. rewrite IH.
  by destruct (fields !! field) as [v|]; cbn [default from_option id];
    [destruct (value_truthy v)|].
Qed.

Lemma filter_nil_forallb {A} (p : A -> bool) (l : list A) :
  List.filter p l = [] <-> forallb (fun x => negb (p x)) l = true.
Proof.
  induction l as [|x l IH]; [done|]. cbn [List.filter forallb].
  destruct (p x); cbn [negb andb]; [by split|done].
Qed.

Lemma validate_json_request_complete {S : Type}
    (required_fields : list string) (f : View S) (req : HttpRequest)
    (s : S) (data : JsonBody) :
  is_json req = true ->
  get_json req = inr data ->
  missing_fields data required_fields = inr [] ->
  validate_json_request required_fields f req s = f req s.
Proof.
  intros Hjson Hdata Hfields. unfold validate_json_request.
  rewrite Hjson, Hdata, Hfields. cbn [negb]. by destruct required_fields.
Qed.

Lemma validate_json_request_incomplete {S : Type}
    (required_fields : list string) (f : View S) (req : HttpRequest)
    (s : S) :
  is_json req
  && match get_json req with
     | inl _ => false
     | inr data =>
         match missing_fields data required_fields with
         | inr [] => true
         | _ => false
         end
     end = false ->
  (exists error,
     validate_json_request required_fields f req s = refuse 400 error s)
  \/ (validate_json_request required_fields f req s = (inl TypeError, s)
      /\ exists data, get_json req = inr data /\ is_object data = false).
Proof.
  unfold validate_json_request.
  destruct (is_json req); cbn [negb andb]; [|left; by eexists].
  destruct (get_json req) as [|data]; [left; by eexists|].
  destruct required_fields as [|field fields]; [done|].
  destruct (missing_fields data (field :: fields)) as [e|[|m ms]] eqn:Hm;
    [|done|left; by eexists].
  intros _. apply missing_fields_raises in Hm as [-> Hobj].
  right. split; [done|]. by exists data.
Qed.

Lemma guarded_view_accepts {S : Type} (max_size : Z)
    (required_fields : list string) (f : View S) (req : HttpRequest)
    (s : S) :
  passes_validators max_size required_fields req = true ->
  check_request_size max_size
    (validate_json_request required_fields (secure_headers f)) req s
  = secure_headers f req s.
Proof.
  intros Hpass. unfold passes_validators in Hpass.
  apply andb_true_iff in Hpass as [[Hsize Hjson]%andb_true_iff Hfields].
  destruct (get_json req) as [|data] eqn:Hdata; [done|].
  rewrite (check_request_size_within max_size _ req s Hsize).
  apply (validate_json_request_complete required_fields _ req s data);
    [done|done|].
  by destruct (missing_fields data required_fields) as [|[|]].
Qed.

Lemma guarded_view_refuses {S : Type} (max_size : Z)
    (required_fields : list string) (f : View S) (req : HttpRequest)
    (s : S) :
  passes_validators max_size required_fields req = false ->
  (exists code error,
     check_request_size max_size
       (validate_json_request required_fields (secure_headers f)) req s
     = refuse code error s
     /\ (code = 413%nat \/ code = 400%nat))
  \/ (check_request_size max_size
        (validate_json_request required_fields (secure_headers f)) req s
      = (inl TypeError, s)
      /\ exists data, get_json req = inr data /\ is_object data = false).
Proof.
  unfold passes_validators. rewrite <- andb_assoc. intros Hfail.
  destruct (size_admitted max_size req) eqn:Hsize.
  - rewrite (check_request_size_within max_size _ req s Hsize).
    destruct (validate_json_request_incomplete required_fields
                (secure_headers f) req s Hfail) as [[error ->]|[-> Hobj]].
    + left. exists 400%nat, error. by split; [|right].
    + by right.
  - rewrite (check_request_size_beyond max_size _ req s Hsize).
    left. exists 413%nat, "Request too large". by split; [|left].
Qed.

(** X21.  A view under the two request validators and [secure_headers],
    in the order of the routes: the validators run first and the headers
    are set inside them.  A request that passes both reaches the view
    once; when the view answers, the answer is sent with the five headers
    set to their fixed values, whatever the view had set for them, and no
    other header changed, and when the view raises, the exception
    escapes.  A request that does not pass does not reach the view and
    leaves the state as it is: it is answered with 413 or 400, without any
    of the five headers, or, when the body is not an object, the test of
    the required fields may raise [TypeError], which escapes.  The size is
    tested first: a request over the size limit is answered with 413
    whatever else is wrong with it.  A request of admitted size that is
    JSON and whose body is an object passes exactly when every required
    field is there with a true value. *)
Theorem validators_run_outside_the_headers {S : Type} (max_size : Z)
    (required_fields : list string) (f : View S) (req : HttpRequest)
    (s : S) :
  let guarded :=
    check_request_size max_size
      (validate_json_request required_fields (secure_headers f)) in
  (passes_validators max_size required_fields req = true ->
   (forall e s', f req s = (inl e, s') -> guarded req s = (inl e, s'))
   /\ (forall r s',
         f req s = (inr r, s') ->
         exists h,
           guarded req s = (inr {| response := response r; headers := h |}, s')
           /\ h !! "X-Content-Type-Options" = Some "nosniff"
           /\ h !! "X-Frame-Options" = Some "DENY"
           /\ h !! "X-XSS-Protection" = Some "1; mode=block"
           /\ h !! "Referrer-Policy" = Some "strict-origin-when-cross-origin"
           /\ h !! "Permissions-Policy"
              = Some "geolocation=(), microphone=(), camera=()"
           /\ (forall name,
                 name ∉ dom (set_security_headers ∅) ->
                 h !! name = headers r !! name)))
  /\ (passes_validators max_size required_fields req = false ->
      (guarded req s).2 = s
      /\ ((exists code error,
             (guarded req s).1 = inr (refusal code error)
             /\ (code = 413%nat \/ code = 400%nat))
          \/ ((guarded req s).1 = inl TypeError
              /\ exists data,
                   get_json req = inr data /\ is_object data = false)))
  /\ (forall n,
        content_length req = Some n -> n <> 0%Z -> (max_size < n)%Z ->
        guarded req s = refuse 413 "Request too large" s)
  /\ (forall fields,
        size_admitted max_size req = true ->
        is_json req = true ->
        get_json req = inr (JObject fields) ->
        (passes_validators max_size required_fields req = true
         <-> forall field,
               In field required_fields ->
               exists v,
                 fields !! field = Some v /\ value_truthy v = true)).
Proof.
  intros guarded. subst guarded.
  split; [|split; [|split]].
  - intros Hpass.
    rewrite (guarded_view_accepts max_size required_fields f req s Hpass).
    unfold secure_headers. split.
    + intros e s' ->. done.
    + intros r s' ->. eexists. split; [reflexivity|].
      unfold set_security_headers.
      split; [by rewrite !lookup_insert_ne, lookup_insert_eq by done|].
      split; [by rewrite !lookup_insert_ne, lookup_insert_eq by done|].
      split; [by rewrite !lookup_insert_ne, lookup_insert_eq by done|].
      split; [by rewrite !lookup_insert_ne, lookup_insert_eq by done|].
      split; [by rewrite lookup_insert_eq|].
      intros name Hname. rewrite !dom_insert_L, dom_empty_L in Hname.
      rewrite !lookup_insert_ne; [done|set_solver..].
  - intros Hfail.
    destruct (guarded_view_refuses max_size required_fields f req s Hfail)
      as [(code & error & -> & Hcode)|[-> Hobj]].
    + split; [done|]. left. by exists code, error.
    + split; [done|]. by right.
  - intros n Hn Hnz Hbig. apply check_request_size_beyond.
    unfold size_admitted. rewrite Hn.
    apply orb_false_iff. split; [apply Z.leb_gt; lia|by apply Z.eqb_neq].
  - intros fields Hsize Hjson Hdata. unfold passes_validators.
    rewrite Hsize, Hjson, Hdata, missing_fields_of_object. cbn [andb].
    split.
    + intros Hpass field Hfield.
      destruct (List.filter _ required_fields) eqn:Hfilter; [|done].
      apply filter_nil_forallb in Hfilter.
      rewrite forallb_forall in Hfilter. specialize (Hfilter field Hfield).
      rewrite negb_involutive in Hfilter.
      destruct (fields !! field) as [v|]; [by exists v|done].
    + intros Hall.
      assert (Hfilter : List.filter
                (fun field => negb (value_truthy
                                      (default (JString "")
                                         (fields !! field))))
                required_fields = []).
      { apply filter_nil_forallb, forallb_forall. intros field Hfield.
        destruct (Hall field Hfield) as (v & -> & Hv).
        rewrite negb_involutive. exact Hv. }
      by rewrite Hfilter.
Qed.

